(** * Session routing of the OpenRouter adapter and the unified IPC handlers

    A shallow embedding of [src/openrouter.js] and [src/unified-handlers.js]
    (with the renderer-side senders of [renderer.js] and the earlier copy of
    [openrouter.js] kept at the repository root), followed by the properties
    of the session layer that the specification states, and by further
    properties of the same code: the transcript and the audio buffers of
    [openrouter.js], the other handlers, the renderer's senders and token
    counts, and the Grok module kept with [unified-handlers.js].

    JavaScript module variables become the fields of one state record
    ([Sys]); session objects live in an object store so that two references
    to one object alias; [Date.now()], the renderer's [localStorage], the
    HTTP client and the Gemini SDK are the environment.  Every [await] on the
    HTTP client splits a function in the part before and the part after the
    suspension, so that other handlers can run in between. *)

From Stdlib Require QArith.
From Stdlib Require Import ZArith Lia Strings.Byte DecimalString DecimalN.
From stdpp Require Import base strings list relations.

Local Open Scope string_scope.
Local Open Scope nat_scope.
Local Open Scope list_scope.

(** * The model *)

(** ** JavaScript values and strings *)

Module Js.

(** The values a handler can receive over IPC.  Strings are sequences of
    code units below 256; numbers are the integers. *)
Inductive value :=
| VUndefined
| VNull
| VBool (b : bool)
| VNum (z : Z)
| VStr (s : string)
| VObj.

(** [s ? ... : ...] on a string: the empty string is falsy. *)
Definition nonempty (s : string) : bool :=
  match s with
  | EmptyString => false
  | String _ _ => true
  end.

(** ToBoolean. *)
Definition truthy (v : value) : bool :=
  match v with
  | VUndefined | VNull => false
  | VBool b => b
  | VNum z => negb (z =? 0)%Z
  | VStr s => nonempty s
  | VObj => true
  end.

(** [typeof v === 'string'] *)
Definition is_string (v : value) : bool :=
  match v with
  | VStr _ => true
  | _ => false
  end.

(** The string a value of type string is. *)
Definition str (v : value) : string :=
  match v with
  | VStr s => s
  | _ => ""
  end.

(** [v.length < n]: only a string has a length here, and a comparison
    with [undefined] is false. *)
Definition length_lt (v : value) (n : nat) : bool :=
  match v with
  | VStr s => (String.length s <? n)%nat
  | _ => false
  end.

(** [a || b] on strings. *)
Definition or_else (a b : string) : string :=
  if nonempty a then a else b.

(** WhiteSpace and LineTerminator code units below 256:
    TAB, LF, VT, FF, CR, SP and NBSP. *)
Definition is_whitespace (a : Ascii.ascii) : bool :=
  let n := Ascii.N_of_ascii a in
  ((9 <=? n) && (n <=? 13) || (n =? 32) || (n =? 160))%N.

Fixpoint trimStart (s : string) : string :=
  match s with
  | EmptyString => EmptyString
  | String a s' => if is_whitespace a then trimStart s' else s
  end.

Definition trimEnd (s : string) : string :=
  String.rev (trimStart (String.rev s)).

(** [String.prototype.trim] *)
Definition trim (s : string) : string := trimEnd (trimStart s).

Definition lower_char (a : Ascii.ascii) : Ascii.ascii :=
  let n := Ascii.N_of_ascii a in
  if ((65 <=? n) && (n <=? 90)
      || (192 <=? n) && (n <=? 222) && negb (n =? 215))%N
  then Ascii.ascii_of_N (n + 32)
  else a.

(** [String.prototype.toLowerCase] *)
Fixpoint toLowerCase (s : string) : string :=
  match s with
  | EmptyString => EmptyString
  | String a s' => String (lower_char a) (toLowerCase s')
  end.

End Js.

(** ** Data of the session layer *)

(** A conversation turn, as [saveConversationTurn] builds it. *)
Record Turn := {
  timestamp : N;
  transcription : string;
  ai_response : string;
}.

(** [lastSessionParams] *)
Record SessionParams := {
  p_apiKey : string;
  p_model : string;
  p_customPrompt : string;
  p_profile : string;
  p_language : string;
}.

(** The reference object [initializeOpenRouterSession] returns. *)
Record SessionObj := {
  apiKey : string;
  model : string;
  systemPrompt : string;
  profile : string;
  language : string;
  active : bool;
}.

Definition deactivate (o : SessionObj) : SessionObj :=
  {| apiKey := apiKey o; model := model o; systemPrompt := systemPrompt o;
     profile := profile o; language := language o; active := false |}.

(** A live session of the Gemini SDK: opaque to this layer. *)
Inductive GeminiSession := GeminiHandle (id : nat).

(** Chat-completion request bodies. *)
Inductive Part :=
| PartText (content : string)
| PartImageUrl (url : string).

Inductive Content :=
| ContentText (s : string)
| ContentParts (parts : list Part).

Record Message := {
  role : string;
  content : Content;
}.

(** What is sent to the renderer on a channel. *)
Inductive Payload :=
| PBool (b : bool)
| PText (s : string)
| PTurn (sessionId : option string) (turn : Turn) (fullHistory : list Turn).

(** What the Gemini SDK is asked to send. *)
Inductive RealtimeInput :=
| InText (s : string)
| InMedia (data mimeType : string)
| InAudio (data mimeType : string).

(** The observable effects, in the order in which they happen. *)
Inductive Event :=
| RendererSend (channel : string) (data : Payload)
| AxiosPost (url : string) (req_model : string) (messages : list Message)
            (authorization : string) (timeout : option N)
| GeminiInitialize (key customPrompt prof lang : string)
| GeminiSendRealtimeInput (g : GeminiSession) (input : RealtimeInput)
| GeminiClose (g : GeminiSession)
| GeminiNewSession.

(** Calls that leave the process: the HTTP client and the Gemini SDK. *)
Definition is_backend_call (e : Event) : bool :=
  match e with
  | AxiosPost _ _ _ _ _ | GeminiInitialize _ _ _ _
  | GeminiSendRealtimeInput _ _ | GeminiClose _ => true
  | RendererSend _ _ | GeminiNewSession => false
  end.

Definition backend_calls (t : list Event) : list Event :=
  filter (λ e, is_backend_call e = true) t.

(** ** The state *)

Record Sys := {
  (* openrouter.js *)
  currentSessionId : option string;
  currentTranscription : string;
  conversationHistory : list Turn;
  isInitializingSession : bool;
  reconnectionAttempts : nat;
  lastSessionParams : option SessionParams;
  (* unified-handlers.js: the [current] field of the two references *)
  geminiSessionRef : option GeminiSession;
  openRouterSessionRef : option nat;
  (* the objects the references point to, by their address in the store *)
  heap : list SessionObj;
  (* environment: open windows, the readings of the clock and how many of
     them were consumed, the effects so far *)
  windows : nat;
  clock : nat → N;
  clockReads : nat;
  trace : list Event;
}.

Definition set_currentSessionId (v : option string) (s : Sys) : Sys :=
  {| currentSessionId := v;
     currentTranscription := currentTranscription s;
     conversationHistory := conversationHistory s;
     isInitializingSession := isInitializingSession s;
     reconnectionAttempts := reconnectionAttempts s;
     lastSessionParams := lastSessionParams s;
     geminiSessionRef := geminiSessionRef s;
     openRouterSessionRef := openRouterSessionRef s;
     heap := heap s; windows := windows s; clock := clock s;
     clockReads := clockReads s; trace := trace s |}.

Definition set_currentTranscription (v : string) (s : Sys) : Sys :=
  {| currentSessionId := currentSessionId s;
     currentTranscription := v;
     conversationHistory := conversationHistory s;
     isInitializingSession := isInitializingSession s;
     reconnectionAttempts := reconnectionAttempts s;
     lastSessionParams := lastSessionParams s;
     geminiSessionRef := geminiSessionRef s;
     openRouterSessionRef := openRouterSessionRef s;
     heap := heap s; windows := windows s; clock := clock s;
     clockReads := clockReads s; trace := trace s |}.

Definition set_conversationHistory (v : list Turn) (s : Sys) : Sys :=
  {| currentSessionId := currentSessionId s;
     currentTranscription := currentTranscription s;
     conversationHistory := v;
     isInitializingSession := isInitializingSession s;
     reconnectionAttempts := reconnectionAttempts s;
     lastSessionParams := lastSessionParams s;
     geminiSessionRef := geminiSessionRef s;
     openRouterSessionRef := openRouterSessionRef s;
     heap := heap s; windows := windows s; clock := clock s;
     clockReads := clockReads s; trace := trace s |}.

Definition set_isInitializingSession (v : bool) (s : Sys) : Sys :=
  {| currentSessionId := currentSessionId s;
     currentTranscription := currentTranscription s;
     conversationHistory := conversationHistory s;
     isInitializingSession := v;
     reconnectionAttempts := reconnectionAttempts s;
     lastSessionParams := lastSessionParams s;
     geminiSessionRef := geminiSessionRef s;
     openRouterSessionRef := openRouterSessionRef s;
     heap := heap s; windows := windows s; clock := clock s;
     clockReads := clockReads s; trace := trace s |}.

Definition set_reconnectionAttempts (v : nat) (s : Sys) : Sys :=
  {| currentSessionId := currentSessionId s;
     currentTranscription := currentTranscription s;
     conversationHistory := conversationHistory s;
     isInitializingSession := isInitializingSession s;
     reconnectionAttempts := v;
     lastSessionParams := lastSessionParams s;
     geminiSessionRef := geminiSessionRef s;
     openRouterSessionRef := openRouterSessionRef s;
     heap := heap s; windows := windows s; clock := clock s;
     clockReads := clockReads s; trace := trace s |}.

Definition set_lastSessionParams (v : option SessionParams) (s : Sys) : Sys :=
  {| currentSessionId := currentSessionId s;
     currentTranscription := currentTranscription s;
     conversationHistory := conversationHistory s;
     isInitializingSession := isInitializingSession s;
     reconnectionAttempts := reconnectionAttempts s;
     lastSessionParams := v;
     geminiSessionRef := geminiSessionRef s;
     openRouterSessionRef := openRouterSessionRef s;
     heap := heap s; windows := windows s; clock := clock s;
     clockReads := clockReads s; trace := trace s |}.

Definition set_geminiSessionRef (v : option GeminiSession) (s : Sys) : Sys :=
  {| currentSessionId := currentSessionId s;
     currentTranscription := currentTranscription s;
     conversationHistory := conversationHistory s;
     isInitializingSession := isInitializingSession s;
     reconnectionAttempts := reconnectionAttempts s;
     lastSessionParams := lastSessionParams s;
     geminiSessionRef := v;
     openRouterSessionRef := openRouterSessionRef s;
     heap := heap s; windows := windows s; clock := clock s;
     clockReads := clockReads s; trace := trace s |}.

Definition set_openRouterSessionRef (v : option nat) (s : Sys) : Sys :=
  {| currentSessionId := currentSessionId s;
     currentTranscription := currentTranscription s;
     conversationHistory := conversationHistory s;
     isInitializingSession := isInitializingSession s;
     reconnectionAttempts := reconnectionAttempts s;
     lastSessionParams := lastSessionParams s;
     geminiSessionRef := geminiSessionRef s;
     openRouterSessionRef := v;
     heap := heap s; windows := windows s; clock := clock s;
     clockReads := clockReads s; trace := trace s |}.

Definition set_heap (v : list SessionObj) (s : Sys) : Sys :=
  {| currentSessionId := currentSessionId s;
     currentTranscription := currentTranscription s;
     conversationHistory := conversationHistory s;
     isInitializingSession := isInitializingSession s;
     reconnectionAttempts := reconnectionAttempts s;
     lastSessionParams := lastSessionParams s;
     geminiSessionRef := geminiSessionRef s;
     openRouterSessionRef := openRouterSessionRef s;
     heap := v; windows := windows s; clock := clock s;
     clockReads := clockReads s; trace := trace s |}.

Definition set_clockReads (v : nat) (s : Sys) : Sys :=
  {| currentSessionId := currentSessionId s;
     currentTranscription := currentTranscription s;
     conversationHistory := conversationHistory s;
     isInitializingSession := isInitializingSession s;
     reconnectionAttempts := reconnectionAttempts s;
     lastSessionParams := lastSessionParams s;
     geminiSessionRef := geminiSessionRef s;
     openRouterSessionRef := openRouterSessionRef s;
     heap := heap s; windows := windows s; clock := clock s;
     clockReads := v; trace := trace s |}.

Definition set_trace (v : list Event) (s : Sys) : Sys :=
  {| currentSessionId := currentSessionId s;
     currentTranscription := currentTranscription s;
     conversationHistory := conversationHistory s;
     isInitializingSession := isInitializingSession s;
     reconnectionAttempts := reconnectionAttempts s;
     lastSessionParams := lastSessionParams s;
     geminiSessionRef := geminiSessionRef s;
     openRouterSessionRef := openRouterSessionRef s;
     heap := heap s; windows := windows s; clock := clock s;
     clockReads := clockReads s; trace := v |}.

(** ** Computations: state passing with exceptions *)

(** A JavaScript call either returns a value or throws an [Error] with a
    message; the state it has written stays written in both cases. *)
Inductive Outcome (A : Type) :=
| Returns (a : A)
| Throws (message : string).
Arguments Returns {A} a.
Arguments Throws {A} message.

Definition M (A : Type) : Type := Sys → Outcome A * Sys.

Definition ret {A} (a : A) : M A := λ s, (Returns a, s).

Global Instance M_ret : MRet M := @ret.

Global Instance M_bind : MBind M := λ A B f m s,
  match m s with
  | (Returns a, s') => f a s'
  | (Throws e, s') => (Throws e, s')
  end.

Definition throw {A} (message : string) : M A := λ s, (Throws message, s).

(** [try { m } catch (error) { h error.message }] *)
Definition try_catch {A} (m : M A) (h : string → M A) : M A := λ s,
  match m s with
  | (Returns a, s') => (Returns a, s')
  | (Throws e, s') => h e s'
  end.

Definition gets {A} (f : Sys → A) : M A := λ s, (Returns (f s), s).
Definition modify (f : Sys → Sys) : M unit := λ s, (Returns tt, f s).
Definition when (b : bool) (m : M unit) : M unit := λ s,
  if b then m s else (Returns tt, s).

(** The state a computation ends in, and what it yields. *)
Definition state_after {A} (m : M A) (s : Sys) : Sys := (m s).2.
Definition outcome_of {A} (m : M A) (s : Sys) : Outcome A := (m s).1.

Definition returns_normally {A} (o : Outcome A) : bool :=
  match o with
  | Returns _ => true
  | Throws _ => false
  end.

(** The effects a computation adds to the trace. *)
Definition emit (e : Event) : M unit :=
  modify (λ s, set_trace (trace s ++ [e]) s).

(** [Date.now()] *)
Definition Date_now : M N := λ s,
  (Returns (clock s (clockReads s)), set_clockReads (S (clockReads s)) s).

(** ** openrouter.js *)

(** What [axios.post] settles to: the text of the first choice of the
    response body ([resp.data?.choices?.[0]?.message?.content]), or an
    error with the message of the response body, if any, and its own. *)
Inductive AxiosOutcome :=
| AxiosOk (reply : option string)
| AxiosErr (response_error : option string) (message : string).

Definition completions_url : string :=
  "https://openrouter.ai/api/v1/chat/completions".

Definition image_instructions : string :=
  "Help me on this page, give me the answer no bs, complete answer. So if its a code question, give me the approach in few bullet points, then the entire code. Also if theres anything else i need to know, tell me. If its a question about the website, give me the answer no bs, complete answer. If its a mcq question, give me the answer no bs, complete answer.".

Definition not_active : string := "No active OpenRouter session".

(** [Number.prototype.toString] on a reading of the clock: its decimal
    digits. *)
Definition toString (t : N) : string :=
  NilEmpty.string_of_uint (N.to_uint t).

Definition sendToRenderer (channel : string) (data : Payload) : M unit :=
  n ← gets windows;
  when (0 <? n)%nat (emit (RendererSend channel data)).

Definition initializeNewSession : M unit :=
  t ← Date_now;
  modify (set_currentSessionId (Some (toString t)));;
  modify (set_currentTranscription "");;
  modify (set_conversationHistory []).

(** [!currentSessionId] *)
Definition no_session_id (id : option string) : bool :=
  match id with
  | None => true
  | Some s => negb (Js.nonempty s)
  end.

Definition saveConversationTurn (transcription aiResponse : string) : M unit :=
  id ← gets currentSessionId;
  when (no_session_id id) initializeNewSession;;
  t ← Date_now;
  let conversationTurn :=
    {| timestamp := t;
       transcription := Js.trim transcription;
       ai_response := Js.trim aiResponse |} in
  modify (λ s, set_conversationHistory
                 (conversationHistory s ++ [conversationTurn]) s);;
  id ← gets currentSessionId;
  h ← gets conversationHistory;
  sendToRenderer "save-conversation-turn" (PTurn id conversationTurn h).

Definition getCurrentSessionData : M (option string * list Turn) :=
  id ← gets currentSessionId;
  h ← gets conversationHistory;
  ret (id, h).

(** The object a reference points to; [null] and a reference to nothing
    read as no object. *)
Definition deref (session : option nat) (s : Sys) : option SessionObj :=
  l ← session; heap s !! l.

(** [new] : a fresh object at the end of the store. *)
Definition alloc (o : SessionObj) : M nat := λ s,
  (Returns (length (heap s)), set_heap (heap s ++ [o]) s).

(** [!session || !session.apiKey || !session.model || !session.active] *)
Definition unusable (o : option SessionObj) : bool :=
  match o with
  | None => true
  | Some obj =>
      negb (Js.nonempty (apiKey obj)) || negb (Js.nonempty (model obj))
      || negb (active obj)
  end.

Definition text_messages (prompt text : string) : list Message :=
  [ {| role := "system"; content := ContentText prompt |};
    {| role := "user"; content := ContentText text |} ].

Definition image_messages (prompt base64Data : string) : list Message :=
  [ {| role := "system"; content := ContentText prompt |};
    {| role := "user";
       content := ContentParts
         [ PartText image_instructions;
           PartImageUrl ("data:image/jpeg;base64," +:+ base64Data) ] |} ].

(** [error.response?.data?.error?.message || error.message
    || 'Unknown error'] *)
Definition error_message (response_error : option string) (message : string)
  : string :=
  Js.or_else (default "" response_error) (Js.or_else message "Unknown error").

(** [sendTextToOpenRouter] up to its [await]: the guard on the session and
    the request that is handed to the HTTP client. *)
Definition sendText_request (text : string) (session : option nat) : M unit :=
  o ← gets (deref session);
  match o with
  | Some obj =>
      if unusable o then throw not_active
      else emit (AxiosPost completions_url (model obj)
                   (text_messages (systemPrompt obj) text)
                   ("Bearer " +:+ apiKey obj) (Some 30000%N))
  | None => throw not_active
  end.

(** [sendTextToOpenRouter] from its [await] on: what it does with the
    settled request. *)
Definition sendText_response (text : string) (r : AxiosOutcome)
  : M (option string) :=
  match r with
  | AxiosOk data =>
      let reply := Js.or_else (default "" data) "" in
      sendToRenderer "update-response" (PText reply);;
      when (Js.nonempty text && Js.nonempty reply)
           (saveConversationTurn text reply);;
      ret data
  | AxiosErr response_error message =>
      let errorMsg := error_message response_error message in
      sendToRenderer "update-status" (PText ("Error: " +:+ errorMsg));;
      throw errorMsg
  end.

(** A send no other handler interrupts. *)
Definition sendTextToOpenRouter (text : string) (session : option nat)
    (r : AxiosOutcome) : M (option string) :=
  sendText_request text session;;
  sendText_response text r.

Definition sendImage_request (base64Data : string) (session : option nat)
  : M unit :=
  o ← gets (deref session);
  match o with
  | Some obj =>
      if unusable o then throw not_active
      else emit (AxiosPost completions_url (model obj)
                   (image_messages (systemPrompt obj) base64Data)
                   ("Bearer " +:+ apiKey obj) (Some 45000%N))
  | None => throw not_active
  end.

Definition sendImage_response (r : AxiosOutcome) : M (option string) :=
  match r with
  | AxiosOk data =>
      let reply := Js.or_else (default "" data) "" in
      sendToRenderer "update-response" (PText reply);;
      when (Js.nonempty reply) (saveConversationTurn "[Image sent]" reply);;
      ret data
  | AxiosErr response_error message =>
      let errorMsg := error_message response_error message in
      sendToRenderer "update-status" (PText ("Error: " +:+ errorMsg));;
      throw errorMsg
  end.

Definition sendImageToOpenRouter (base64Data : string) (session : option nat)
    (r : AxiosOutcome) : M (option string) :=
  sendImage_request base64Data session;;
  sendImage_response r.

(** The adapter has no audio: the call fails before anything is sent. *)
Definition sendAudioToOpenRouter (base64Data : string) (session : option nat)
  : M unit :=
  let errorMsg := "Audio input not supported in OpenRouter (yet)" in
  sendToRenderer "update-status" (PText errorMsg);;
  throw errorMsg.

Section Initialize.

(** [getSystemPrompt] of [prompts.js]: profile, custom prompt and search
    flag to the final prompt. *)
Variable getSystemPrompt : string → string → bool → string.

(** [false] is [None]; a session object is its address. *)
Definition initializeOpenRouterSession
    (key mdl customPrompt prof lang : string) (isReconnection : bool)
  : M (option nat) :=
  busy ← gets isInitializingSession;
  if (busy : bool) then ret None
  else
    modify (set_isInitializingSession true);;
    sendToRenderer "session-initializing" (PBool true);;
    when (negb isReconnection)
      (modify (set_lastSessionParams
                 (Some {| p_apiKey := key; p_model := mdl;
                          p_customPrompt := customPrompt;
                          p_profile := prof; p_language := lang |}));;
       modify (set_reconnectionAttempts 0));;
    let prompt := getSystemPrompt prof customPrompt true in
    when (negb isReconnection) initializeNewSession;;
    sessionObj ← alloc {| apiKey := key; model := mdl;
                          systemPrompt := prompt; profile := prof;
                          language := lang; active := true |};
    modify (set_isInitializingSession false);;
    sendToRenderer "session-initializing" (PBool false);;
    sendToRenderer "update-status"
      (PText ("OpenRouter session initialized with model: " +:+ mdl));;
    ret (Some sessionObj).

End Initialize.

(** The copy of [openrouter.js] at the repository root, which the unified
    handlers do not load: its [sendImageToOpenRouter] returns [undefined]
    ([None]) on an unusable session, ignores [active], and records the turn
    whatever the reply is. *)
Module Legacy.

Definition unusable (o : option SessionObj) : bool :=
  match o with
  | None => true
  | Some obj =>
      negb (Js.nonempty (apiKey obj)) || negb (Js.nonempty (model obj))
  end.

Definition image_messages (prompt base64Data : string) : list Message :=
  [ {| role := "system"; content := ContentText prompt |};
    {| role := "user";
       content := ContentParts
         [ PartText "Describe this image.";
           PartImageUrl ("data:image/jpeg;base64," +:+ base64Data) ] |} ].

Definition sendImageToOpenRouter (base64Data : string)
    (session : option nat) (r : AxiosOutcome) : M (option (option string)) :=
  o ← gets (deref session);
  match o with
  | Some obj =>
      if unusable o then ret None
      else
        emit (AxiosPost completions_url (model obj)
                (image_messages (systemPrompt obj) base64Data)
                ("Bearer " +:+ apiKey obj) None);;
        match r with
        | AxiosOk data =>
            let reply := Js.or_else (default "" data) "" in
            sendToRenderer "update-response" (PText reply);;
            saveConversationTurn "[Image sent]" reply;;
            ret (Some data)
        | AxiosErr response_error message =>
            sendToRenderer "update-status"
              (PText ("Error: " +:+
                      Js.or_else (default "" response_error) message));;
            throw message
        end
  | None => ret None
  end.

End Legacy.

(** ** unified-handlers.js *)

(** What the environment answers during one handler call. *)
Record World := {
  (* [localStorage.getItem key] in the renderer: the item, [null], or an
     exception *)
  localStorage : string → Outcome (option string);
  (* [executeJavaScript] rejects with this message *)
  executeJavaScript_rejects : option string;
  axios_post : AxiosOutcome;
  (* gemini.js and the Gemini SDK *)
  gemini_initialize : Outcome (option GeminiSession);
  gemini_sendRealtimeInput : Outcome unit;
  gemini_close : Outcome unit;
}.

Inductive CloseResult :=
| CloseOk (type : string)
| CloseError (type : string) (error : string).

Inductive IpcData :=
| NoData
| SessionId (sessionId : string)
| Results (results : list CloseResult)
| SessionData (sessionId : option string) (history : list Turn)
| GeminiSessionData
| ResponseData (data : option string).

(** [{success: true, ...}] and [{success: false, error}] *)
Inductive IpcResult :=
| IpcSuccess (data : IpcData)
| IpcFailure (error : string).

Definition success (r : IpcResult) : bool :=
  match r with
  | IpcSuccess _ => true
  | IpcFailure _ => false
  end.

(** A promise of the environment settles. *)
Definition settle {A} (o : Outcome A) : M A := λ s, (o, s).

(** The script [localStorage.getItem(key) || dflt], with its own [catch],
    run by [executeJavaScript]. *)
Definition storage_item (w : World) (key dflt : string) : Outcome string :=
  match executeJavaScript_rejects w with
  | Some e => Throws e
  | None =>
      match localStorage w key with
      | Returns (Some v) => Returns (Js.or_else v dflt)
      | Returns None | Throws _ => Returns dflt
      end
  end.

Definition getCurrentModelType (w : World) : M string :=
  try_catch
    (n ← gets windows;
     if (0 <? n)%nat
     then modelType ← settle (storage_item w "modelType" "gemini");
          ret (Js.toLowerCase modelType)
     else ret "gemini")
    (λ _, ret "gemini").

Definition geminiSend (g : GeminiSession) (input : RealtimeInput) (w : World)
  : M unit :=
  emit (GeminiSendRealtimeInput g input);;
  settle (gemini_sendRealtimeInput w).

(** [!openRouterSessionRef.current || !openRouterSessionRef.current.active] *)
Definition no_active_session (o : option SessionObj) : bool :=
  match o with
  | None => true
  | Some obj => negb (active obj)
  end.

(** Every handler wraps its body in [try]/[catch] and answers a failure
    with the message of what was thrown. *)
Definition handler (body : M IpcResult) : M IpcResult :=
  try_catch body (λ e, ret (IpcFailure e)).

Section Unified.

Variable getSystemPrompt : string → string → bool → string.

(** [Buffer.from(data, 'base64').length] *)
Variable base64ByteLength : string → nat.

Definition initialize_model (apiKey : Js.value)
    (customPrompt prof lang : string) (w : World) : M IpcResult :=
  handler
    (if negb (Js.truthy apiKey) || negb (Js.is_string apiKey)
        || (String.length (Js.trim (Js.str apiKey)) =? 0)%nat
     then ret (IpcFailure "Invalid API key provided")
     else
       modelType ← getCurrentModelType w;
       if (modelType =? "openrouter")%string
       then
         mdl ← settle (storage_item w "openRouterModel"
                         "anthropic/claude-3.5-sonnet");
         session ← initializeOpenRouterSession getSystemPrompt
                     (Js.trim (Js.str apiKey)) mdl customPrompt prof lang
                     false;
         match session with
         | Some l =>
             modify (set_openRouterSessionRef (Some l));;
             ret (IpcSuccess NoData)
         | None => ret (IpcFailure "Failed to initialize OpenRouter session")
         end
       else
         emit (GeminiInitialize (Js.trim (Js.str apiKey)) customPrompt
                 prof lang);;
         session ← settle (gemini_initialize w);
         match session with
         | Some g =>
             modify (set_geminiSessionRef (Some g));;
             ret (IpcSuccess NoData)
         | None => ret (IpcFailure "Failed to initialize Gemini session")
         end).

Definition send_text_message (text : Js.value) (w : World) : M IpcResult :=
  handler
    (if negb (Js.truthy text) || negb (Js.is_string text)
        || (String.length (Js.trim (Js.str text)) =? 0)%nat
     then ret (IpcFailure "Invalid text message")
     else
       modelType ← getCurrentModelType w;
       if (modelType =? "openrouter")%string
       then
         current ← gets openRouterSessionRef;
         o ← gets (deref current);
         if no_active_session o
         then ret (IpcFailure not_active)
         else
           sendTextToOpenRouter (Js.trim (Js.str text)) current
             (axios_post w);;
           ret (IpcSuccess NoData)
       else
         current ← gets geminiSessionRef;
         match current with
         | None => ret (IpcFailure "No active Gemini session")
         | Some g =>
             geminiSend g (InText (Js.trim (Js.str text))) w;;
             ret (IpcSuccess NoData)
         end).

Definition send_image_content (data : Js.value) (w : World) : M IpcResult :=
  handler
    (if negb (Js.truthy data) || negb (Js.is_string data)
     then ret (IpcFailure "Invalid image data")
     else
       modelType ← getCurrentModelType w;
       if (modelType =? "openrouter")%string
       then
         current ← gets openRouterSessionRef;
         o ← gets (deref current);
         if no_active_session o
         then ret (IpcFailure not_active)
         else
           sendImageToOpenRouter (Js.str data) current (axios_post w);;
           ret (IpcSuccess NoData)
       else
         current ← gets geminiSessionRef;
         match current with
         | None => ret (IpcFailure "No active Gemini session")
         | Some g =>
             if (base64ByteLength (Js.str data) <? 1000)%nat
             then ret (IpcFailure "Image buffer too small")
             else
               geminiSend g (InMedia (Js.str data) "image/jpeg") w;;
               ret (IpcSuccess NoData)
         end).

Definition send_audio_content (data : Js.value) (mimeType : string)
    (w : World) : M IpcResult :=
  handler
    (modelType ← getCurrentModelType w;
     if (modelType =? "openrouter")%string
     then ret (IpcFailure "Audio input not supported with OpenRouter model.")
     else
       current ← gets geminiSessionRef;
       match current with
       | None => ret (IpcFailure "No active Gemini session")
       | Some g =>
           if negb (Js.truthy data) || negb (Js.is_string data)
           then ret (IpcFailure "Invalid audio data")
           else
             geminiSend g
               (InAudio (Js.str data)
                  (Js.or_else mimeType "audio/pcm;rate=24000")) w;;
             ret (IpcSuccess NoData)
       end).

(** The Gemini half of [close-session], with its own [try]/[catch]. *)
Definition close_gemini (w : World) : M (list CloseResult) :=
  current ← gets geminiSessionRef;
  match current with
  | Some g =>
      try_catch
        (emit (GeminiClose g);;
         settle (gemini_close w);;
         modify (set_geminiSessionRef None);;
         ret [CloseOk "gemini"])
        (λ e, ret [CloseError "gemini" e])
  | None => ret []
  end.

(** The OpenRouter half: the object is marked inactive, then the
    reference is dropped. *)
Definition close_openrouter : M (list CloseResult) :=
  current ← gets openRouterSessionRef;
  match current with
  | Some l =>
      try_catch
        (modify (λ s, set_heap (alter deactivate l (heap s)) s);;
         modify (set_openRouterSessionRef None);;
         ret [CloseOk "openrouter"])
        (λ e, ret [CloseError "openrouter" e])
  | None => ret []
  end.

Definition close_session (w : World) : M IpcResult :=
  handler
    (r1 ← close_gemini w;
     r2 ← close_openrouter;
     ret (IpcSuccess (Results (r1 ++ r2)))).

Definition get_current_session (w : World) : M IpcResult :=
  handler
    (modelType ← getCurrentModelType w;
     if (modelType =? "openrouter")%string
     then
       d ← getCurrentSessionData;
       ret (IpcSuccess (SessionData d.1 d.2))
     else ret (IpcSuccess GeminiSessionData)).

(** The id in the answer is a reading of the clock of its own, taken
    after the module has started its log. *)
Definition start_new_session (w : World) : M IpcResult :=
  handler
    (modelType ← getCurrentModelType w;
     (if (modelType =? "openrouter")%string
      then initializeNewSession
      else emit GeminiNewSession);;
     t ← Date_now;
     ret (IpcSuccess (SessionId (toString t)))).

(** *** renderer.js: the sender in front of [send-image-content] *)

Definition sendImageMessage (base64data : Js.value) (w : World)
  : M IpcResult :=
  if negb (Js.truthy base64data) || Js.length_lt base64data 100
  then ret (IpcFailure "Invalid image data")
  else handler (send_image_content base64data w).

End Unified.

(** How a call that fails does so: the call itself throws, or it returns a
    promise that is rejected later. *)
Inductive Failure :=
| Thrown
| Rejected.

(** A call that is not awaited, in a [try]: of its failures only the one
    that the call itself throws is seen. *)
Definition unawaited {A} (how : Failure) (o : Outcome A) : Outcome unit :=
  match how, o with
  | Thrown, Throws e => Throws e
  | _, _ => Returns tt
  end.

(** [cleanupAllSessions]: the Gemini session is told to close and is not
    waited for, so that its slot is emptied unless the call itself throws;
    the OpenRouter session is closed as [close-session] closes it. *)
Definition cleanupAllSessions (how : Failure) (w : World) : M unit :=
  current ← gets geminiSessionRef;
  match current with
  | Some g =>
      try_catch
        (emit (GeminiClose g);;
         settle (unawaited how (gemini_close w));;
         modify (set_geminiSessionRef None))
        (λ _, ret tt)
  | None => ret tt
  end;;
  current ← gets openRouterSessionRef;
  match current with
  | Some l =>
      try_catch
        (modify (λ s, set_heap (alter deactivate l (heap s)) s);;
         modify (set_openRouterSessionRef None))
        (λ _, ret tt)
  | None => ret tt
  end.

(** *** The handlers [openrouter.js] registers under its own prefix

    They share the OpenRouter slot with the unified handlers.  The audio
    capture process they stop is not part of the state. *)

Module OpenRouterIpc.

Section WithPrompts.

Variable getSystemPrompt : string → string → bool → string.

Definition initialize_session (key mdl customPrompt prof lang : string)
  : M IpcResult :=
  handler
    (session ← initializeOpenRouterSession getSystemPrompt key mdl
                 customPrompt prof lang false;
     match session with
     | Some l =>
         modify (set_openRouterSessionRef (Some l));;
         ret (IpcSuccess NoData)
     | None => ret (IpcFailure "Failed to initialize OpenRouter session")
     end).

End WithPrompts.

Definition send_text_message (text : string) (w : World) : M IpcResult :=
  current ← gets openRouterSessionRef;
  match current with
  | None => ret (IpcFailure not_active)
  | Some _ =>
      handler
        (resp ← sendTextToOpenRouter text current (axios_post w);
         ret (IpcSuccess (ResponseData resp)))
  end.

Definition send_image_content (data : string) (w : World) : M IpcResult :=
  current ← gets openRouterSessionRef;
  match current with
  | None => ret (IpcFailure not_active)
  | Some _ =>
      handler
        (resp ← sendImageToOpenRouter data current (axios_post w);
         ret (IpcSuccess (ResponseData resp)))
  end.

Definition send_audio_content (data : string) : M IpcResult :=
  handler
    (current ← gets openRouterSessionRef;
     sendAudioToOpenRouter data current;;
     ret (IpcSuccess NoData)).

Definition close_session : M IpcResult :=
  handler
    (modify (set_lastSessionParams None);;
     current ← gets openRouterSessionRef;
     match current with
     | Some l =>
         modify (λ s, set_heap (alter deactivate l (heap s)) s);;
         modify (set_openRouterSessionRef None)
     | None => ret tt
     end;;
     ret (IpcSuccess NoData)).

Definition get_current_session : M IpcResult :=
  handler
    (d ← getCurrentSessionData;
     ret (IpcSuccess (SessionData d.1 d.2))).

Definition start_new_session : M IpcResult :=
  handler
    (initializeNewSession;;
     id ← gets currentSessionId;
     ret (IpcSuccess (SessionId (default "" id)))).

End OpenRouterIpc.

(** ** Audio buffers

    [convertStereoToMono] is the same in both copies of [openrouter.js]. *)

Module Buffer.

Definition byte_Z (b : Byte.byte) : Z := Z.of_N (Byte.to_N b).

(** What a byte array stores of a number: its low eight bits. *)
Definition Z_byte (z : Z) : Byte.byte :=
  default Byte.x00 (Byte.of_N (Z.to_N (z `mod` 256))).

(** Two's complement reading of a 16-bit value. *)
Definition int16 (val : Z) : Z :=
  if (32768 <=? val)%Z then (val - 65536)%Z else val.

(** [buf.readInt16LE(offset)]; [None] is the [RangeError] of a read
    past the end. *)
Definition readInt16LE (buf : list Byte.byte) (offset : nat) : option Z :=
  first ← buf !! offset;
  last ← buf !! (offset + 1);
  Some (int16 (byte_Z first + byte_Z last * 2 ^ 8)).

(** [buf.writeInt16LE(value, offset)]; [None] is the [RangeError] of a
    value that is no 16-bit integer or of a write past the end. *)
Definition writeInt16LE (value : Z) (offset : nat) (buf : list Byte.byte)
  : option (list Byte.byte) :=
  if ((-32768 <=? value) && (value <=? 32767))%Z
     && (offset + 1 <? length buf)%nat
  then Some (<[offset + 1 := Z_byte (value / 2 ^ 8)]>
               (<[offset := Z_byte value]> buf))
  else None.

(** [Buffer.alloc(size)] *)
Definition alloc (size : nat) : list Byte.byte := replicate size Byte.x00.

(** The iterations of [for (let i = 0; i < samples; i++)], from [i] on,
    [n] of them. *)
Fixpoint mono_loop (stereoBuffer : list Byte.byte) (n i : nat)
    (monoBuffer : list Byte.byte) : option (list Byte.byte) :=
  match n with
  | 0 => Some monoBuffer
  | S n' =>
      leftSample ← readInt16LE stereoBuffer (i * 4);
      monoBuffer' ← writeInt16LE leftSample (i * 2) monoBuffer;
      mono_loop stereoBuffer n' (S i) monoBuffer'
  end.

(** [samples] is [length / 4] as a fraction: the buffer allocated has
    [samples * 2] bytes rounded down, and the loop runs for every integer
    below [samples]. *)
Definition convertStereoToMono (stereoBuffer : list Byte.byte)
  : option (list Byte.byte) :=
  let len := length stereoBuffer in
  mono_loop stereoBuffer ((len + 3) / 4) 0 (alloc (len / 2)).

End Buffer.

(** ** States and worlds to run the model on *)

(** The state of a process that has just started: no session, no log, the
    flags down and nothing sent. *)
Definition initial (nwindows : nat) (clk : nat → N) : Sys :=
  {| currentSessionId := None; currentTranscription := "";
     conversationHistory := []; isInitializingSession := false;
     reconnectionAttempts := 0; lastSessionParams := None;
     geminiSessionRef := None; openRouterSessionRef := None;
     heap := []; windows := nwindows; clock := clk; clockReads := 0;
     trace := [] |}.

(** A clock that advances by one millisecond between two readings, and one
    that is read twice within the same millisecond. *)
Definition ticking (start : N) : nat → N := λ n, (start + N.of_nat n)%N.
Definition frozen (at_ : N) : nat → N := λ _, at_.

(** A prompt builder to run the examples with. *)
Definition demo_prompt (prof customPrompt : string) (search : bool) : string :=
  prof +:+ ": " +:+ customPrompt.

(** The state after one fresh initialisation, with the session stored in
    the OpenRouter slot. *)
Definition one_session : Sys :=
  set_openRouterSessionRef (Some 0)
    (state_after
       (initializeOpenRouterSession demo_prompt "sk-key" "m1" "" "interview"
          "en-US" false)
       (initial 1 (ticking 1700000000000))).

(** A world whose renderer has stored the given provider. *)
Definition world_of (modelType : option string) (r : AxiosOutcome) : World :=
  {| localStorage := λ key,
       if (key =? "modelType")%string then Returns modelType
       else Returns None;
     executeJavaScript_rejects := None;
     axios_post := r;
     gemini_initialize := Returns None;
     gemini_sendRealtimeInput := Returns tt;
     gemini_close := Returns tt |}.

(** The provider a handler sees. *)
Definition provider (w : World) (s : Sys) : Outcome string :=
  outcome_of (getCurrentModelType w) s.

(** A decoder to run the examples with: three bytes for four characters. *)
Definition demo_base64ByteLength (data : string) : nat :=
  String.length data * 3 / 4.

(** ** What is said of a computation and of a state *)

(** [R s s'] for every state [s] and the state [s'] the computation ends
    in, whether it returns or throws. *)
Definition preserves (R : relation Sys) {A} (m : M A) : Prop :=
  ∀ s, R s (m s).2.

(** A component of the state is the same afterwards. *)
Definition fixes {B} (f : Sys → B) : relation Sys := λ s s', f s' = f s.

(** A property of the state that holds before holds afterwards. *)
Definition holds (P : Sys → Prop) : relation Sys := λ s s', P s → P s'.

(** The effects so far are still there afterwards, followed by new ones. *)
Definition extends_trace : relation Sys := λ s s',
  ∃ rest, trace s' = trace s ++ rest.

(** No initialisation is in flight. *)
Definition idle (s : Sys) : Prop := isInitializingSession s = false.

(** As long as no session id was minted, no turn was recorded. *)
Definition log_consistent (s : Sys) : Prop :=
  no_session_id (currentSessionId s) = true → conversationHistory s = [].

(** The object at [l] exists and is marked inactive. *)
Definition inactive_object (l : nat) (s : Sys) : Prop :=
  ∃ obj, heap s !! l = Some obj ∧ active obj = false.

(** The state after [sendToRenderer]: one more effect if a window is
    open. *)
Definition notified (channel : string) (data : Payload) (s : Sys) : Sys :=
  if 0 <? windows s then set_trace (trace s ++ [RendererSend channel data]) s
  else s.

(** The reply a settled request carries: [data || ''] *)
Definition reply_of (r : AxiosOutcome) : string :=
  match r with
  | AxiosOk data => Js.or_else (default "" data) ""
  | AxiosErr _ _ => ""
  end.

(** What the log is after a send: untouched if the call throws or if there
    is nothing to record, one turn longer otherwise. *)
Definition records (input : string) (record : bool) (r : AxiosOutcome)
    (s : Sys) (run : Outcome (option string) * Sys) : Prop :=
  match run.1 with
  | Throws _ => conversationHistory run.2 = conversationHistory s
  | Returns _ =>
      if record
      then ∃ turn,
             conversationHistory run.2 = conversationHistory s ++ [turn]
             ∧ transcription turn = Js.trim input
             ∧ ai_response turn = Js.trim (reply_of r)
      else conversationHistory run.2 = conversationHistory s
  end.

(** ** The calls over time *)

Section Protocol.

Variable getSystemPrompt : string → string → bool → string.
Variable base64ByteLength : string → nat.

(** What can happen to the state: a handler runs, or one half of an
    adapter call does, on any arguments and with any handle. *)
Inductive Call :=
| InitializeModel (key : Js.value) (customPrompt prof lang : string)
                  (w : World)
| SendTextMessage (text : Js.value) (w : World)
| SendImageContent (data : Js.value) (w : World)
| SendAudioContent (data : Js.value) (mimeType : string) (w : World)
| CloseSession (w : World)
| GetCurrentSession (w : World)
| StartNewSession (w : World)
| RendererSendImage (base64data : Js.value) (w : World)
| CleanupAllSessions (how : Failure) (w : World)
| PrefixedInitialize (key mdl customPrompt prof lang : string)
| PrefixedSendText (text : string) (w : World)
| PrefixedSendImage (data : string) (w : World)
| PrefixedSendAudio (data : string)
| PrefixedClose
| PrefixedGetCurrentSession
| PrefixedStartNewSession
| AdapterInitialize (key mdl customPrompt prof lang : string)
                    (isReconnection : bool)
| AdapterTextRequest (text : string) (session : option nat)
| AdapterTextResponse (text : string) (r : AxiosOutcome)
| AdapterImageRequest (data : string) (session : option nat)
| AdapterImageResponse (r : AxiosOutcome)
| AdapterAudio (data : string) (session : option nat).

Definition perform (c : Call) : Sys → Sys :=
  match c with
  | InitializeModel key customPrompt prof lang w =>
      state_after
        (initialize_model getSystemPrompt key customPrompt prof lang w)
  | SendTextMessage text w => state_after (send_text_message text w)
  | SendImageContent data w =>
      state_after (send_image_content base64ByteLength data w)
  | SendAudioContent data mimeType w =>
      state_after (send_audio_content data mimeType w)
  | CloseSession w => state_after (close_session w)
  | GetCurrentSession w => state_after (get_current_session w)
  | StartNewSession w => state_after (start_new_session w)
  | RendererSendImage base64data w =>
      state_after (sendImageMessage base64ByteLength base64data w)
  | CleanupAllSessions how w => state_after (cleanupAllSessions how w)
  | PrefixedInitialize key mdl customPrompt prof lang =>
      state_after
        (OpenRouterIpc.initialize_session getSystemPrompt key mdl
           customPrompt prof lang)
  | PrefixedSendText text w =>
      state_after (OpenRouterIpc.send_text_message text w)
  | PrefixedSendImage data w =>
      state_after (OpenRouterIpc.send_image_content data w)
  | PrefixedSendAudio data =>
      state_after (OpenRouterIpc.send_audio_content data)
  | PrefixedClose => state_after OpenRouterIpc.close_session
  | PrefixedGetCurrentSession =>
      state_after OpenRouterIpc.get_current_session
  | PrefixedStartNewSession => state_after OpenRouterIpc.start_new_session
  | AdapterInitialize key mdl customPrompt prof lang isReconnection =>
      state_after
        (initializeOpenRouterSession getSystemPrompt key mdl customPrompt
           prof lang isReconnection)
  | AdapterTextRequest text session =>
      state_after (sendText_request text session)
  | AdapterTextResponse text r => state_after (sendText_response text r)
  | AdapterImageRequest data session =>
      state_after (sendImage_request data session)
  | AdapterImageResponse r => state_after (sendImage_response r)
  | AdapterAudio data session =>
      state_after (sendAudioToOpenRouter data session)
  end.

Definition step (s s' : Sys) : Prop := ∃ c, s' = perform c s.

(** The states that follow [s]. *)
Definition later : relation Sys := rtc step.

(** The calls that put a session into the OpenRouter slot:
    [initialize-model] and [openrouter-initialize-session]. *)
Definition initialises (c : Call) : bool :=
  match c with
  | InitializeModel _ _ _ _ _ | PrefixedInitialize _ _ _ _ _ => true
  | _ => false
  end.

(** The states that follow [s] as long as none of them is called. *)
Definition later_uninitialised : relation Sys :=
  rtc (λ s s', ∃ c, initialises c = false ∧ s' = perform c s).

End Protocol.

(** ** Further code of the same files *)

(** *** openrouter.js: the transcript of the speakers *)

Module Transcript.

(** One result of the speaker recognition: a text and the number of a
    speaker.  A missing [transcript] reads as the empty string and a missing
    [speakerId] as 0: both are falsy. *)
Record SpeakerResult := {
  transcript : string;
  speakerId : Z;
}.

Definition newline : string := String (Ascii.ascii_of_N 10) "".

(** [result.transcript && result.speakerId] *)
Definition spoken (result : SpeakerResult) : bool :=
  Js.nonempty (transcript result) && negb (speakerId result =? 0)%Z.

Definition speakerLabel (result : SpeakerResult) : string :=
  if (speakerId result =? 1)%Z then "Interviewer" else "Candidate".

(** The body of the loop: what one result adds to [text]. *)
Definition line (result : SpeakerResult) : string :=
  "[" +:+ speakerLabel result +:+ "]: " +:+ transcript result +:+ newline.

Definition formatSpeakerResults (results : list SpeakerResult) : string :=
  fold_left
    (λ text result, if spoken result then text +:+ line result else text)
    results "".

End Transcript.

(** *** The copy of [openrouter.js] at the repository root: the chunks of
    the captured audio

    What the listener on the output of the capture process does with the
    bytes it is handed: it cuts chunks of a tenth of a second off the front
    of what it has, converts each to mono for [sendAudioToOpenRouter], and
    keeps the rest for the next time. *)

Module LegacyCapture.

(** 24000 samples a second. *)
Definition SAMPLE_RATE : nat := 24 * 1000.
Definition BYTES_PER_SAMPLE : nat := 2.
Definition CHANNELS : nat := 2.

(** [SAMPLE_RATE * BYTES_PER_SAMPLE * CHANNELS * CHUNK_DURATION] with a
    duration of 0.1: the double nearest to the product is the integer
    9600. *)
Definition CHUNK_SIZE : nat := SAMPLE_RATE * BYTES_PER_SAMPLE * CHANNELS / 10.

Definition maxBufferSize : nat := SAMPLE_RATE * BYTES_PER_SAMPLE * 1.

(** The [i]-th chunk of a stream of bytes. *)
Definition chunk (i : nat) (stream : list Byte.byte) : list Byte.byte :=
  take CHUNK_SIZE (drop (i * CHUNK_SIZE) stream).

(** [while (audioBuffer.length >= CHUNK_SIZE) { ... }], at most [fuel]
    rounds of it: the mono chunks handed on (each goes to
    [sendAudioToOpenRouter] in base64, and the loop does not wait for what
    becomes of it) and the buffer that is left.  [None] is an exception of
    [convertStereoToMono], or a loop that is not over when the rounds are
    used up. *)
Fixpoint drain (fuel : nat) (audioBuffer : list Byte.byte)
  : option (list (list Byte.byte) * list Byte.byte) :=
  if CHUNK_SIZE <=? length audioBuffer
  then
    match fuel with
    | 0 => None
    | S fuel' =>
        let chunk := take CHUNK_SIZE audioBuffer in
        let audioBuffer' := drop CHUNK_SIZE audioBuffer in
        monoChunk ← Buffer.convertStereoToMono chunk;
        rest ← drain fuel' audioBuffer';
        Some (monoChunk :: rest.1, rest.2)
    end
  else Some ([], audioBuffer).

(** The listener: [audioBuffer] is what the last call has left, [data] what
    has arrived.  Every round shortens the buffer, so its length is enough
    rounds.  [slice(-n)] keeps the last [n] bytes. *)
Definition on_data (audioBuffer data : list Byte.byte)
  : option (list (list Byte.byte) * list Byte.byte) :=
  let audioBuffer := audioBuffer ++ data in
  r ← drain (length audioBuffer) audioBuffer;
  let audioBuffer := r.2 in
  Some (r.1,
        if maxBufferSize <? length audioBuffer
        then drop (length audioBuffer - maxBufferSize) audioBuffer
        else audioBuffer).

End LegacyCapture.

(** *** unified-handlers.js: the other audio handlers *)

(** [send-mic-audio-content] *)
Definition send_mic_audio_content (data : Js.value) (mimeType : string)
    (w : World) : M IpcResult :=
  handler
    (modelType ← getCurrentModelType w;
     if (modelType =? "openrouter")%string
     then ret (IpcFailure "Audio input not supported with OpenRouter model.")
     else
       current ← gets geminiSessionRef;
       match current with
       | None => ret (IpcFailure "No active Gemini session")
       | Some g =>
           if negb (Js.truthy data) || negb (Js.is_string data)
           then ret (IpcFailure "Invalid microphone audio data")
           else
             geminiSend g
               (InAudio (Js.str data)
                  (Js.or_else mimeType "audio/pcm;rate=24000")) w;;
             ret (IpcSuccess NoData)
       end).

(** What [start-macos-audio] answers: [{success}] with what the capture of
    [gemini.js] has returned, or [{success: false, error}]. *)
Inductive CaptureResult :=
| Capture (success : bool)
| CaptureRefused (error : string).

(** [start-macos-audio]; [process.platform] and what
    [geminiModule.startMacOSAudioCapture] settles to are the
    environment's. *)
Definition start_macos_audio (platform : string)
    (startMacOSAudioCapture : Outcome bool) (w : World) : M CaptureResult :=
  try_catch
    (modelType ← getCurrentModelType w;
     if (modelType =? "openrouter")%string
     then ret (CaptureRefused
                 "Audio capture not supported with OpenRouter model.")
     else if negb (platform =? "darwin")%string
     then ret (CaptureRefused "macOS audio capture only available on macOS")
     else
       success ← settle startMacOSAudioCapture;
       ret (Capture success))
    (λ e, ret (CaptureRefused e)).

(** What the audio handlers make of the answer of the Gemini SDK. *)
Definition sdk_answer (o : Outcome unit) : IpcResult :=
  match o with
  | Returns _ => IpcSuccess NoData
  | Throws e => IpcFailure e
  end.

(** *** renderer.js: token counts and the senders in front of the
    handlers *)

Module Renderer.

(** The numbers of the token counts.  They are doubles that are whole and
    not negative, or [Infinity], here [Inf]: [Int n] is the double whose
    value is [n], for the [n] that a double holds (every [n] up to [2 ^ 53],
    and above it those of 53 significant bits).  The counts that the senders
    add are such numbers: a ceiling of a length or of a number of pixels. *)
Inductive number :=
| Int (n : N)
| Inf.

(** The whole number nearest to [n / d]; of two that are as near, the even
    one. *)
Definition nearest_even (n d : N) : N :=
  match (2 * (n mod d) ?= d)%N with
  | Lt => n / d
  | Eq => if N.even (n / d) then n / d else n / d + 1
  | Gt => n / d + 1
  end%N.

(** The double nearest to the whole number [n]: its 53 leading bits are
    kept, rounded to nearest, ties to even; from [2 ^ 1024] on it is
    [Infinity]. *)
Definition double (n : N) : number :=
  let e := (N.log2 n - 52)%N in
  let v := (nearest_even n (2 ^ e) * 2 ^ e)%N in
  if (2 ^ 1024 <=? v)%N then Inf else Int v.

(** [a + b] *)
Definition add (a b : number) : number :=
  match a, b with
  | Int x, Int y => double (x + y)
  | _, _ => Inf
  end.

(** The least whole number that is not below [n / d].  It is
    [Math.ceil(n / 4)] for a length [n]: a division by 4 is exact. *)
Definition ceil_div (n d : N) : N := ((n + (d - 1)) / d)%N.

(** The exponent of the leading bit of [n / d], for [n] and [d] that are
    not 0: the [k] with [2 ^ k <= n / d < 2 ^ (k + 1)]. *)
Definition log2_quotient (n d : N) : Z :=
  let k := (Z.of_N (N.log2 n) - Z.of_N (N.log2 d))%Z in
  if (if (0 <=? k)%Z then d * 2 ^ Z.to_N k <=? n
      else d <=? n * 2 ^ Z.to_N (- k))%N
  then k
  else (k - 1)%Z.

(** [Math.ceil(n / d)] for doubles [n] and [d] that are whole, [d] not 0.
    The quotient is the double nearest to [n / d]: [m * 2 ^ e], where [m] is
    [n / (d * 2 ^ e)] rounded to nearest, ties to even, and [e] leaves [m]
    53 bits (and is -1074 at least).  [Math.ceil] then takes the least
    whole number that is not below that double. *)
Definition ceil_quotient (n d : N) : N :=
  if (n =? 0)%N then 0%N
  else
    let e := Z.max (log2_quotient n d - 52) (-1074) in
    if (0 <=? e)%Z
    then (nearest_even n (d * 2 ^ Z.to_N e) * 2 ^ Z.to_N e)%N
    else ceil_div (nearest_even (n * 2 ^ Z.to_N (- e)) d) (2 ^ Z.to_N (- e)).

(** [tokenTracker] *)
Record TokenTracker := {
  totalTokens : number;
  imageTokens : number;
  textTokens : number;
}.

Definition no_tokens : TokenTracker :=
  {| totalTokens := Int 0; imageTokens := Int 0; textTokens := Int 0 |}.

(** [width] and [height] are the sides of a canvas: whole numbers that a
    double holds.  Their product is a double, and so is its quotient by
    750. *)
Definition calculateImageTokens (width height : N) : number :=
  match double (width * height) with
  | Int pixels => Int (ceil_quotient pixels 750)
  | Inf => Inf
  end.

Definition addTokens (count : number) (type : string) (t : TokenTracker)
  : TokenTracker :=
  {| totalTokens := add (totalTokens t) count;
     imageTokens :=
       if (type =? "image")%string then add (imageTokens t) count
       else imageTokens t;
     textTokens :=
       if (type =? "image")%string then textTokens t
       else add (textTokens t) count |}.

(** The renderer reads its own [localStorage], with no [catch]. *)
Definition getCurrentModelType (w : World) : Outcome string :=
  match localStorage w "modelType" with
  | Returns item =>
      Returns (Js.toLowerCase (Js.or_else (default "" item) "gemini"))
  | Throws e => Throws e
  end.

(** A call of the renderer: the token counts are its own, the state is the
    one of the main process, where the handler it invokes runs. *)
Definition R (A : Type) : Type :=
  TokenTracker → Sys → Outcome A * TokenTracker * Sys.

Definition sendTextMessage (text : string) (w : World) : R IpcResult :=
  λ t s,
    if negb (Js.nonempty text) || (String.length (Js.trim text) =? 0)%nat
    then (Returns (IpcFailure "Empty message"), t, s)
    else
      match send_text_message (Js.VStr text) w s with
      | (Returns result, s') =>
          if success result
          then
            let estimatedTokens :=
              ceil_div (N.of_nat (String.length text)) 4 in
            (Returns result, addTokens (Int estimatedTokens) "text" t, s')
          else (Returns result, t, s')
      | (Throws e, s') => (Returns (IpcFailure e), t, s')
      end.

Definition sendAudioMessage (base64data : Js.value) (w : World)
  : M IpcResult :=
  if negb (Js.truthy base64data) || Js.length_lt base64data 100
  then ret (IpcFailure "Invalid audio data")
  else
    modelType ← settle (getCurrentModelType w);
    if (modelType =? "openrouter")%string
    then ret (IpcFailure "Audio not supported for OpenRouter.")
    else handler (send_audio_content base64data "audio/pcm;rate=24000" w).

Section Initialize.

Variable getSystemPrompt : string → string → bool → string.

(** [localStorage.getItem(key)?.trim()] *)
Definition trimmed_item (w : World) (key : string) : M (option string) :=
  item ← settle (localStorage w key);
  ret (Js.trim <$> item).

(** [localStorage.getItem(key) || ''] *)
Definition item_or_empty (w : World) (key : string) : M string :=
  item ← settle (localStorage w key);
  ret (Js.or_else (default "" item) "").

(** [success && success.success], with the status that is shown. *)
Definition report (name : string) (result : IpcResult) : string * bool :=
  if success result then ("Live (" +:+ name +:+ ")", true)
  else ("error (" +:+ name +:+ ")", false).

Definition initializeGemini (prof lang : string) (w : World)
  : M (string * bool) :=
  apiKey ← trimmed_item w "geminiApiKey";
  customPrompt ← item_or_empty w "geminiCustomPrompt";
  if Js.nonempty (default "" apiKey)
  then
    result ← initialize_model getSystemPrompt (Js.VStr (default "" apiKey))
               customPrompt prof lang w;
    ret (report "Gemini" result)
  else ret ("No Gemini API key", false).

Definition initializeOpenRouter (prof lang : string) (w : World)
  : M (string * bool) :=
  apiKey ← trimmed_item w "openRouterApiKey";
  mdl ← trimmed_item w "openRouterModel";
  customPrompt ← item_or_empty w "openRouterCustomPrompt";
  if Js.nonempty (default "" apiKey) && Js.nonempty (default "" mdl)
  then
    result ← initialize_model getSystemPrompt (Js.VStr (default "" apiKey))
               customPrompt prof lang w;
    ret (report "OpenRouter" result)
  else ret ("Missing OpenRouter credentials", false).

Definition initializeModel (prof lang : string) (w : World)
  : M (string * bool) :=
  modelType ← settle (getCurrentModelType w);
  if (modelType =? "openrouter")%string
  then initializeOpenRouter prof lang w
  else initializeGemini prof lang w.

End Initialize.

(** A sample of a [Float32Array]: a number, which is a fraction, or one of
    the three values that are none. *)
Inductive Float32 :=
| Finite (q : QArith_base.Q)
| Infinity
| NegInfinity
| NaN.

(** [Math.max(-1, Math.min(1, x))]; [None] is [NaN]. *)
Definition clamp (x : Float32) : option QArith_base.Q :=
  match x with
  | Finite q =>
      let least :=
        if QArith_base.Qle_bool q (QArith_base.inject_Z 1) then q
        else QArith_base.inject_Z 1 in
      Some (if QArith_base.Qle_bool (QArith_base.inject_Z (-1)) least
            then least
            else QArith_base.inject_Z (-1))
  | Infinity => Some (QArith_base.inject_Z 1)
  | NegInfinity => Some (QArith_base.inject_Z (-1))
  | NaN => None
  end.

(** What an [Int16Array] stores of a number within its range: the integer
    part. *)
Definition truncate (q : QArith_base.Q) : Z :=
  (QArith_base.Qnum q ÷ Zpos (QArith_base.Qden q))%Z.

(** [clampedValue < 0] *)
Definition negative (q : QArith_base.Q) : bool :=
  negb (QArith_base.Qle_bool (QArith_base.inject_Z 0) q).

(** One round of the loop.  Neither product rounds, a sample having 24
    significant bits; [NaN] is stored as 0. *)
Definition sample_to_int16 (x : Float32) : Z :=
  match clamp x with
  | Some clampedValue =>
      if negative clampedValue
      then truncate
             (QArith_base.Qmult clampedValue (QArith_base.inject_Z 32768))
      else truncate
             (QArith_base.Qmult clampedValue (QArith_base.inject_Z 32767))
  | None => 0%Z
  end.

Definition convertFloat32ToInt16 (float32Array : list Float32) : list Z :=
  sample_to_int16 <$> float32Array.

End Renderer.

(** A whole number is a number. *)
Coercion Renderer.Int : N >-> Renderer.number.

(** *** The Grok module kept with [unified-handlers.js]

    It has module variables of its own, under the names [openrouter.js]
    uses, and one session reference, which its handlers are set up with.
    [global.grokSessionRef] is written and never read: it is not part of
    the state. *)

Module Grok.

(** [lastSessionParams] *)
Record Params := {
  apiKey : string;
  customPrompt : string;
  profile : string;
  language : string;
}.

(** The bodies of the requests. *)
Inductive Body :=
| NewSession (model prompt language : string)
| Audio (audio mimeType : string)
| Text (text : string)
| Image (image mimeType : string).

Inductive Event :=
| RendererSend (channel : string) (data : Payload)
| AxiosPost (url : string) (body : Body) (authorization : string).

Record State := {
  currentSessionId : option string;
  currentTranscription : string;
  conversationHistory : list Turn;
  isInitializingSession : bool;
  reconnectionAttempts : nat;
  lastSessionParams : option Params;
  (* the [current] field of the reference of the handlers *)
  grokSessionRef : option string;
  windows : nat;
  clock : nat → N;
  clockReads : nat;
  trace : list Event;
}.

Definition set_currentSessionId (v : option string) (s : State) : State :=
  {| currentSessionId := v;
     currentTranscription := currentTranscription s;
     conversationHistory := conversationHistory s;
     isInitializingSession := isInitializingSession s;
     reconnectionAttempts := reconnectionAttempts s;
     lastSessionParams := lastSessionParams s;
     grokSessionRef := grokSessionRef s;
     windows := windows s; clock := clock s;
     clockReads := clockReads s; trace := trace s |}.

Definition set_currentTranscription (v : string) (s : State) : State :=
  {| currentSessionId := currentSessionId s;
     currentTranscription := v;
     conversationHistory := conversationHistory s;
     isInitializingSession := isInitializingSession s;
     reconnectionAttempts := reconnectionAttempts s;
     lastSessionParams := lastSessionParams s;
     grokSessionRef := grokSessionRef s;
     windows := windows s; clock := clock s;
     clockReads := clockReads s; trace := trace s |}.

Definition set_conversationHistory (v : list Turn) (s : State) : State :=
  {| currentSessionId := currentSessionId s;
     currentTranscription := currentTranscription s;
     conversationHistory := v;
     isInitializingSession := isInitializingSession s;
     reconnectionAttempts := reconnectionAttempts s;
     lastSessionParams := lastSessionParams s;
     grokSessionRef := grokSessionRef s;
     windows := windows s; clock := clock s;
     clockReads := clockReads s; trace := trace s |}.

Definition set_isInitializingSession (v : bool) (s : State) : State :=
  {| currentSessionId := currentSessionId s;
     currentTranscription := currentTranscription s;
     conversationHistory := conversationHistory s;
     isInitializingSession := v;
     reconnectionAttempts := reconnectionAttempts s;
     lastSessionParams := lastSessionParams s;
     grokSessionRef := grokSessionRef s;
     windows := windows s; clock := clock s;
     clockReads := clockReads s; trace := trace s |}.

Definition set_reconnectionAttempts (v : nat) (s : State) : State :=
  {| currentSessionId := currentSessionId s;
     currentTranscription := currentTranscription s;
     conversationHistory := conversationHistory s;
     isInitializingSession := isInitializingSession s;
     reconnectionAttempts := v;
     lastSessionParams := lastSessionParams s;
     grokSessionRef := grokSessionRef s;
     windows := windows s; clock := clock s;
     clockReads := clockReads s; trace := trace s |}.

Definition set_lastSessionParams (v : option Params) (s : State) : State :=
  {| currentSessionId := currentSessionId s;
     currentTranscription := currentTranscription s;
     conversationHistory := conversationHistory s;
     isInitializingSession := isInitializingSession s;
     reconnectionAttempts := reconnectionAttempts s;
     lastSessionParams := v;
     grokSessionRef := grokSessionRef s;
     windows := windows s; clock := clock s;
     clockReads := clockReads s; trace := trace s |}.

Definition set_grokSessionRef (v : option string) (s : State) : State :=
  {| currentSessionId := currentSessionId s;
     currentTranscription := currentTranscription s;
     conversationHistory := conversationHistory s;
     isInitializingSession := isInitializingSession s;
     reconnectionAttempts := reconnectionAttempts s;
     lastSessionParams := lastSessionParams s;
     grokSessionRef := v;
     windows := windows s; clock := clock s;
     clockReads := clockReads s; trace := trace s |}.

Definition set_clockReads (v : nat) (s : State) : State :=
  {| currentSessionId := currentSessionId s;
     currentTranscription := currentTranscription s;
     conversationHistory := conversationHistory s;
     isInitializingSession := isInitializingSession s;
     reconnectionAttempts := reconnectionAttempts s;
     lastSessionParams := lastSessionParams s;
     grokSessionRef := grokSessionRef s;
     windows := windows s; clock := clock s;
     clockReads := v; trace := trace s |}.

Definition set_trace (v : list Event) (s : State) : State :=
  {| currentSessionId := currentSessionId s;
     currentTranscription := currentTranscription s;
     conversationHistory := conversationHistory s;
     isInitializingSession := isInitializingSession s;
     reconnectionAttempts := reconnectionAttempts s;
     lastSessionParams := lastSessionParams s;
     grokSessionRef := grokSessionRef s;
     windows := windows s; clock := clock s;
     clockReads := clockReads s; trace := v |}.

(** Computations on the state of this module. *)
Definition G (A : Type) : Type := State → Outcome A * State.

Definition ret {A} (a : A) : G A := λ s, (Returns a, s).

Definition bind {A B} (m : G A) (k : A → G B) : G B := λ s,
  match m s with
  | (Returns a, s') => k a s'
  | (Throws e, s') => (Throws e, s')
  end.

Definition throw {A} (message : string) : G A := λ s, (Throws message, s).

Definition try_catch {A} (m : G A) (h : string → G A) : G A := λ s,
  match m s with
  | (Returns a, s') => (Returns a, s')
  | (Throws e, s') => h e s'
  end.

Definition gets {A} (f : State → A) : G A := λ s, (Returns (f s), s).
Definition modify (f : State → State) : G unit := λ s, (Returns tt, f s).
Definition when (b : bool) (m : G unit) : G unit := λ s,
  if b then m s else (Returns tt, s).
Definition settle {A} (o : Outcome A) : G A := λ s, (o, s).

Definition emit (e : Event) : G unit :=
  modify (λ s, set_trace (trace s ++ [e]) s).

Definition Date_now : G N := λ s,
  (Returns (clock s (clockReads s)), set_clockReads (S (clockReads s)) s).

Definition sendToRenderer (channel : string) (data : Payload) : G unit :=
  bind (gets windows) (λ n,
  when (0 <? n)%nat (emit (RendererSend channel data))).

Definition initializeNewSession : G unit :=
  bind Date_now (λ t,
  bind (modify (set_currentSessionId (Some (toString t)))) (λ _,
  bind (modify (set_currentTranscription "")) (λ _,
  modify (set_conversationHistory [])))).

(** What the request for a session settles to: a response with the
    [sessionId] of its body, if the body has one, or a failure (a response
    without a body fails on the reading of [response.data.sessionId]). *)
Inductive SessionsOutcome :=
| SessionsOk (sessionId : option string)
| SessionsErr.

(** What [initializeGrokSession] returns: [false], the [sessionId] of the
    response, or [null]. *)
Inductive InitResult :=
| Busy
| Session (sessionId : option string)
| Failed.

Definition sessions_url : string := "https://api.grok.com/v1/sessions".

Section Initialize.

Variable getSystemPrompt : string → string → bool → string.

(** [initializeGrokSession] up to its [await]; [false] when it is turned
    away. *)
Definition initialize_request
    (key custom prof lang : string) (isReconnection : bool) : G bool :=
  bind (gets isInitializingSession) (λ busy,
  if (busy : bool) then ret false
  else
    bind (modify (set_isInitializingSession true)) (λ _,
    bind (sendToRenderer "session-initializing" (PBool true)) (λ _,
    bind (when (negb isReconnection)
            (bind (modify (set_lastSessionParams
                             (Some {| apiKey := key; customPrompt := custom;
                                      profile := prof; language := lang |})))
               (λ _, modify (set_reconnectionAttempts 0)))) (λ _,
    let systemPrompt := getSystemPrompt prof custom true in
    bind (emit (AxiosPost sessions_url
                  (NewSession "grok-live" systemPrompt lang)
                  ("Bearer " +:+ key))) (λ _,
    ret true))))).

End Initialize.

(** [initializeGrokSession] from its [await] on. *)
Definition initialize_response (isReconnection : bool) (r : SessionsOutcome)
  : G InitResult :=
  match r with
  | SessionsOk sessionId =>
      bind (modify (set_isInitializingSession false)) (λ _,
      bind (sendToRenderer "session-initializing" (PBool false)) (λ _,
      bind (sendToRenderer "update-status" (PText "Live session connected"))
        (λ _,
      bind (when (negb isReconnection) initializeNewSession) (λ _,
      ret (Session sessionId)))))
  | SessionsErr =>
      bind (modify (set_isInitializingSession false)) (λ _,
      bind (sendToRenderer "session-initializing" (PBool false)) (λ _,
      ret Failed))
  end.

(** An initialisation no other call interrupts. *)
Definition initializeGrokSession
    (getSystemPrompt : string → string → bool → string)
    (key custom prof lang : string) (isReconnection : bool)
    (r : SessionsOutcome) : G InitResult :=
  bind (initialize_request getSystemPrompt key custom prof lang
          isReconnection) (λ entered,
  if (entered : bool) then initialize_response isReconnection r
  else ret Busy).

(** [!grokSessionRef.current] *)
Definition no_session (current : option string) : bool :=
  match current with
  | None => true
  | Some id => negb (Js.nonempty id)
  end.

(** The requests of the three senders share their shape: the address ends
    in the kind of the content, and the key is the one of
    [lastSessionParams], the reading of which fails when there are none.
    Whatever is thrown is caught and logged. *)
Definition post (kind : string) (body : Body) (current : option string)
    (r : Outcome unit) : G unit :=
  bind (gets lastSessionParams) (λ params,
  match params with
  | Some p =>
      bind (emit (AxiosPost
                    (sessions_url +:+ "/" +:+ default "" current +:+ "/"
                     +:+ kind)
                    body ("Bearer " +:+ apiKey p))) (λ _,
      settle r)
  | None => throw "Cannot read properties of null (reading 'apiKey')"
  end).

Definition sendAudioToGrok (base64Data : string) (current : option string)
    (r : Outcome unit) : G unit :=
  if no_session current then ret tt
  else
    try_catch
      (post "audio" (Audio base64Data "audio/pcm;rate=24000") current r)
      (λ _, ret tt).

(** [text.trim()] fails on what is no string. *)
Definition sendTextToGrok (text : Js.value) (current : option string)
    (r : Outcome unit) : G unit :=
  if no_session current then ret tt
  else
    try_catch
      (if Js.is_string text
       then post "text" (Text (Js.trim (Js.str text))) current r
       else throw "text.trim is not a function")
      (λ _, ret tt).

Definition sendImageToGrok (base64Data : string) (current : option string)
    (r : Outcome unit) : G unit :=
  if no_session current then ret tt
  else
    try_catch
      (post "image" (Image base64Data "image/jpeg") current r)
      (λ _, ret tt).

(** The handlers [setupGrokIpcHandlers] registers.  [initialize-grok]
    answers [true] or [false]. *)
Definition initialize_grok
    (getSystemPrompt : string → string → bool → string)
    (key custom prof lang : string) (r : SessionsOutcome) : G bool :=
  bind (initializeGrokSession getSystemPrompt key custom prof lang false r)
    (λ result,
  match result with
  | Session (Some sessionId) =>
      if Js.nonempty sessionId
      then bind (modify (set_grokSessionRef (Some sessionId)))
             (λ _, ret true)
      else ret false
  | _ => ret false
  end).

Definition no_grok_session : string := "No active Grok session".

Definition guarded (send : option string → G unit) : G IpcResult :=
  bind (gets grokSessionRef) (λ current,
  if no_session current then ret (IpcFailure no_grok_session)
  else
    try_catch
      (bind (send current) (λ _, ret (IpcSuccess NoData)))
      (λ e, ret (IpcFailure e))).

Definition send_audio_content (data : string) (r : Outcome unit)
  : G IpcResult :=
  guarded (λ current, sendAudioToGrok data current r).

Definition send_image_content (data : string) (r : Outcome unit)
  : G IpcResult :=
  guarded (λ current, sendImageToGrok data current r).

Definition send_text_message (text : Js.value) (r : Outcome unit)
  : G IpcResult :=
  guarded (λ current, sendTextToGrok text current r).

End Grok.

(** *** What is said of the routing *)

(** The request a text send hands to the HTTP client for a session. *)
Definition text_request (obj : SessionObj) (text : string) : Event :=
  AxiosPost completions_url (model obj)
    (text_messages (systemPrompt obj) text)
    ("Bearer " +:+ apiKey obj) (Some 30000%N).

Definition image_request (obj : SessionObj) (data : string) : Event :=
  AxiosPost completions_url (model obj)
    (image_messages (systemPrompt obj) data)
    ("Bearer " +:+ apiKey obj) (Some 45000%N).

(** The state after an effect. *)
Definition after_effect (e : Event) (s : Sys) : Sys :=
  set_trace (trace s ++ [e]) s.

(** What the OpenRouter adapter and its slot are made of. *)
Definition openrouter_part (s : Sys) :=
  (heap s, openRouterSessionRef s,
   (currentSessionId s, currentTranscription s, conversationHistory s),
   (isInitializingSession s, reconnectionAttempts s, lastSessionParams s)).

Definition is_gemini_call (e : Event) : bool :=
  match e with
  | GeminiInitialize _ _ _ _ | GeminiSendRealtimeInput _ _ | GeminiClose _
  | GeminiNewSession => true
  | RendererSend _ _ | AxiosPost _ _ _ _ _ => false
  end.

Definition is_openrouter_call (e : Event) : bool :=
  match e with
  | AxiosPost _ _ _ _ _ => true
  | _ => false
  end.

(** The effects so far are still there afterwards, and the new ones are of
    the given kind. *)
Definition adds_only (kind : Event → bool) : relation Sys := λ s s',
  ∃ rest, trace s' = trace s ++ rest ∧ Forall (λ e, kind e = true) rest.

(** Two things said of the state after a computation. *)
Definition both (R1 R2 : relation Sys) : relation Sys := λ s s',
  R1 s s' ∧ R2 s s'.

(** The world of the handlers that read the provider before they do
    anything to a session. *)
Definition routed (c : Call) : option World :=
  match c with
  | InitializeModel _ _ _ _ w | SendTextMessage _ w | SendImageContent _ w
  | SendAudioContent _ _ w | GetCurrentSession w | StartNewSession w
  | RendererSendImage _ w => Some w
  | _ => None
  end.

(** The OpenRouter slot holds no session that was closed. *)
Definition slot_live (s : Sys) : Prop :=
  ∀ l, openRouterSessionRef s = Some l →
       ∃ obj, heap s !! l = Some obj ∧ active obj = true.

(** A run to tell of: a session is initialised and a text is sent and
    answered. *)
Definition demo_world : World :=
  world_of (Some "openrouter") (AxiosOk (Some "hi")).

Definition started_session : Sys :=
  perform demo_prompt demo_base64ByteLength
    (InitializeModel (Js.VStr "sk-key") "" "interview" "en-US" demo_world)
    (initial 1 (ticking 1700000000000)).

Definition answered_session : Sys :=
  perform demo_prompt demo_base64ByteLength
    (SendTextMessage (Js.VStr "hello") demo_world) started_session.

(** * Properties *)

(** ** Stereo to mono *)

Module BufferFacts.
Import Buffer.

Lemma byte_Z_range b : (0 ≤ byte_Z b < 256)%Z.
Proof.
  unfold byte_Z. pose proof (Byte.to_N_bounded b). lia.
Qed.

(** A byte array gives back the low byte it was handed. *)
Lemma Z_byte_low b k : Z_byte (byte_Z b + k * 256) = b.
Proof.
  unfold Z_byte. rewrite Z.mod_add by lia.
  rewrite Z.mod_small by apply byte_Z_range.
  unfold byte_Z. rewrite N2Z.id, Byte.of_to_N. reflexivity.
Qed.

Lemma int16_range lo hi :
  (-32768 ≤ int16 (byte_Z lo + byte_Z hi * 2 ^ 8) ≤ 32767)%Z.
Proof.
  pose proof (byte_Z_range lo). pose proof (byte_Z_range hi).
  unfold int16. case_match; lia.
Qed.

Lemma int16_low lo hi :
  Z_byte (int16 (byte_Z lo + byte_Z hi * 2 ^ 8)) = lo.
Proof.
  unfold int16. case_match.
  - replace (byte_Z lo + byte_Z hi * 2 ^ 8 - 65536)%Z
      with (byte_Z lo + (byte_Z hi - 256) * 256)%Z by lia.
    apply Z_byte_low.
  - replace (byte_Z lo + byte_Z hi * 2 ^ 8)%Z
      with (byte_Z lo + byte_Z hi * 256)%Z by lia.
    apply Z_byte_low.
Qed.

Lemma int16_high lo hi :
  Z_byte (int16 (byte_Z lo + byte_Z hi * 2 ^ 8) / 2 ^ 8) = hi.
Proof.
  pose proof (byte_Z_range lo). pose proof (byte_Z_range hi).
  unfold int16. case_match.
  - replace (byte_Z lo + byte_Z hi * 2 ^ 8 - 65536)%Z
      with (byte_Z lo + (byte_Z hi - 256) * 2 ^ 8)%Z by lia.
    rewrite Z.div_add by lia. rewrite Z.div_small by lia.
    replace (0 + (byte_Z hi - 256))%Z with (byte_Z hi + (-1) * 256)%Z by lia.
    apply Z_byte_low.
  - rewrite Z.div_add by lia. rewrite Z.div_small by lia.
    replace (0 + byte_Z hi)%Z with (byte_Z hi + 0 * 256)%Z by lia.
    apply Z_byte_low.
Qed.

(** Reading depends on the two bytes at the offset only. *)
Lemma readInt16LE_ext (a b : list Byte.byte) i j :
  a !! i = b !! j → a !! (i + 1) = b !! (j + 1) →
  readInt16LE a i = readInt16LE b j.
Proof. unfold readInt16LE. intros -> ->. reflexivity. Qed.

(** Within bounds, a sample that was read is written back as the two
    bytes it was read from. *)
Lemma write_read (stereo mono : list Byte.byte) i j lo hi :
  stereo !! i = Some lo → stereo !! (i + 1) = Some hi →
  j + 1 < length mono →
  readInt16LE stereo i ≫= (λ v, writeInt16LE v j mono)
  = Some (<[j + 1 := hi]> (<[j := lo]> mono)).
Proof.
  intros Hlo Hhi Hj. unfold readInt16LE. rewrite Hlo, Hhi. simpl.
  unfold writeInt16LE.
  pose proof (int16_range lo hi) as [? ?].
  rewrite (proj2 (Z.leb_le _ _)), (proj2 (Z.leb_le _ _)) by assumption.
  rewrite (proj2 (Nat.ltb_lt _ _)) by assumption. simpl.
  rewrite int16_low, int16_high. reflexivity.
Qed.

(** The loop, [n] frames from frame [i] on: it ends, it keeps the length
    of the output, it leaves the bytes of the other frames alone, and the
    two bytes of each frame it handles are the first two of the stereo
    frame. *)
Lemma mono_loop_spec (stereo : list Byte.byte) n :
  ∀ i (mono : list Byte.byte),
  (i + n) * 4 ≤ length stereo → (i + n) * 2 ≤ length mono →
  ∃ mono',
    mono_loop stereo n i mono = Some mono'
    ∧ length mono' = length mono
    ∧ (∀ k, k < i * 2 → mono' !! k = mono !! k)
    ∧ (∀ j, i ≤ j < i + n →
         mono' !! (j * 2) = stereo !! (j * 4)
         ∧ mono' !! (j * 2 + 1) = stereo !! (j * 4 + 1)).
Proof.
  induction n as [|n IH]; intros i mono Hs Hm.
  - exists mono. repeat split; intros; lia.
  - destruct (lookup_lt_is_Some_2 stereo (i * 4)) as [lo Hlo]; [lia|].
    destruct (lookup_lt_is_Some_2 stereo (i * 4 + 1)) as [hi Hhi]; [lia|].
    pose proof (write_read stereo mono (i * 4) (i * 2) lo hi Hlo Hhi) as Hw.
    specialize (Hw ltac:(lia)).
    set (mono1 := <[i * 2 + 1 := hi]> (<[i * 2 := lo]> mono)) in *.
    assert (length mono1 = length mono) as Hlen
      by (unfold mono1; rewrite !length_insert; reflexivity).
    destruct (IH (S i) mono1) as (mono' & Hrun & Hlen' & Hkeep & Hdone);
      [lia | lia |].
    exists mono'. split; [|split; [|split]].
    + simpl. destruct (readInt16LE stereo (i * 4)) as [v|]; [|discriminate].
      simpl in Hw |- *. rewrite Hw. simpl. exact Hrun.
    + lia.
    + intros k Hk. rewrite Hkeep by lia. unfold mono1.
      rewrite !list_lookup_insert_ne by lia. reflexivity.
    + intros j Hj. destruct (decide (j = i)) as [->|Hne].
      * rewrite !Hkeep by lia. unfold mono1. split.
        -- rewrite list_lookup_insert_ne by lia.
           rewrite list_lookup_insert_eq by lia. congruence.
        -- rewrite list_lookup_insert_eq
             by (rewrite length_insert; lia). congruence.
      * apply Hdone. lia.
Qed.

End BufferFacts.

(** ** Running the model *)

(** Names the components of a state, with the two cases of no window and
    of some window, so that a call on it can be computed. *)
Ltac exec s :=
  destruct s as [? ? ? ? ? ? ? ? ? [|?] ? ? ?]; simpl in *; subst.

(** Computes a call on a state whose components are named; what is done
    to strings that are not known stays as it is written. *)
Ltac evaluate := lazy -[Js.trim Js.toLowerCase toString].

Example one_session_heap :
  heap one_session
  = [ {| apiKey := "sk-key"; model := "m1"; systemPrompt := "interview: ";
         profile := "interview"; language := "en-US"; active := true |} ]
  ∧ currentSessionId one_session = Some "1700000000000"
  ∧ conversationHistory one_session = [].
Proof. vm_compute. repeat split. Qed.

Example provider_lowercased :
  provider (world_of (Some "OpenRouter") (AxiosOk None)) one_session
  = Returns "openrouter".
Proof. vm_compute. reflexivity. Qed.

Example provider_default :
  provider (world_of None (AxiosOk None)) one_session = Returns "gemini".
Proof. vm_compute. reflexivity. Qed.

(** Reading the provider changes nothing. *)
Lemma getCurrentModelType_pure w s :
  ∃ modelType, getCurrentModelType w s = (Returns modelType, s).
Proof.
  exec s.
  - eexists. reflexivity.
  - unfold getCurrentModelType, try_catch, settle, storage_item, gets, ret,
      mbind, M_bind. simpl.
    destruct (executeJavaScript_rejects w); [eauto|].
    destruct (localStorage w "modelType") as [[v|]|]; eauto.
Qed.

Lemma provider_run w s modelType :
  provider w s = Returns modelType →
  getCurrentModelType w s = (Returns modelType, s).
Proof.
  unfold provider, outcome_of.
  destruct (getCurrentModelType_pure w s) as [m ->]. simpl. congruence.
Qed.

(** ** C10: stereo to mono *)

(** C10. For a stereo buffer whose length is a multiple of 4,
    [convertStereoToMono] returns a buffer of half the length, whose [i]-th
    little-endian 16-bit sample is the left (first) 16-bit sample of the
    [i]-th 4-byte frame of the input, for every frame [i]. *)
Theorem convertStereoToMono_left_channel (stereoBuffer : list Byte.byte) :
  length stereoBuffer `mod` 4 = 0 →
  ∃ monoBuffer,
    Buffer.convertStereoToMono stereoBuffer = Some monoBuffer
    ∧ length monoBuffer = length stereoBuffer / 2
    ∧ ∀ i, i < length stereoBuffer / 4 →
        is_Some (Buffer.readInt16LE stereoBuffer (i * 4))
        ∧ Buffer.readInt16LE monoBuffer (i * 2)
          = Buffer.readInt16LE stereoBuffer (i * 4).
Proof.
  intros Hlen. unfold Buffer.convertStereoToMono.
  set (len := length stereoBuffer) in *.
  assert (∃ q, len = q * 4) as [q Hq].
  { exists (len / 4). pose proof (Nat.div_mod_eq len 4). lia. }
  assert ((len + 3) / 4 = q) as ->
    by (rewrite Hq; symmetry; apply Nat.div_unique with 3; lia).
  assert (len / 2 = q * 2) as Hhalf
    by (rewrite Hq; symmetry; apply Nat.div_unique with 0; lia).
  assert (len / 4 = q) as ->
    by (rewrite Hq; symmetry; apply Nat.div_unique with 0; lia).
  rewrite Hhalf.
  destruct (BufferFacts.mono_loop_spec stereoBuffer q 0
              (Buffer.alloc (q * 2)))
    as (mono & Hrun & Hl & _ & Hframes).
  { fold len. lia. }
  { unfold Buffer.alloc. rewrite length_replicate. lia. }
  exists mono. split; [exact Hrun|]. split.
  { rewrite Hl. unfold Buffer.alloc. apply length_replicate. }
  intros i Hi. destruct (Hframes i ltac:(lia)) as [H0 H1]. split.
  - unfold Buffer.readInt16LE.
    destruct (lookup_lt_is_Some_2 stereoBuffer (i * 4)) as [lo ->];
      [fold len; lia|].
    destruct (lookup_lt_is_Some_2 stereoBuffer (i * 4 + 1)) as [hi ->];
      [fold len; lia|].
    simpl. eauto.
  - apply BufferFacts.readInt16LE_ext; assumption.
Qed.

Lemma convertStereoToMono_left_channel_witness :
  ∃ monoBuffer,
    Buffer.convertStereoToMono
      [Byte.x01; Byte.xff; Byte.x02; Byte.x03;
       Byte.x04; Byte.x05; Byte.x06; Byte.x07] = Some monoBuffer
    ∧ length monoBuffer = 8 / 2
    ∧ ∀ i, i < 8 / 4 →
        is_Some (Buffer.readInt16LE
                   [Byte.x01; Byte.xff; Byte.x02; Byte.x03;
                    Byte.x04; Byte.x05; Byte.x06; Byte.x07] (i * 4))
        ∧ Buffer.readInt16LE monoBuffer (i * 2)
          = Buffer.readInt16LE
              [Byte.x01; Byte.xff; Byte.x02; Byte.x03;
               Byte.x04; Byte.x05; Byte.x06; Byte.x07] (i * 4).
Proof.
  apply (convertStereoToMono_left_channel
           [Byte.x01; Byte.xff; Byte.x02; Byte.x03;
            Byte.x04; Byte.x05; Byte.x06; Byte.x07]).
  reflexivity.
Defined.

(** The left sample of the first frame above is [0xff01] read as a signed
    number, and a buffer that ends inside a frame makes the loop fail. *)
Example convertStereoToMono_run :
  Buffer.convertStereoToMono
    [Byte.x01; Byte.xff; Byte.x02; Byte.x03;
     Byte.x04; Byte.x05; Byte.x06; Byte.x07]
  = Some [Byte.x01; Byte.xff; Byte.x04; Byte.x05]
  ∧ Buffer.readInt16LE [Byte.x01; Byte.xff; Byte.x04; Byte.x05] 0
    = Some (-255)%Z
  ∧ Buffer.convertStereoToMono
      [Byte.x01; Byte.xff; Byte.x02; Byte.x03; Byte.x04; Byte.x05] = None.
Proof. repeat split. Qed.

(** ** C4 and C5: initialising a session *)

(** C4. A call of [initializeOpenRouterSession] with [isReconnection] set
    leaves [lastSessionParams], [reconnectionAttempts], [currentSessionId]
    and [conversationHistory] as they are; a call without it that is let in
    stores its parameters, sets the attempts to 0 and starts a new, empty
    log under a fresh id (and one that is turned away changes nothing). *)
Theorem reconnection_keeps_log_and_params
    (getSystemPrompt : string → string → bool → string)
    (key mdl customPrompt prof lang : string) (s : Sys) :
  let reconnect :=
    state_after (initializeOpenRouterSession getSystemPrompt key mdl
                   customPrompt prof lang true) s in
  let fresh :=
    state_after (initializeOpenRouterSession getSystemPrompt key mdl
                   customPrompt prof lang false) s in
  (lastSessionParams reconnect = lastSessionParams s
   ∧ reconnectionAttempts reconnect = reconnectionAttempts s
   ∧ currentSessionId reconnect = currentSessionId s
   ∧ conversationHistory reconnect = conversationHistory s)
  ∧ (if isInitializingSession s
     then fresh = s
     else
       lastSessionParams fresh
       = Some {| p_apiKey := key; p_model := mdl;
                 p_customPrompt := customPrompt; p_profile := prof;
                 p_language := lang |}
       ∧ reconnectionAttempts fresh = 0
       ∧ currentSessionId fresh = Some (toString (clock s (clockReads s)))
       ∧ conversationHistory fresh = []).
Proof.
  exec s;
    match goal with b : bool |- _ => destruct b end;
    vm_compute; repeat split.
Qed.

(** C5. While an initialisation is in flight ([isInitializingSession] is
    up), a call of [initializeOpenRouterSession] is turned away at once: it
    answers [false] and the state, the trace of effects included, is the
    one it found. *)
Theorem initialize_while_busy_is_rejected
    (getSystemPrompt : string → string → bool → string)
    (key mdl customPrompt prof lang : string) (isReconnection : bool)
    (s : Sys) :
  isInitializingSession s = true →
  initializeOpenRouterSession getSystemPrompt key mdl customPrompt prof lang
    isReconnection s
  = (Returns None, s).
Proof. intros Hbusy. exec s; reflexivity. Qed.

Lemma initialize_while_busy_is_rejected_witness :
  initializeOpenRouterSession demo_prompt "sk-key" "m2" "" "interview"
    "en-US" false (set_isInitializingSession true one_session)
  = (Returns None, set_isInitializingSession true one_session).
Proof.
  apply (initialize_while_busy_is_rejected demo_prompt "sk-key" "m2" ""
           "interview" "en-US" false
           (set_isInitializingSession true one_session)).
  reflexivity.
Defined.

(** A call that is let in lowers the flag again before it returns, and
    returns a session that is active. *)
Lemma initialize_returns_active_session
    (getSystemPrompt : string → string → bool → string)
    (key mdl customPrompt prof lang : string) (isReconnection : bool)
    (s : Sys) :
  isInitializingSession s = false →
  let r := initializeOpenRouterSession getSystemPrompt key mdl customPrompt
             prof lang isReconnection s in
  r.1 = Returns (Some (length (heap s)))
  ∧ isInitializingSession r.2 = false
  ∧ heap r.2
    = heap s ++ [ {| apiKey := key; model := mdl;
                     systemPrompt := getSystemPrompt prof customPrompt true;
                     profile := prof; language := lang; active := true |} ].
Proof.
  intros Hfree. exec s; destruct isReconnection; vm_compute; repeat split.
Qed.

(** ** C8: credentials *)

(** Nothing but white space trims to the empty string. *)
Lemma trimStart_whitespace s :
  (∀ a, a ∈ Stdlib.Strings.String.list_ascii_of_string s →
        Js.is_whitespace a = true) →
  Js.trimStart s = "".
Proof.
  induction s as [|a s IH]; simpl; intros Hall; [done|].
  rewrite (Hall a) by left. apply IH. intros b Hb. apply Hall. by right.
Qed.

Lemma trim_whitespace s :
  (∀ a, a ∈ Stdlib.Strings.String.list_ascii_of_string s →
        Js.is_whitespace a = true) →
  Js.trim s = "".
Proof.
  intros Hall. unfold Js.trim. rewrite trimStart_whitespace by done. done.
Qed.

(** C8. Whatever the provider, [initialize-model] with an API key that is
    missing, not a string, or blank (empty once trimmed) answers
    [{success: false}] and leaves the state as it found it: no adapter is
    initialised and nothing is sent. *)
Theorem initialize_model_rejects_blank_key
    (getSystemPrompt : string → string → bool → string)
    (apiKey : Js.value) (customPrompt prof lang : string) (w : World)
    (s : Sys) :
  apiKey = Js.VUndefined ∨ apiKey = Js.VNull ∨ Js.is_string apiKey = false
  ∨ (∃ key, apiKey = Js.VStr key ∧ Js.trim key = "") →
  ∃ error,
    initialize_model getSystemPrompt apiKey customPrompt prof lang w s
    = (Returns (IpcFailure error), s).
Proof.
  intros Hkey. exists "Invalid API key provided".
  assert (negb (Js.truthy apiKey) || negb (Js.is_string apiKey)
          || (String.length (Js.trim (Js.str apiKey)) =? 0) = true) as Hbad.
  { destruct Hkey as [->| [->| [Hns | (key & -> & Hblank)]]];
      try reflexivity.
    - rewrite Hns. simpl. by rewrite orb_true_r.
    - simpl. rewrite Hblank. by rewrite orb_true_r. }
  unfold initialize_model, handler, try_catch. rewrite Hbad. reflexivity.
Qed.

Lemma initialize_model_rejects_blank_key_witness :
  ∃ error,
    initialize_model demo_prompt (Js.VStr "   ") "" "interview" "en-US"
      (world_of (Some "openrouter") (AxiosOk None))
      (initial 1 (ticking 1700000000000))
    = (Returns (IpcFailure error), initial 1 (ticking 1700000000000)).
Proof.
  apply (initialize_model_rejects_blank_key demo_prompt (Js.VStr "   ") ""
           "interview" "en-US" (world_of (Some "openrouter") (AxiosOk None))
           (initial 1 (ticking 1700000000000))).
  right. right. right. exists "   ". split; reflexivity.
Defined.

(** ** C7: audio and OpenRouter *)

(** C7. While the provider is openrouter, [send-audio-content] answers
    [{success: false}] with a message that names OpenRouter and leaves the
    state as it found it, whatever the payload and whether or not a session
    is active: the adapter is not called and nothing is sent. *)
Theorem send_audio_unsupported_for_openrouter
    (data : Js.value) (mimeType : string) (w : World) (s : Sys) :
  provider w s = Returns "openrouter" →
  send_audio_content data mimeType w s
  = (Returns (IpcFailure "Audio input not supported with OpenRouter model."),
     s).
Proof.
  intros Hp. apply provider_run in Hp.
  unfold send_audio_content, handler, try_catch, mbind, M_bind.
  rewrite Hp. reflexivity.
Qed.

Lemma send_audio_unsupported_for_openrouter_witness :
  send_audio_content (Js.VStr "AAAA") "audio/pcm;rate=24000"
    (world_of (Some "OpenRouter") (AxiosOk None)) one_session
  = (Returns (IpcFailure "Audio input not supported with OpenRouter model."),
     one_session).
Proof.
  apply (send_audio_unsupported_for_openrouter (Js.VStr "AAAA")
           "audio/pcm;rate=24000"
           (world_of (Some "OpenRouter") (AxiosOk None)) one_session).
  reflexivity.
Defined.

(** The adapter's own audio entry fails as well, before any request. *)
Lemma sendAudioToOpenRouter_throws base64Data session s :
  outcome_of (sendAudioToOpenRouter base64Data session) s
  = Throws "Audio input not supported in OpenRouter (yet)"
  ∧ backend_calls
      (trace (state_after (sendAudioToOpenRouter base64Data session) s))
    = backend_calls (trace s).
Proof.
  exec s; split; try reflexivity.
  unfold state_after, sendAudioToOpenRouter, sendToRenderer, when, emit,
    modify, gets, throw, mbind, M_bind; simpl.
  unfold backend_calls. rewrite filter_app.
  rewrite filter_cons_False by (simpl; discriminate).
  rewrite filter_nil. apply app_nil_r.
Qed.

(** ** What a computation leaves alone *)

Section Preserves.

(** [R s s'] for every state [s] and the state [s'] the computation ends
    in, whether it returns or throws. *)
Context (R : relation Sys) `{!PreOrder R}.

Lemma preserves_ret {A} (a : A) : preserves R (ret a).
Proof. intros s. reflexivity. Qed.

Lemma preserves_throw {A} e : preserves R (@throw A e).
Proof. intros s. reflexivity. Qed.

Lemma preserves_gets {A} (f : Sys → A) : preserves R (gets f).
Proof. intros s. reflexivity. Qed.

Lemma preserves_settle {A} (o : Outcome A) : preserves R (settle o).
Proof. intros s. reflexivity. Qed.

Lemma preserves_modify g : (∀ s, R s (g s)) → preserves R (modify g).
Proof. intros Hg s. apply Hg. Qed.

Lemma preserves_bind {A B} (m : M A) (k : A → M B) :
  preserves R m → (∀ a, preserves R (k a)) → preserves R (m ≫= k).
Proof.
  intros Hm Hk s. unfold mbind, M_bind.
  specialize (Hm s). destruct (m s) as [[a|e] s1]; simpl in *.
  - etransitivity; [exact Hm | apply Hk].
  - exact Hm.
Qed.

Lemma preserves_try_catch {A} (m : M A) (h : string → M A) :
  preserves R m → (∀ e, preserves R (h e)) → preserves R (try_catch m h).
Proof.
  intros Hm Hh s. unfold try_catch.
  specialize (Hm s). destruct (m s) as [[a|e] s1]; simpl in *.
  - exact Hm.
  - etransitivity; [exact Hm | apply Hh].
Qed.

Lemma preserves_when b (m : M unit) : preserves R m → preserves R (when b m).
Proof. intros Hm s. unfold when. destruct b; [apply Hm | reflexivity]. Qed.

End Preserves.

Global Instance fixes_preorder {B} (f : Sys → B) : PreOrder (fixes f).
Proof.
  split; unfold fixes.
  - intros s. reflexivity.
  - intros s1 s2 s3 H12 H23. congruence.
Qed.

Global Instance holds_preorder (P : Sys → Prop) : PreOrder (holds P).
Proof.
  split; unfold holds.
  - intros s. tauto.
  - intros s1 s2 s3 H12 H23. tauto.
Qed.

Global Instance extends_trace_preorder : PreOrder extends_trace.
Proof.
  split; unfold extends_trace.
  - intros s. exists []. by rewrite app_nil_r.
  - intros s1 s2 s3 [r1 H1] [r2 H2]. exists (r1 ++ r2).
    by rewrite H2, H1, app_assoc.
Qed.

(** The calls that are made of other calls; the state is read and written
    by [gets], [modify], [Date_now] and [alloc] only. *)
Create HintDb ops discriminated.

#[global] Hint Unfold
  emit handler
  sendToRenderer getCurrentSessionData
  sendText_request sendText_response sendTextToOpenRouter
  sendImage_request sendImage_response sendImageToOpenRouter
  sendAudioToOpenRouter getCurrentModelType geminiSend
  initialize_model send_text_message send_image_content send_audio_content
  close_gemini close_openrouter close_session get_current_session
  start_new_session sendImageMessage cleanupAllSessions
  OpenRouterIpc.initialize_session OpenRouterIpc.send_text_message
  OpenRouterIpc.send_image_content OpenRouterIpc.send_audio_content
  OpenRouterIpc.close_session OpenRouterIpc.get_current_session
  OpenRouterIpc.start_new_session : ops.

(** Walks through a computation: [leaf] settles the calls and the writes it
    knows, [expand] opens the calls that are left. *)
Ltac preserve_with leaf expand :=
  repeat first
    [ solve [leaf]
    | apply preserves_ret; apply _
    | apply preserves_throw; apply _
    | apply preserves_gets; apply _
    | apply preserves_settle; apply _
    | apply preserves_when; [apply _ |]
    | apply preserves_bind; [apply _ | | intros ?]
    | apply preserves_try_catch; [apply _ | | intros ?]
    | match goal with
      | |- preserves _ (match ?x with _ => _ end) => destruct x
      end
    | progress expand
    | progress cbv zeta ].

(** For a component that the setters met do not write. *)
Ltac untouched :=
  first [ apply preserves_modify; intros ?; reflexivity
        | intros ?; reflexivity ].

(** Opens every call. *)
Ltac open_calls :=
  autounfold with ops;
  unfold initializeOpenRouterSession, initializeNewSession,
    saveConversationTurn.

Ltac frame := preserve_with untouched open_calls.

(** For the trace: an effect is added at its end, or nothing is. *)
Ltac trace_leaf :=
  first [ apply preserves_modify; intros ?; eexists; reflexivity
        | apply preserves_modify; intros ?; exists []; symmetry;
          apply app_nil_r
        | intros ?; exists []; symmetry; apply app_nil_r ].

(** Sending replies and recording turns never touches the session objects
    or the references to them. *)
Lemma sendText_response_heap text r :
  preserves (fixes heap) (sendText_response text r).
Proof. frame. Qed.

Lemma sendText_response_ref text r :
  preserves (fixes openRouterSessionRef) (sendText_response text r).
Proof. frame. Qed.

Lemma sendImage_response_heap r :
  preserves (fixes heap) (sendImage_response r).
Proof. frame. Qed.

Lemma sendImage_response_ref r :
  preserves (fixes openRouterSessionRef) (sendImage_response r).
Proof. frame. Qed.

(** ** C6: starting a new session *)

(** Two readings of the clock have the same digits only if they are the
    same reading. *)
Lemma toString_inj t1 t2 : toString t1 = toString t2 → t1 = t2.
Proof.
  unfold toString. intros Hs.
  apply (f_equal NilEmpty.uint_of_string) in Hs.
  rewrite !NilEmpty.usu in Hs. injection Hs as Hu.
  by apply DecimalN.Unsigned.to_uint_inj.
Qed.

(** What [start-new-session] does under the openrouter provider. *)
Lemma start_new_session_run w s :
  provider w s = Returns "openrouter" →
  start_new_session w s
  = (Returns (IpcSuccess (SessionId (toString (clock s (S (clockReads s)))))),
     set_clockReads (S (S (clockReads s)))
       (set_conversationHistory []
          (set_currentTranscription ""
             (set_currentSessionId
                (Some (toString (clock s (clockReads s)))) s)))).
Proof.
  intros Hp. apply provider_run in Hp.
  unfold start_new_session, handler, try_catch, mbind, M_bind.
  rewrite Hp. exec s; reflexivity.
Qed.

(** C6, as stated, fails: two [start-new-session] calls within the same
    millisecond mint the same session id, so the second id does not differ
    from the previous one. *)
Lemma start_new_session_same_millisecond :
  let w := world_of (Some "openrouter") (AxiosOk None) in
  let s0 := initial 1 (frozen 1700000000000) in
  let first := start_new_session w s0 in
  let second := start_new_session w first.2 in
  first.1 = Returns (IpcSuccess (SessionId "1700000000000"))
  ∧ currentSessionId first.2 = Some "1700000000000"
  ∧ second.1 = Returns (IpcSuccess (SessionId "1700000000000"))
  ∧ currentSessionId second.2 = currentSessionId first.2.
Proof. vm_compute. repeat split. Qed.

(** The id in the answer comes from a reading of its own: when the clock
    moves between the two readings, the caller is told an id that is not the
    id of the log.  The handler [openrouter-start-new-session] answers with
    [currentSessionId] instead. *)
Example start_new_session_answers_second_reading :
  let w := world_of (Some "openrouter") (AxiosOk None) in
  let s0 := initial 1 (ticking 1700000000000) in
  (start_new_session w s0).1
  = Returns (IpcSuccess (SessionId "1700000000001"))
  ∧ currentSessionId (start_new_session w s0).2 = Some "1700000000000"
  ∧ (OpenRouterIpc.start_new_session s0).1
    = Returns (IpcSuccess (SessionId "1700000000000")).
Proof. vm_compute. repeat split. Qed.

(** C6, amended. Under the openrouter provider every [start-new-session]
    call succeeds, empties the turn history and makes the digits of the
    clock reading taken at the call the session id; the new id differs from
    the previous one exactly when that reading differs from the reading the
    previous id was minted from. *)
Theorem start_new_session_resets_log (w : World) (s : Sys) :
  provider w s = Returns "openrouter" →
  let t := clock s (clockReads s) in
  let s' := state_after (start_new_session w) s in
  (∃ id, outcome_of (start_new_session w) s
         = Returns (IpcSuccess (SessionId id)))
  ∧ conversationHistory s' = []
  ∧ currentSessionId s' = Some (toString t)
  ∧ ∀ t0, currentSessionId s = Some (toString t0) →
          (currentSessionId s' ≠ currentSessionId s ↔ t ≠ t0).
Proof.
  intros Hp t s'. subst t s'. unfold state_after, outcome_of.
  rewrite (start_new_session_run w s Hp). simpl.
  split; [eexists; reflexivity|]. split; [reflexivity|].
  split; [reflexivity|].
  intros t0 Hid. rewrite Hid. split.
  - intros Hne Heq. apply Hne. by rewrite Heq.
  - intros Hne Heq. apply Hne. injection Heq as Heq. by apply toString_inj.
Qed.

Lemma start_new_session_resets_log_witness :
  let w := world_of (Some "openrouter") (AxiosOk None) in
  let s := one_session in
  let t := clock s (clockReads s) in
  let s' := state_after (start_new_session w) s in
  (∃ id, outcome_of (start_new_session w) s
         = Returns (IpcSuccess (SessionId id)))
  ∧ conversationHistory s' = []
  ∧ currentSessionId s' = Some (toString t)
  ∧ ∀ t0, currentSessionId s = Some (toString t0) →
          (currentSessionId s' ≠ currentSessionId s ↔ t ≠ t0).
Proof.
  apply (start_new_session_resets_log
           (world_of (Some "openrouter") (AxiosOk None)) one_session).
  vm_compute. reflexivity.
Defined.

(** ** C9: small images *)

(** C9, as stated, fails: with the openrouter provider and an active
    session, [send-image-content] hands a payload of four characters to the
    adapter, which posts it, and answers [{success: true}]. *)
Lemma short_image_reaches_openrouter :
  let w := world_of (Some "openrouter") (AxiosOk (Some "ok")) in
  let r := send_image_content demo_base64ByteLength (Js.VStr "AAAA") w
             one_session in
  r.1 = Returns (IpcSuccess NoData)
  ∧ backend_calls (trace r.2)
    = [ AxiosPost completions_url "m1"
          (image_messages "interview: " "AAAA") "Bearer sk-key"
          (Some 45000%N) ].
Proof. vm_compute. repeat split. Qed.

(** The answer of a handler is computed in the state its body ends in. *)
Lemma handler_state body s : (handler body s).2 = (body s).2.
Proof.
  unfold handler, try_catch. by destruct (body s) as [[r|e] s'].
Qed.

(** Completing a send adds to the trace and takes nothing from it. *)
Lemma sendImage_response_trace r :
  preserves extends_trace (sendImage_response r).
Proof. preserve_with trace_leaf open_calls. Qed.

(** C9, amended. A payload of fewer than 100 base64 characters is stopped
    by the renderer's [sendImageMessage], which answers [{success: false}]
    and does not call [send-image-content], whatever the provider; the
    handler itself turns a payload away for its size only when the provider
    is not openrouter, if it decodes to fewer than 1000 bytes (in both
    cases the state, the trace of effects included, stays as it was).  With
    the openrouter provider and a usable session in the slot, the handler
    has the adapter post any non-empty payload, whatever its size. *)
Theorem short_image_stopped_before_backend
    (base64ByteLength : string → nat) (data : string) (w : World) (s : Sys) :
  (String.length data < 100 →
   sendImageMessage base64ByteLength (Js.VStr data) w s
   = (Returns (IpcFailure "Invalid image data"), s))
  ∧ (∀ p, provider w s = Returns p → p ≠ "openrouter" →
          base64ByteLength data < 1000 →
          ∃ error,
            send_image_content base64ByteLength (Js.VStr data) w s
            = (Returns (IpcFailure error), s))
  ∧ (∀ obj, provider w s = Returns "openrouter" → data ≠ "" →
            deref (openRouterSessionRef s) s = Some obj →
            unusable (Some obj) = false →
            ∃ rest,
              trace (state_after
                       (send_image_content base64ByteLength (Js.VStr data) w)
                       s)
              = trace s
                ++ AxiosPost completions_url (model obj)
                     (image_messages (systemPrompt obj) data)
                     ("Bearer " +:+ apiKey obj) (Some 45000%N)
                   :: rest).
Proof.
  split; [|split].
  - intros Hshort. unfold sendImageMessage. simpl.
    rewrite (proj2 (Nat.ltb_lt _ _) Hshort). by rewrite orb_true_r.
  - intros p Hp Hne Hsmall. apply provider_run in Hp.
    unfold send_image_content, handler, try_catch, mbind, M_bind.
    destruct data as [|a data]; [eauto|]. simpl. rewrite Hp.
    rewrite (proj2 (String.eqb_neq _ _) Hne).
    unfold gets. destruct (geminiSessionRef s); [|eauto].
    rewrite (proj2 (Nat.ltb_lt _ _) Hsmall). eauto.
  - intros obj Hp Hdata Hobj Huse. apply provider_run in Hp.
    assert (active obj = true) as Hactive.
    { simpl in Huse. destruct (active obj); [done|].
      by rewrite orb_true_r in Huse. }
    unfold state_after, send_image_content. rewrite handler_state.
    unfold mbind, M_bind.
    destruct data as [|a data]; [done|]. simpl. rewrite Hp. simpl.
    unfold gets. rewrite Hobj. simpl. rewrite Hactive. simpl.
    unfold sendImageToOpenRouter, sendImage_request, gets, mbind, M_bind.
    rewrite Hobj, Huse. simpl.
    destruct (sendImage_response_trace (axios_post w)
                (set_trace
                   (trace s
                    ++ [AxiosPost completions_url (model obj)
                          (image_messages (systemPrompt obj) (String a data))
                          ("Bearer " +:+ apiKey obj) (Some 45000%N)]) s))
      as [rest Hrest].
    exists rest.
    destruct (sendImage_response (axios_post w) _) as [[r|e] s2];
      simpl in *; rewrite Hrest, <- app_assoc; reflexivity.
Qed.

Lemma short_image_stopped_before_backend_witness :
  sendImageMessage demo_base64ByteLength (Js.VStr "AAAA")
    (world_of (Some "openrouter") (AxiosOk (Some "ok"))) one_session
  = (Returns (IpcFailure "Invalid image data"), one_session)
  ∧ (∃ error,
       send_image_content demo_base64ByteLength (Js.VStr "AAAA")
         (world_of (Some "gemini") (AxiosOk (Some "ok")))
         (set_geminiSessionRef (Some (GeminiHandle 0)) one_session)
       = (Returns (IpcFailure error),
          set_geminiSessionRef (Some (GeminiHandle 0)) one_session))
  ∧ ∃ rest,
      trace (state_after
               (send_image_content demo_base64ByteLength (Js.VStr "AAAA")
                  (world_of (Some "openrouter") (AxiosOk (Some "ok"))))
               one_session)
      = trace one_session
        ++ AxiosPost completions_url "m1"
             (image_messages "interview: " "AAAA") "Bearer sk-key"
             (Some 45000%N)
           :: rest.
Proof.
  split; [|split].
  - apply (short_image_stopped_before_backend demo_base64ByteLength "AAAA"
             (world_of (Some "openrouter") (AxiosOk (Some "ok")))
             one_session).
    vm_compute. lia.
  - apply (proj1 (proj2 (short_image_stopped_before_backend
                           demo_base64ByteLength "AAAA"
                           (world_of (Some "gemini") (AxiosOk (Some "ok")))
                           (set_geminiSessionRef (Some (GeminiHandle 0))
                              one_session))) "gemini").
    + vm_compute. reflexivity.
    + discriminate.
    + vm_compute. lia.
  - apply (proj2 (proj2 (short_image_stopped_before_backend
                           demo_base64ByteLength "AAAA"
                           (world_of (Some "openrouter")
                              (AxiosOk (Some "ok")))
                           one_session))
             {| apiKey := "sk-key"; model := "m1";
                systemPrompt := "interview: "; profile := "interview";
                language := "en-US"; active := true |}).
    + vm_compute. reflexivity.
    + discriminate.
    + vm_compute. reflexivity.
    + reflexivity.
Defined.

(** ** The log and the objects over time *)

Lemma toString_nonempty t : Js.nonempty (toString t) = true.
Proof.
  unfold toString. destruct t as [|p]; [reflexivity|]. simpl.
  pose proof (DecimalPos.Unsigned.to_uint_nonnil p) as Hnil.
  destruct (Pos.to_uint p); [congruence | reflexivity..].
Qed.

Lemma initial_log_consistent nwindows clk :
  log_consistent (initial nwindows clk).
Proof. intros _. reflexivity. Qed.

Lemma initializeNewSession_consistent :
  preserves (holds log_consistent) initializeNewSession.
Proof. intros s _ _. reflexivity. Qed.

(** The id under which [saveConversationTurn] records, and the log it
    records into: the ones of a session it starts itself when none is
    there. *)
Lemma saveConversationTurn_id tr ai s :
  currentSessionId (state_after (saveConversationTurn tr ai) s)
  = if no_session_id (currentSessionId s)
    then Some (toString (clock s (clockReads s)))
    else currentSessionId s.
Proof.
  exec s;
    match goal with
    | id : option string |- _ => destruct id as [[|a id]|]
    end; evaluate; reflexivity.
Qed.

Lemma saveConversationTurn_history tr ai s :
  conversationHistory (state_after (saveConversationTurn tr ai) s)
  = (if no_session_id (currentSessionId s) then []
     else conversationHistory s)
    ++ [ {| timestamp :=
              clock s ((if no_session_id (currentSessionId s) then 1 else 0)
                       + clockReads s);
            transcription := Js.trim tr; ai_response := Js.trim ai |} ].
Proof.
  exec s;
    match goal with
    | id : option string |- _ => destruct id as [[|a id]|]
    end; evaluate; reflexivity.
Qed.

Lemma saveConversationTurn_returns tr ai s :
  outcome_of (saveConversationTurn tr ai) s = Returns tt.
Proof.
  exec s;
    match goal with
    | id : option string |- _ => destruct id as [[|a id]|]
    end; evaluate; reflexivity.
Qed.

(** What [saveConversationTurn] makes of the log: one more turn, under an
    id that is there afterwards. *)
Lemma saveConversationTurn_log tr ai s :
  log_consistent s →
  ∃ turn,
    outcome_of (saveConversationTurn tr ai) s = Returns tt
    ∧ conversationHistory (state_after (saveConversationTurn tr ai) s)
      = conversationHistory s ++ [turn]
    ∧ transcription turn = Js.trim tr
    ∧ ai_response turn = Js.trim ai
    ∧ no_session_id
        (currentSessionId (state_after (saveConversationTurn tr ai) s))
      = false.
Proof.
  intros Hlog. unfold log_consistent in Hlog.
  rewrite saveConversationTurn_history, saveConversationTurn_id.
  destruct (no_session_id (currentSessionId s)) eqn:Hid; eexists;
    (split; [apply saveConversationTurn_returns|]).
  - rewrite (Hlog eq_refl). repeat split. simpl.
    by rewrite toString_nonempty.
  - repeat split. exact Hid.
Qed.

Lemma saveConversationTurn_consistent tr ai :
  preserves (holds log_consistent) (saveConversationTurn tr ai).
Proof.
  intros s Hlog. destruct (saveConversationTurn_log tr ai s Hlog)
    as (turn & _ & _ & _ & _ & Hid).
  intros Hno. unfold state_after in Hid. congruence.
Qed.

(** A new object does not disturb the ones that are there. *)
Lemma alloc_inactive l o : preserves (holds (inactive_object l)) (alloc o).
Proof.
  intros s (obj & Hobj & Hoff). exists obj. split; [|exact Hoff].
  simpl. rewrite lookup_app_l; [exact Hobj|].
  by apply lookup_lt_Some in Hobj.
Qed.

(** Marking an object inactive leaves the inactive ones inactive. *)
Lemma deactivate_inactive l l' :
  preserves (holds (inactive_object l))
    (modify (λ s, set_heap (alter deactivate l' (heap s)) s)).
Proof.
  intros s (obj & Hobj & Hoff).
  change (∃ o, alter deactivate l' (heap s) !! l = Some o ∧ active o = false).
  destruct (decide (l' = l)) as [->|Hne].
  - exists (deactivate obj). split; [|reflexivity].
    by rewrite list_lookup_alter_eq, Hobj.
  - exists obj. split; [|exact Hoff].
    by rewrite list_lookup_alter_ne.
Qed.

Ltac log_leaf :=
  first [ apply initializeNewSession_consistent
        | apply saveConversationTurn_consistent
        | apply preserves_modify; intros ? H; exact H
        | intros ? H; exact H ].

Ltac heap_leaf :=
  first [ apply alloc_inactive
        | apply deactivate_inactive
        | apply preserves_modify; intros ? H; exact H
        | intros ? H; exact H ].

(** An initialisation that finds no other in flight leaves none in
    flight. *)
Lemma initializeOpenRouterSession_idle
    (getSystemPrompt : string → string → bool → string)
    (key mdl customPrompt prof lang : string) (isReconnection : bool) :
  preserves (holds idle)
    (initializeOpenRouterSession getSystemPrompt key mdl customPrompt prof
       lang isReconnection).
Proof.
  intros s Hidle. unfold idle in *.
  exec s; destruct isReconnection; reflexivity.
Qed.

Ltac idle_leaf :=
  first [ apply initializeOpenRouterSession_idle
        | apply preserves_modify; intros ? H; exact H
        | intros ? H; exact H ].

Ltac slot_leaf :=
  first [ apply preserves_modify; intros ? H; exact H
        | apply preserves_modify; intros ? _; reflexivity
        | intros ? H; exact H ].

Section ProtocolFacts.

Variable getSystemPrompt : string → string → bool → string.
Variable base64ByteLength : string → nat.

(** No call breaks the link between the id and the log. *)
Lemma perform_log_consistent c s :
  log_consistent s →
  log_consistent (perform getSystemPrompt base64ByteLength c s).
Proof.
  revert s.
  change (∀ s, holds log_consistent s
                 (perform getSystemPrompt base64ByteLength c s)).
  destruct c; simpl; unfold state_after;
    match goal with
    | |- ∀ s, holds ?P s (?m s).2 => change (preserves (holds P) m)
    end;
    preserve_with log_leaf
      ltac:(autounfold with ops; unfold initializeOpenRouterSession).
Qed.

(** No call makes an inactive object active again. *)
Lemma perform_inactive l c s :
  inactive_object l s →
  inactive_object l (perform getSystemPrompt base64ByteLength c s).
Proof.
  revert s.
  change (∀ s, holds (inactive_object l) s
                 (perform getSystemPrompt base64ByteLength c s)).
  destruct c; simpl; unfold state_after;
    match goal with
    | |- ∀ s, holds ?P s (?m s).2 => change (preserves (holds P) m)
    end;
    preserve_with heap_leaf open_calls.
Qed.

(** Between two calls no initialisation is in flight: the flag that turns
    a second initialisation away is raised and lowered within one call. *)
Lemma perform_idle c s :
  idle s → idle (perform getSystemPrompt base64ByteLength c s).
Proof.
  revert s.
  change (∀ s, holds idle s (perform getSystemPrompt base64ByteLength c s)).
  destruct c; simpl; unfold state_after;
    match goal with
    | |- ∀ s, holds ?P s (?m s).2 => change (preserves (holds P) m)
    end;
    preserve_with idle_leaf
      ltac:(autounfold with ops;
            unfold initializeNewSession, saveConversationTurn).
Qed.

(** The trace only grows. *)
Lemma perform_trace c s :
  extends_trace s (perform getSystemPrompt base64ByteLength c s).
Proof.
  revert s. destruct c; simpl; unfold state_after;
    match goal with
    | |- ∀ s, extends_trace s (?m s).2 => change (preserves extends_trace m)
    end;
    preserve_with trace_leaf open_calls.
Qed.

(** No other call fills the OpenRouter slot. *)
Lemma perform_slot_empty c s :
  initialises c = false →
  openRouterSessionRef s = None →
  openRouterSessionRef (perform getSystemPrompt base64ByteLength c s) = None.
Proof.
  intros Hc. revert s.
  change (∀ s, holds (λ s, openRouterSessionRef s = None) s
                 (perform getSystemPrompt base64ByteLength c s)).
  destruct c; try discriminate; simpl; unfold state_after;
    match goal with
    | |- ∀ s, holds ?P s (?m s).2 => change (preserves (holds P) m)
    end;
    preserve_with slot_leaf open_calls.
Qed.

Lemma later_slot_empty s s' :
  later_uninitialised getSystemPrompt base64ByteLength s s' →
  openRouterSessionRef s = None → openRouterSessionRef s' = None.
Proof.
  induction 1 as [|s1 s2 s3 (c & Hc & ->) _ IH]; [done|].
  intros Hslot. apply IH. by apply perform_slot_empty.
Qed.

Lemma later_log_consistent s s' :
  later getSystemPrompt base64ByteLength s s' →
  log_consistent s → log_consistent s'.
Proof.
  induction 1 as [|s1 s2 s3 [c ->] _ IH]; [done|].
  intros Hlog. apply IH. by apply perform_log_consistent.
Qed.

Lemma later_inactive l s s' :
  later getSystemPrompt base64ByteLength s s' →
  inactive_object l s → inactive_object l s'.
Proof.
  induction 1 as [|s1 s2 s3 [c ->] _ IH]; [done|].
  intros Hoff. apply IH. by apply perform_inactive.
Qed.

End ProtocolFacts.

(** ** Closing *)

(** [close-session] always answers [{success: true}]. *)
Lemma close_session_success w s :
  ∃ results,
    outcome_of (close_session w) s = Returns (IpcSuccess (Results results)).
Proof.
  destruct w as [? ? ? ? ? closing].
  exec s;
    repeat match goal with
           | o : option _ |- _ => destruct o
           | o : Outcome unit |- _ => destruct o
           end; eexists; reflexivity.
Qed.

(** It leaves the OpenRouter slot empty. *)
Lemma close_session_ref w s :
  openRouterSessionRef (state_after (close_session w) s) = None.
Proof.
  destruct w as [? ? ? ? ? closing].
  exec s;
    repeat match goal with
           | o : option _ |- _ => destruct o
           | o : Outcome unit |- _ => destruct o
           end; reflexivity.
Qed.

(** The only object it writes to is the one in the slot, which it marks
    inactive. *)
Lemma close_session_heap w s :
  heap (state_after (close_session w) s)
  = match openRouterSessionRef s with
    | Some l => alter deactivate l (heap s)
    | None => heap s
    end.
Proof.
  destruct w as [? ? ? ? ? closing].
  exec s;
    repeat match goal with
           | o : option _ |- _ => destruct o
           | o : Outcome unit |- _ => destruct o
           end; reflexivity.
Qed.

(** With both slots empty it does nothing at all. *)
Lemma close_session_idle w s :
  geminiSessionRef s = None → openRouterSessionRef s = None →
  close_session w s = (Returns (IpcSuccess (Results [])), s).
Proof. intros Hg Ho. exec s; reflexivity. Qed.

(** Closing a session and asking for a completion leave the log alone. *)
Lemma close_session_consistent w :
  preserves (holds log_consistent) (close_session w).
Proof. preserve_with log_leaf ltac:(autounfold with ops). Qed.

Lemma send_request_consistent text data session :
  preserves (holds log_consistent) (sendText_request text session)
  ∧ preserves (holds log_consistent) (sendImage_request data session).
Proof. split; preserve_with log_leaf ltac:(autounfold with ops). Qed.

(** ** The two halves of a send *)

Lemma sendToRenderer_run channel data s :
  sendToRenderer channel data s = (Returns tt, notified channel data s).
Proof.
  unfold sendToRenderer, notified, gets, when, emit, modify, mbind, M_bind.
  destruct (0 <? windows s); reflexivity.
Qed.

Lemma notified_log channel data s :
  conversationHistory (notified channel data s) = conversationHistory s
  ∧ currentSessionId (notified channel data s) = currentSessionId s.
Proof. unfold notified. destruct (0 <? windows s); split; reflexivity. Qed.

Lemma notified_consistent channel data s :
  log_consistent s → log_consistent (notified channel data s).
Proof.
  unfold log_consistent. destruct (notified_log channel data s) as [-> ->].
  done.
Qed.

(** A send on an unusable session throws at once and does nothing else. *)
Lemma sendText_request_unusable text session s :
  unusable (deref session s) = true →
  sendText_request text session s = (Throws not_active, s).
Proof.
  intros Hun. unfold sendText_request, gets, mbind, M_bind.
  destruct (deref session s) as [obj|]; [|reflexivity].
  by rewrite Hun.
Qed.

Lemma sendImage_request_unusable data session s :
  unusable (deref session s) = true →
  sendImage_request data session s = (Throws not_active, s).
Proof.
  intros Hun. unfold sendImage_request, gets, mbind, M_bind.
  destruct (deref session s) as [obj|]; [|reflexivity].
  by rewrite Hun.
Qed.

Lemma sendTextToOpenRouter_unusable text session r s :
  unusable (deref session s) = true →
  sendTextToOpenRouter text session r s = (Throws not_active, s).
Proof.
  intros Hun. unfold sendTextToOpenRouter, mbind, M_bind.
  by rewrite sendText_request_unusable.
Qed.

Lemma sendImageToOpenRouter_unusable data session r s :
  unusable (deref session s) = true →
  sendImageToOpenRouter data session r s = (Throws not_active, s).
Proof.
  intros Hun. unfold sendImageToOpenRouter, mbind, M_bind.
  by rewrite sendImage_request_unusable.
Qed.

(** The request half writes to the trace only. *)
Lemma sendText_request_log text session :
  preserves (fixes conversationHistory) (sendText_request text session)
  ∧ preserves (fixes currentSessionId) (sendText_request text session).
Proof. split; frame. Qed.

Lemma sendImage_request_log data session :
  preserves (fixes conversationHistory) (sendImage_request data session)
  ∧ preserves (fixes currentSessionId) (sendImage_request data session).
Proof. split; frame. Qed.

Lemma sendText_response_records text r s :
  log_consistent s →
  records text (Js.nonempty text && Js.nonempty (reply_of r)) r s
    (sendText_response text r s).
Proof.
  intros Hlog. unfold records, sendText_response, mbind, M_bind.
  destruct r as [data|response_error message]; rewrite sendToRenderer_run.
  - unfold when. simpl reply_of.
    destruct (Js.nonempty text && Js.nonempty _); simpl.
    + destruct (saveConversationTurn_log text
                  (Js.or_else (default "" data) "") _
                  (notified_consistent "update-response"
                     (PText (Js.or_else (default "" data) "")) s Hlog))
        as (turn & Hret & Hhist & Htr & Hai & _).
      unfold outcome_of, state_after in Hret, Hhist.
      destruct (saveConversationTurn _ _ _) as [[[]|e] s2];
        simpl in *; [|discriminate].
      exists turn. rewrite Hhist.
      by destruct (notified_log "update-response"
                     (PText (Js.or_else (default "" data) "")) s) as [-> _].
    + by destruct (notified_log "update-response"
                     (PText (Js.or_else (default "" data) "")) s) as [-> _].
  - simpl.
    by destruct (notified_log "update-status"
                   (PText ("Error: " +:+ error_message response_error message))
                   s) as [-> _].
Qed.

Lemma sendImage_response_records r s :
  log_consistent s →
  records "[Image sent]" (Js.nonempty (reply_of r)) r s
    (sendImage_response r s).
Proof.
  intros Hlog. unfold records, sendImage_response, mbind, M_bind.
  destruct r as [data|response_error message]; rewrite sendToRenderer_run.
  - unfold when. simpl reply_of.
    destruct (Js.nonempty _); simpl.
    + destruct (saveConversationTurn_log "[Image sent]"
                  (Js.or_else (default "" data) "") _
                  (notified_consistent "update-response"
                     (PText (Js.or_else (default "" data) "")) s Hlog))
        as (turn & Hret & Hhist & Htr & Hai & _).
      unfold outcome_of, state_after in Hret, Hhist.
      destruct (saveConversationTurn _ _ _) as [[[]|e] s2];
        simpl in *; [|discriminate].
      exists turn. rewrite Hhist.
      by destruct (notified_log "update-response"
                     (PText (Js.or_else (default "" data) "")) s) as [-> _].
    + by destruct (notified_log "update-response"
                     (PText (Js.or_else (default "" data) "")) s) as [-> _].
  - simpl.
    by destruct (notified_log "update-status"
                   (PText ("Error: " +:+ error_message response_error message))
                   s) as [-> _].
Qed.

(** ** C1: when a turn is recorded *)

(** The session of [one_session] is usable; its handle is [Some 0]. *)
Example one_session_usable :
  unusable (deref (Some 0) one_session) = false
  ∧ openRouterSessionRef one_session = Some 0
  ∧ log_consistent one_session.
Proof.
  split; [|split]; [vm_compute; reflexivity..|].
  intros Hno. vm_compute in Hno. discriminate.
Qed.

(** C1, as stated, fails: a call that obtains an empty reply returns
    normally, as does a call with an empty text and a reply, and the handler
    answers [{success: true}]; none of them records a turn. *)
Lemma successful_send_without_turn :
  let s := one_session in
  let empty_reply := AxiosOk (Some "") in
  (sendTextToOpenRouter "hello" (Some 0) empty_reply s).1 = Returns (Some "")
  ∧ conversationHistory (sendTextToOpenRouter "hello" (Some 0) empty_reply s).2
    = conversationHistory s
  ∧ (sendImageToOpenRouter "AAAA" (Some 0) empty_reply s).1
    = Returns (Some "")
  ∧ conversationHistory (sendImageToOpenRouter "AAAA" (Some 0) empty_reply s).2
    = conversationHistory s
  ∧ (sendTextToOpenRouter "" (Some 0) (AxiosOk (Some "hi")) s).1
    = Returns (Some "hi")
  ∧ conversationHistory
      (sendTextToOpenRouter "" (Some 0) (AxiosOk (Some "hi")) s).2
    = conversationHistory s
  ∧ (send_text_message (Js.VStr "hello")
       (world_of (Some "openrouter") empty_reply) s).1
    = Returns (IpcSuccess NoData)
  ∧ conversationHistory
      (send_text_message (Js.VStr "hello")
         (world_of (Some "openrouter") empty_reply) s).2
    = conversationHistory s.
Proof. vm_compute. repeat split. Qed.

(** C1, amended. A turn is recorded only when a non-empty reply was
    obtained.  A call of [sendTextToOpenRouter] or [sendImageToOpenRouter]
    that throws records no turn; a call that returns records exactly one
    turn, made of the trimmed input and reply, when the reply is not empty
    (and, for a text, the text is not empty either), and none otherwise. *)
Theorem send_records_turn_iff_reply
    (text base64Data : string) (session : option nat) (r : AxiosOutcome)
    (s : Sys) :
  log_consistent s →
  records text (Js.nonempty text && Js.nonempty (reply_of r)) r s
    (sendTextToOpenRouter text session r s)
  ∧ records "[Image sent]" (Js.nonempty (reply_of r)) r s
      (sendImageToOpenRouter base64Data session r s).
Proof.
  intros Hlog. split.
  - unfold sendTextToOpenRouter, mbind, M_bind.
    destruct (sendText_request_log text session) as [Hh Hi].
    specialize (Hh s). specialize (Hi s). unfold fixes in Hh, Hi.
    destruct (sendText_request text session s) as [[[]|e] s1]; simpl in *.
    + assert (log_consistent s1) as Hlog1
        by (unfold log_consistent; rewrite Hh, Hi; exact Hlog).
      pose proof (sendText_response_records text r s1 Hlog1) as Hrec.
      unfold records in *. by rewrite Hh in Hrec.
    + exact Hh.
  - unfold sendImageToOpenRouter, mbind, M_bind.
    destruct (sendImage_request_log base64Data session) as [Hh Hi].
    specialize (Hh s). specialize (Hi s). unfold fixes in Hh, Hi.
    destruct (sendImage_request base64Data session s) as [[[]|e] s1];
      simpl in *.
    + assert (log_consistent s1) as Hlog1
        by (unfold log_consistent; rewrite Hh, Hi; exact Hlog).
      pose proof (sendImage_response_records r s1 Hlog1) as Hrec.
      unfold records in *. by rewrite Hh in Hrec.
    + exact Hh.
Qed.

Lemma send_records_turn_iff_reply_witness :
  records "hello" (Js.nonempty "hello" && Js.nonempty "hi")
    (AxiosOk (Some "hi")) one_session
    (sendTextToOpenRouter "hello" (Some 0) (AxiosOk (Some "hi")) one_session)
  ∧ records "[Image sent]" (Js.nonempty "hi") (AxiosOk (Some "hi"))
      one_session
      (sendImageToOpenRouter "AAAA" (Some 0) (AxiosOk (Some "hi"))
         one_session).
Proof.
  apply (send_records_turn_iff_reply "hello" "AAAA" (Some 0)
           (AxiosOk (Some "hi")) one_session).
  intros Hno. vm_compute in Hno. discriminate.
Defined.

(** The turn that the witness above records. *)
Example send_records_turn_run :
  (sendTextToOpenRouter " hello " (Some 0) (AxiosOk (Some "hi ")) one_session).1
  = Returns (Some "hi ")
  ∧ conversationHistory
      (sendTextToOpenRouter " hello " (Some 0) (AxiosOk (Some "hi "))
         one_session).2
    = [ {| timestamp := 1700000000001; transcription := "hello";
           ai_response := "hi" |} ]
  ∧ conversationHistory
      (sendTextToOpenRouter "hello" (Some 0)
         (AxiosErr (Some "quota exceeded") "Request failed") one_session).2
    = []
  ∧ (sendTextToOpenRouter "hello" (Some 0)
       (AxiosErr (Some "quota exceeded") "Request failed") one_session).1
    = Throws "quota exceeded".
Proof. vm_compute. repeat split. Qed.

(** The copy of [sendImageToOpenRouter] at the repository root records a
    turn with an empty answer when the reply is empty. *)
Example legacy_image_records_empty_reply :
  (Legacy.sendImageToOpenRouter "AAAA" (Some 0) (AxiosOk None) one_session).1
  = Returns (Some None)
  ∧ conversationHistory
      (Legacy.sendImageToOpenRouter "AAAA" (Some 0) (AxiosOk None)
         one_session).2
    = [ {| timestamp := 1700000000001; transcription := "[Image sent]";
           ai_response := "" |} ].
Proof. vm_compute. repeat split. Qed.

(** ** C3: closing while a send is in flight *)

(** C3, as stated, fails: a send passes its check of the session, the
    session is closed while the request is out, and the reply that arrives
    afterwards is recorded as a turn all the same. *)
Lemma in_flight_send_recorded_after_close :
  let w := world_of (Some "openrouter") (AxiosOk (Some "hi")) in
  let sent := sendText_request "hello" (Some 0) one_session in
  let closed := close_session w sent.2 in
  let done := sendText_response "hello" (AxiosOk (Some "hi")) closed.2 in
  sent.1 = Returns tt
  ∧ closed.1 = Returns (IpcSuccess (Results [CloseOk "openrouter"]))
  ∧ openRouterSessionRef closed.2 = None
  ∧ active <$> heap closed.2 !! 0 = Some false
  ∧ done.1 = Returns (Some "hi")
  ∧ conversationHistory closed.2 = []
  ∧ conversationHistory done.2
    = [ {| timestamp := 1700000000001; transcription := "hello";
           ai_response := "hi" |} ].
Proof. vm_compute. repeat split. Qed.

(** C3, amended. When [close-session] runs while a send is in flight, the
    completion of the send writes to no session object and to no session
    reference: the closed session stays inactive and its slot stays empty.
    Its reply is still recorded in the log when it is not empty (and, for a
    text, the text is not empty). *)
Theorem in_flight_send_keeps_session_closed
    (text base64Data : string) (session : option nat) (r : AxiosOutcome)
    (w : World) (s : Sys) :
  let closed_text :=
    state_after (close_session w)
      (state_after (sendText_request text session) s) in
  let closed_image :=
    state_after (close_session w)
      (state_after (sendImage_request base64Data session) s) in
  let done_text := sendText_response text r closed_text in
  let done_image := sendImage_response r closed_image in
  (heap done_text.2 = heap closed_text
   ∧ openRouterSessionRef done_text.2 = None
   ∧ heap done_image.2 = heap closed_image
   ∧ openRouterSessionRef done_image.2 = None)
  ∧ (log_consistent s →
     records text (Js.nonempty text && Js.nonempty (reply_of r)) r
       closed_text done_text
     ∧ records "[Image sent]" (Js.nonempty (reply_of r)) r
         closed_image done_image).
Proof.
  intros closed_text closed_image done_text done_image.
  split.
  - subst done_text done_image.
    rewrite (sendText_response_heap text r closed_text).
    rewrite (sendText_response_ref text r closed_text).
    rewrite (sendImage_response_heap r closed_image).
    rewrite (sendImage_response_ref r closed_image).
    subst closed_text closed_image. rewrite !close_session_ref. done.
  - intros Hlog. split.
    + apply sendText_response_records, close_session_consistent.
      by apply (proj1 (send_request_consistent text base64Data session)).
    + apply sendImage_response_records, close_session_consistent.
      by apply (proj2 (send_request_consistent text base64Data session)).
Qed.

Lemma in_flight_send_keeps_session_closed_witness :
  let w := world_of (Some "openrouter") (AxiosOk (Some "hi")) in
  let r := AxiosOk (Some "hi") in
  let closed_text :=
    state_after (close_session w)
      (state_after (sendText_request "hello" (Some 0)) one_session) in
  let closed_image :=
    state_after (close_session w)
      (state_after (sendImage_request "AAAA" (Some 0)) one_session) in
  records "hello" (Js.nonempty "hello" && Js.nonempty (reply_of r)) r
    closed_text (sendText_response "hello" r closed_text)
  ∧ records "[Image sent]" (Js.nonempty (reply_of r)) r closed_image
      (sendImage_response r closed_image).
Proof.
  apply (in_flight_send_keeps_session_closed "hello" "AAAA" (Some 0)
           (AxiosOk (Some "hi"))
           (world_of (Some "openrouter") (AxiosOk (Some "hi"))) one_session).
  intros Hno. vm_compute in Hno. discriminate.
Defined.

(** ** C2: after closing *)

(** A text that does not trim to nothing is a text. *)
Lemma trim_nonempty text : Js.trim text ≠ "" → Js.nonempty text = true.
Proof. destruct text; [intros H; by destruct H | done]. Qed.

Lemma length_nonzero (t : string) : t ≠ "" → (String.length t =? 0) = false.
Proof. destruct t; [done | reflexivity]. Qed.

(** With the openrouter provider and no active session in the slot, the
    unified senders answer that there is none, and do nothing else. *)
Lemma send_text_message_no_session text w s :
  provider w s = Returns "openrouter" → Js.trim text ≠ "" →
  no_active_session (deref (openRouterSessionRef s) s) = true →
  send_text_message (Js.VStr text) w s = (Returns (IpcFailure not_active), s).
Proof.
  intros Hp Htext Hnone. apply provider_run in Hp.
  unfold send_text_message, handler, try_catch, mbind, M_bind.
  simpl. rewrite (trim_nonempty text Htext), (length_nonzero _ Htext).
  simpl. rewrite Hp. simpl. unfold gets. by rewrite Hnone.
Qed.

Lemma send_image_content_no_session base64ByteLength data w s :
  provider w s = Returns "openrouter" → data ≠ "" →
  no_active_session (deref (openRouterSessionRef s) s) = true →
  send_image_content base64ByteLength (Js.VStr data) w s
  = (Returns (IpcFailure not_active), s).
Proof.
  intros Hp Hdata Hnone. apply provider_run in Hp.
  unfold send_image_content, handler, try_catch, mbind, M_bind.
  destruct data; [done|]. simpl. rewrite Hp. simpl. unfold gets.
  by rewrite Hnone.
Qed.

(** An inactive object is of no use to a send. *)
Lemma inactive_unusable l s :
  inactive_object l s → unusable (deref (Some l) s) = true.
Proof.
  intros (obj & Hobj & Hoff). simpl. rewrite Hobj. simpl.
  rewrite Hoff. by rewrite orb_true_r.
Qed.

(** C2, as stated, fails for a stale handle.  [initialize-model] called a
    second time stores a new session in the slot and leaves the first one
    as it is; [close-session] then closes the session of the slot and no
    other, and a send that is handed the first session still posts its
    request and records the reply. *)
Lemma replaced_session_survives_close :
  let w := world_of (Some "openrouter") (AxiosOk (Some "hi")) in
  let initialise :=
    initialize_model demo_prompt (Js.VStr "sk-key") "" "interview" "en-US" w in
  let first := state_after initialise (initial 1 (ticking 1700000000000)) in
  let second := state_after initialise first in
  let closed := close_session w second in
  let sent :=
    sendTextToOpenRouter "hello" (Some 0) (AxiosOk (Some "hi")) closed.2 in
  openRouterSessionRef first = Some 0
  ∧ openRouterSessionRef second = Some 1
  ∧ closed.1 = Returns (IpcSuccess (Results [CloseOk "openrouter"]))
  ∧ openRouterSessionRef closed.2 = None
  ∧ active <$> heap closed.2 !! 1 = Some false
  ∧ active <$> heap closed.2 !! 0 = Some true
  ∧ sent.1 = Returns (Some "hi")
  ∧ backend_calls (trace closed.2) = []
  ∧ backend_calls (trace sent.2)
    = [ AxiosPost "https://openrouter.ai/api/v1/chat/completions"
          "anthropic/claude-3.5-sonnet"
          [ {| role := "system"; content := ContentText "interview: " |};
            {| role := "user"; content := ContentText "hello" |} ]
          "Bearer sk-key" (Some 30000%N) ]
  ∧ conversationHistory closed.2 = []
  ∧ conversationHistory sent.2
    = [ {| timestamp := 1700000000002; transcription := "hello";
           ai_response := "hi" |} ].
Proof. vm_compute. repeat split. Qed.

(** C2, amended. [close-session] always answers [{success: true}], also
    when no session is active; it marks the session object of the
    OpenRouter slot inactive and empties the slot; a second call finds
    nothing left to do for OpenRouter, and nothing at all once the Gemini
    slot is empty.  A send issued afterwards fails with 'No active
    OpenRouter session' and does nothing else (so nothing is sent): through
    the slot, as long as no session is initialised again, for the adapter
    and for the handlers (the unified ones under the openrouter provider,
    for a payload they accept), and, whatever happens later, for the
    adapter handed the session that was in the slot when it was closed. *)
Theorem close_session_ends_openrouter_session
    (getSystemPrompt : string → string → bool → string)
    (base64ByteLength : string → nat) (w : World) (s : Sys) :
  let closed := state_after (close_session w) s in
  (∃ results,
     outcome_of (close_session w) s = Returns (IpcSuccess (Results results)))
  ∧ openRouterSessionRef closed = None
  ∧ (∀ l obj, openRouterSessionRef s = Some l → heap s !! l = Some obj →
              heap closed !! l = Some (deactivate obj))
  ∧ (∀ w',
       let again := state_after (close_session w') closed in
       (∃ results,
          outcome_of (close_session w') closed
          = Returns (IpcSuccess (Results results)))
       ∧ heap again = heap closed
       ∧ openRouterSessionRef again = None
       ∧ (geminiSessionRef closed = None →
          close_session w' closed
          = (Returns (IpcSuccess (Results [])), closed)))
  ∧ (∀ afterwards w' text data r,
       later_uninitialised getSystemPrompt base64ByteLength closed
         afterwards →
       sendTextToOpenRouter text (openRouterSessionRef afterwards) r
         afterwards
       = (Throws not_active, afterwards)
       ∧ sendImageToOpenRouter data (openRouterSessionRef afterwards) r
           afterwards
         = (Throws not_active, afterwards)
       ∧ OpenRouterIpc.send_text_message text w' afterwards
         = (Returns (IpcFailure not_active), afterwards)
       ∧ OpenRouterIpc.send_image_content data w' afterwards
         = (Returns (IpcFailure not_active), afterwards)
       ∧ (provider w' afterwards = Returns "openrouter" →
          Js.trim text ≠ "" →
          send_text_message (Js.VStr text) w' afterwards
          = (Returns (IpcFailure not_active), afterwards))
       ∧ (provider w' afterwards = Returns "openrouter" → data ≠ "" →
          send_image_content base64ByteLength (Js.VStr data) w' afterwards
          = (Returns (IpcFailure not_active), afterwards)))
  ∧ (∀ l obj afterwards text data r,
       openRouterSessionRef s = Some l → heap s !! l = Some obj →
       later getSystemPrompt base64ByteLength closed afterwards →
       sendTextToOpenRouter text (Some l) r afterwards
       = (Throws not_active, afterwards)
       ∧ sendImageToOpenRouter data (Some l) r afterwards
         = (Throws not_active, afterwards)).
Proof.
  intros closed.
  assert (openRouterSessionRef closed = None) as Hslot
    by apply close_session_ref.
  assert (∀ l obj, openRouterSessionRef s = Some l → heap s !! l = Some obj →
                   heap closed !! l = Some (deactivate obj)) as Hoff.
  { intros l obj Hl Hobj. unfold closed.
    rewrite close_session_heap, Hl, list_lookup_alter_eq, Hobj. done. }
  split; [apply close_session_success|].
  split; [exact Hslot|]. split; [exact Hoff|]. split; [|split].
  - intros w' again. split; [apply close_session_success|].
    split; [|split].
    + unfold again. by rewrite close_session_heap, Hslot.
    + apply close_session_ref.
    + intros Hg. by apply close_session_idle.
  - intros afterwards w' text data r Hlater.
    assert (openRouterSessionRef afterwards = None) as Hempty
      by (by apply (later_slot_empty getSystemPrompt base64ByteLength
                      closed)).
    rewrite Hempty.
    split; [by apply sendTextToOpenRouter_unusable|].
    split; [by apply sendImageToOpenRouter_unusable|].
    split; [|split; [|split]].
    + unfold OpenRouterIpc.send_text_message, gets, mbind, M_bind.
      by rewrite Hempty.
    + unfold OpenRouterIpc.send_image_content, gets, mbind, M_bind.
      by rewrite Hempty.
    + intros Hp Htext. apply send_text_message_no_session; [done..|].
      by rewrite Hempty.
    + intros Hp Hdata. apply send_image_content_no_session; [done..|].
      by rewrite Hempty.
  - intros l obj afterwards text data r Hl Hobj Hlater.
    assert (inactive_object l afterwards) as Hstale.
    { apply (later_inactive getSystemPrompt base64ByteLength l closed);
        [exact Hlater|].
      exists (deactivate obj). split; [by apply Hoff | reflexivity]. }
    apply inactive_unusable in Hstale.
    split; [by apply sendTextToOpenRouter_unusable
           | by apply sendImageToOpenRouter_unusable].
Qed.

Lemma close_session_ends_openrouter_session_witness :
  let w := world_of (Some "openrouter") (AxiosOk (Some "hi")) in
  let closed := state_after (close_session w) one_session in
  let restarted := state_after (start_new_session w) closed in
  let afterwards :=
    state_after
      (initialize_model demo_prompt (Js.VStr "sk-key") "" "interview" "en-US"
         w) closed in
  send_text_message (Js.VStr "hello") w restarted
  = (Returns (IpcFailure not_active), restarted)
  ∧ send_image_content demo_base64ByteLength (Js.VStr "AAAA") w restarted
    = (Returns (IpcFailure not_active), restarted)
  ∧ sendTextToOpenRouter "hello" (Some 0) (AxiosOk (Some "hi")) afterwards
    = (Throws not_active, afterwards)
  ∧ sendImageToOpenRouter "AAAA" (Some 0) (AxiosOk (Some "hi")) afterwards
    = (Throws not_active, afterwards).
Proof.
  intros w closed restarted afterwards.
  pose proof (close_session_ends_openrouter_session demo_prompt
                demo_base64ByteLength w one_session)
    as (_ & _ & _ & _ & Hslot & Hstale).
  destruct (Hslot restarted w "hello" "AAAA" (AxiosOk (Some "hi")))
    as (_ & _ & _ & _ & Htext & Himage).
  { apply rtc_once. exists (StartNewSession w).
    split; [reflexivity|]. unfold restarted. cbv [perform]. reflexivity. }
  split; [apply Htext; [vm_compute; reflexivity | vm_compute; discriminate]|].
  split; [apply Himage; [vm_compute; reflexivity | discriminate]|].
  apply (Hstale 0
           {| apiKey := "sk-key"; model := "m1"; systemPrompt := "interview: ";
              profile := "interview"; language := "en-US"; active := true |}
           afterwards "hello" "AAAA" (AxiosOk (Some "hi"))).
  - vm_compute. reflexivity.
  - vm_compute. reflexivity.
  - apply rtc_once.
    exists (InitializeModel (Js.VStr "sk-key") "" "interview" "en-US" w).
    unfold afterwards. cbv [perform]. reflexivity.
Defined.

(** After the session of the witness is closed and a new one is
    initialised, the new session answers and the stale one does not. *)
Example stale_handle_after_reinitialisation :
  let w := world_of (Some "openrouter") (AxiosOk (Some "hi")) in
  let closed := state_after (close_session w) one_session in
  let afterwards :=
    state_after
      (initialize_model demo_prompt (Js.VStr "sk-key") "" "interview" "en-US"
         w) closed in
  openRouterSessionRef afterwards = Some 1
  ∧ (sendTextToOpenRouter "hello" (Some 1) (AxiosOk (Some "hi")) afterwards).1
    = Returns (Some "hi")
  ∧ (sendTextToOpenRouter "hello" (Some 0) (AxiosOk (Some "hi")) afterwards).1
    = Throws "No active OpenRouter session"
  ∧ (send_text_message (Js.VStr "   ") w closed).1
    = Returns (IpcFailure "Invalid text message").
Proof. vm_compute. repeat split. Qed.

(** When closing the Gemini session fails, the session stays in its slot,
    and a second [close-session] tells it to close once more. *)
Example second_close_tries_gemini_again :
  let w :=
    {| localStorage := λ _, Returns None;
       executeJavaScript_rejects := None;
       axios_post := AxiosOk None;
       gemini_initialize := Returns None;
       gemini_sendRealtimeInput := Returns tt;
       gemini_close := Throws "closed" |} in
  let s := set_geminiSessionRef (Some (GeminiHandle 0)) one_session in
  let closed := close_session w s in
  let again := close_session w closed.2 in
  closed.1
  = Returns
      (IpcSuccess
         (Results [CloseError "gemini" "closed"; CloseOk "openrouter"]))
  ∧ geminiSessionRef closed.2 = Some (GeminiHandle 0)
  ∧ again.1 = Returns (IpcSuccess (Results [CloseError "gemini" "closed"]))
  ∧ trace again.2 = trace closed.2 ++ [GeminiClose (GeminiHandle 0)]
  ∧ heap again.2 = heap closed.2
  ∧ openRouterSessionRef again.2 = None.
Proof. vm_compute. repeat split. Qed.

(** * Further properties *)

(** ** The transcript of the speakers *)

Module TranscriptFacts.
Import Transcript.

Lemma append_assoc (a b c : string) : (a +:+ b) +:+ c = a +:+ (b +:+ c).
Proof.
  induction a as [|x a IH]; [done|].
  change (String x ((a +:+ b) +:+ c) = String x (a +:+ (b +:+ c))).
  by rewrite IH.
Qed.

Lemma append_empty_r (a : string) : a +:+ "" = a.
Proof.
  induction a as [|x a IH]; [done|].
  change (String x (a +:+ "") = String x a). by rewrite IH.
Qed.

(** The loop adds to the text it has; it never rewrites it. *)
Lemma loop_from (results : list SpeakerResult) (text : string) :
  fold_left
    (λ text result, if spoken result then text +:+ line result else text)
    results text
  = text +:+ formatSpeakerResults results.
Proof.
  unfold formatSpeakerResults. revert text.
  induction results as [|r results IH]; intros text; simpl.
  - by rewrite append_empty_r.
  - rewrite IH. rewrite (IH (if spoken r then _ else _)).
    destruct (spoken r); simpl; [|done]. by rewrite append_assoc.
Qed.

Lemma format_cons (r : SpeakerResult) (results : list SpeakerResult) :
  formatSpeakerResults (r :: results)
  = (if spoken r then line r else "") +:+ formatSpeakerResults results.
Proof.
  unfold formatSpeakerResults at 1. simpl. rewrite loop_from.
  by destruct (spoken r).
Qed.

Lemma format_app (results more : list SpeakerResult) :
  formatSpeakerResults (results ++ more)
  = formatSpeakerResults results +:+ formatSpeakerResults more.
Proof.
  induction results as [|r results IH]; [done|].
  rewrite <- app_comm_cons, !format_cons, IH. by rewrite append_assoc.
Qed.

End TranscriptFacts.

(** X1. The transcript [formatSpeakerResults] builds has one line for each
    result that has both a transcript and a speaker, in the order of the
    results, labelled Interviewer for speaker 1 and Candidate for every
    other speaker; a result without a transcript or without a speaker (an
    empty transcript, a speaker id of 0) leaves no trace in it.  So the
    transcript of two lists of results one after the other is the transcript
    of the first followed by the transcript of the second. *)
Theorem formatSpeakerResults_lines
    (results more : list Transcript.SpeakerResult) :
  Transcript.formatSpeakerResults results
  = foldr String.append ""
      ((λ r, "[" +:+ (if decide (Transcript.speakerId r = 1%Z)
                      then "Interviewer" else "Candidate")
             +:+ "]: " +:+ Transcript.transcript r
             +:+ Transcript.newline)
       <$> filter (λ r, Transcript.transcript r ≠ ""
                        ∧ Transcript.speakerId r ≠ 0%Z) results)
  ∧ Transcript.formatSpeakerResults (results ++ more)
    = Transcript.formatSpeakerResults results
      +:+ Transcript.formatSpeakerResults more.
Proof.
  split; [|apply TranscriptFacts.format_app].
  assert (∀ r, Transcript.spoken r = true
               ↔ Transcript.transcript r ≠ ""
                 ∧ Transcript.speakerId r ≠ 0%Z) as Hspoken.
  { intros r. unfold Transcript.spoken.
    rewrite andb_true_iff, negb_true_iff, Z.eqb_neq.
    destruct (Transcript.transcript r); simpl; intuition congruence. }
  assert (∀ r, Transcript.line r
               = "[" +:+ (if decide (Transcript.speakerId r = 1%Z)
                          then "Interviewer" else "Candidate")
                 +:+ "]: " +:+ Transcript.transcript r
                 +:+ Transcript.newline) as Hline.
  { intros r. unfold Transcript.line, Transcript.speakerLabel.
    destruct (Z.eqb_spec (Transcript.speakerId r) 1);
      destruct (decide _); done. }
  induction results as [|r results IH]; [done|].
  rewrite TranscriptFacts.format_cons.
  destruct (Transcript.spoken r) eqn:Hr.
  - rewrite filter_cons_True by by apply Hspoken.
    rewrite fmap_cons. simpl foldr. by rewrite <- IH, Hline.
  - rewrite filter_cons_False
      by (intros H; apply Hspoken in H; congruence).
    simpl. done.
Qed.

(** ** Trimming twice *)

Module TrimFacts.
Import TranscriptFacts.

Lemma rev_app_append (s t : string) :
  String.rev_app s t = String.rev s +:+ t.
Proof.
  unfold String.rev. revert t.
  induction s as [|a s IH]; intros t; [done|].
  simpl. rewrite IH, (IH (String a "")), append_assoc. done.
Qed.

Lemma rev_cons a (s : string) : String.rev (String a s) = String.rev s +:+ String a "".
Proof. unfold String.rev at 1. simpl. apply rev_app_append. Qed.

Lemma rev_append (s t : string) :
  String.rev (s +:+ t) = String.rev t +:+ String.rev s.
Proof.
  induction s as [|a s IH].
  - simpl. by rewrite append_empty_r.
  - change (String a s +:+ t) with (String a (s +:+ t)).
    rewrite !rev_cons, IH, append_assoc. done.
Qed.

Lemma rev_involutive (s : string) : String.rev (String.rev s) = s.
Proof.
  induction s as [|a s IH]; [done|].
  rewrite rev_cons, rev_append, IH. done.
Qed.

Lemma trimStart_idempotent s : Js.trimStart (Js.trimStart s) = Js.trimStart s.
Proof.
  induction s as [|a s IH]; [done|]. simpl.
  destruct (Js.is_whitespace a) eqn:Ha; [exact IH|]. simpl. by rewrite Ha.
Qed.

(** What is left of a string starts with no white space. *)
Lemma trimStart_head s a t :
  Js.trimStart s = String a t → Js.is_whitespace a = false.
Proof.
  induction s as [|b s IH]; [done|]. simpl.
  destruct (Js.is_whitespace b) eqn:Hb; [exact IH|].
  intros [= <- <-]. exact Hb.
Qed.

Lemma trimStart_snoc s a :
  Js.is_whitespace a = false →
  Js.trimStart (s +:+ String a "") = Js.trimStart s +:+ String a "".
Proof.
  intros Ha. induction s as [|b s IH]; simpl; [by rewrite Ha|].
  destruct (Js.is_whitespace b); [exact IH | done].
Qed.

(** Trimming the end of a string that starts with no white space leaves a
    string that starts with none. *)
Lemma trimStart_trimEnd y :
  Js.trimStart y = y → Js.trimStart (Js.trimEnd y) = Js.trimEnd y.
Proof.
  intros Hy. destruct y as [|c y']; [done|].
  pose proof (trimStart_head _ _ _ Hy) as Hc.
  unfold Js.trimEnd. rewrite rev_cons, trimStart_snoc by done.
  rewrite rev_append. simpl. by rewrite Hc.
Qed.

Lemma trim_idempotent s : Js.trim (Js.trim s) = Js.trim s.
Proof.
  unfold Js.trim.
  rewrite trimStart_trimEnd by apply trimStart_idempotent.
  unfold Js.trimEnd. by rewrite rev_involutive, trimStart_idempotent.
Qed.

End TrimFacts.

(** ** Stereo to mono: buffers of every length *)

Module MonoFacts.
Import Buffer.

(** The rounds of the loop one after the other. *)
Lemma mono_loop_add (stereo : list Byte.byte) n m :
  ∀ i mono,
  mono_loop stereo (n + m) i mono
  = mono_loop stereo n i mono ≫= mono_loop stereo m (i + n).
Proof.
  induction n as [|n IH]; intros i mono; simpl.
  - by rewrite Nat.add_0_r.
  - destruct (readInt16LE stereo (i * 4)) as [v|]; simpl; [|done].
    destruct (writeInt16LE v (i * 2) mono) as [mono1|]; simpl; [|done].
    rewrite IH. by replace (S i + n) with (i + S n) by lia.
Qed.

(** A length in frames and bytes. *)
Lemma frames (len : nat) :
  ∃ q r, len = q * 4 + r ∧ r < 4 ∧ len / 4 = q ∧ len `mod` 4 = r.
Proof.
  exists (len / 4), (len `mod` 4).
  pose proof (Nat.div_mod_eq len 4).
  pose proof (Nat.mod_upper_bound len 4). lia.
Qed.

(** For whole frames the call returns, and byte [k] of the output is byte
    [k] of the left sample of frame [k / 2]. *)
Lemma convert_frames (stereo : list Byte.byte) q :
  length stereo = q * 4 →
  ∃ mono,
    convertStereoToMono stereo = Some mono
    ∧ length mono = q * 2
    ∧ ∀ j, j < q →
        mono !! (j * 2) = stereo !! (j * 4)
        ∧ mono !! (j * 2 + 1) = stereo !! (j * 4 + 1).
Proof.
  intros Hlen. unfold convertStereoToMono. rewrite Hlen.
  assert ((q * 4 + 3) / 4 = q) as ->
    by (symmetry; apply Nat.div_unique with 3; lia).
  assert (q * 4 / 2 = q * 2) as ->
    by (symmetry; apply Nat.div_unique with 0; lia).
  destruct (BufferFacts.mono_loop_spec stereo q 0 (alloc (q * 2)))
    as (mono & Hrun & Hl & _ & Hframes).
  { lia. }
  { unfold alloc. rewrite length_replicate. lia. }
  exists mono. split; [exact Hrun|]. split.
  { rewrite Hl. unfold alloc. apply length_replicate. }
  intros j Hj. apply Hframes. lia.
Qed.

End MonoFacts.

(** X2. On a buffer whose length is not a multiple of 4
    [convertStereoToMono] throws (a [RangeError] of the read or of the write
    of the last, partial frame): it returns for whole frames only. *)
Theorem convertStereoToMono_partial_frame (stereoBuffer : list Byte.byte) :
  length stereoBuffer `mod` 4 ≠ 0 →
  Buffer.convertStereoToMono stereoBuffer = None.
Proof.
  intros Hmod. unfold Buffer.convertStereoToMono.
  destruct (MonoFacts.frames (length stereoBuffer))
    as (q & r & Hlen & Hr & _ & Hmod').
  rewrite Hmod' in Hmod.
  assert ((length stereoBuffer + 3) / 4 = q + 1) as ->
    by (symmetry; apply Nat.div_unique with (r - 1); lia).
  rewrite MonoFacts.mono_loop_add.
  destruct (BufferFacts.mono_loop_spec stereoBuffer q 0
              (Buffer.alloc (length stereoBuffer / 2)))
    as (mono & -> & Hl & _ & _).
  { lia. }
  { unfold Buffer.alloc. rewrite length_replicate.
    apply Nat.div_le_lower_bound; lia. }
  simpl. unfold Buffer.alloc in Hl. rewrite length_replicate in Hl.
  destruct (Buffer.readInt16LE stereoBuffer (q * 4)) as [v|] eqn:Hread;
    [|done].
  simpl. unfold Buffer.writeInt16LE.
  destruct (decide (r = 1)) as [->|Hr1].
  - unfold Buffer.readInt16LE in Hread.
    rewrite (lookup_ge_None_2 stereoBuffer (q * 4 + 1)) in Hread by lia.
    by destruct (stereoBuffer !! (q * 4)).
  - assert (length stereoBuffer / 2 = q * 2 + 1) as Hhalf
      by (symmetry; apply Nat.div_unique with (r - 2); lia).
    rewrite (proj2 (Nat.ltb_ge (q * 2 + 1) (length mono))) by lia.
    by rewrite andb_false_r.
Qed.

Lemma convertStereoToMono_partial_frame_witness :
  Buffer.convertStereoToMono
    [Byte.x01; Byte.xff; Byte.x02; Byte.x03; Byte.x04; Byte.x05] = None.
Proof.
  apply (convertStereoToMono_partial_frame
           [Byte.x01; Byte.xff; Byte.x02; Byte.x03; Byte.x04; Byte.x05]).
  vm_compute. discriminate.
Defined.

(** X3. The right channel has no part in the output of
    [convertStereoToMono]: two buffers of the same whole number of frames
    whose frames start with the same two bytes are converted to the same
    mono buffer. *)
Theorem convertStereoToMono_ignores_right_channel
    (stereoBuffer other : list Byte.byte) :
  length stereoBuffer `mod` 4 = 0 →
  length other = length stereoBuffer →
  (∀ i, i < length stereoBuffer / 4 →
        other !! (i * 4) = stereoBuffer !! (i * 4)
        ∧ other !! (i * 4 + 1) = stereoBuffer !! (i * 4 + 1)) →
  Buffer.convertStereoToMono other = Buffer.convertStereoToMono stereoBuffer
  ∧ is_Some (Buffer.convertStereoToMono stereoBuffer).
Proof.
  intros Hmod Hsame Hleft.
  destruct (MonoFacts.frames (length stereoBuffer))
    as (q & r & Hlen & Hr & Hq & Hmod').
  rewrite Hq in Hleft.
  assert (length stereoBuffer = q * 4) as Hlen1 by lia.
  destruct (MonoFacts.convert_frames stereoBuffer q Hlen1)
    as (mono1 & -> & Hl1 & Hf1).
  destruct (MonoFacts.convert_frames other q ltac:(lia))
    as (mono2 & -> & Hl2 & Hf2).
  split; [|eauto]. f_equal. apply list_eq. intros k.
  destruct (decide (k < q * 2)) as [Hk|Hk].
  - pose proof (Nat.div_mod_eq k 2) as Hdm.
    pose proof (Nat.mod_upper_bound k 2 ltac:(lia)) as Hub.
    destruct (Hf1 (k / 2) ltac:(lia)) as [Ha1 Hb1].
    destruct (Hf2 (k / 2) ltac:(lia)) as [Ha2 Hb2].
    destruct (Hleft (k / 2) ltac:(lia)) as [Ha Hb].
    destruct (decide (k `mod` 2 = 0)) as [H0|H1].
    + replace k with (k / 2 * 2) by lia. congruence.
    + replace k with (k / 2 * 2 + 1) by lia. congruence.
  - rewrite !lookup_ge_None_2 by lia. done.
Qed.

Lemma convertStereoToMono_ignores_right_channel_witness :
  Buffer.convertStereoToMono
    [Byte.x01; Byte.xff; Byte.xaa; Byte.xbb;
     Byte.x04; Byte.x05; Byte.xcc; Byte.xdd]
  = Buffer.convertStereoToMono
      [Byte.x01; Byte.xff; Byte.x02; Byte.x03;
       Byte.x04; Byte.x05; Byte.x06; Byte.x07]
  ∧ is_Some (Buffer.convertStereoToMono
               [Byte.x01; Byte.xff; Byte.x02; Byte.x03;
                Byte.x04; Byte.x05; Byte.x06; Byte.x07]).
Proof.
  apply (convertStereoToMono_ignores_right_channel
           [Byte.x01; Byte.xff; Byte.x02; Byte.x03;
            Byte.x04; Byte.x05; Byte.x06; Byte.x07]
           [Byte.x01; Byte.xff; Byte.xaa; Byte.xbb;
            Byte.x04; Byte.x05; Byte.xcc; Byte.xdd]).
  - reflexivity.
  - reflexivity.
  - intros i Hi. change (i < 2) in Hi.
    destruct i as [|[|i]]; [split; reflexivity..|lia].
Defined.

(** ** The chunks of the captured audio *)

Module CaptureFacts.
Import LegacyCapture.

(** A chunk is 2400 stereo frames, and five chunks fill the buffer up to
    its bound. *)
Lemma CHUNK_SIZE_frames : CHUNK_SIZE = 2400 * 4.
Proof.
  unfold CHUNK_SIZE, SAMPLE_RATE, BYTES_PER_SAMPLE, CHANNELS.
  symmetry. apply Nat.div_unique with 0; lia.
Qed.

Lemma maxBufferSize_chunks : maxBufferSize = 5 * CHUNK_SIZE.
Proof.
  rewrite CHUNK_SIZE_frames.
  unfold maxBufferSize, SAMPLE_RATE, BYTES_PER_SAMPLE. lia.
Qed.

#[local] Opaque CHUNK_SIZE maxBufferSize.

Lemma CHUNK_SIZE_pos : 0 < CHUNK_SIZE.
Proof. rewrite CHUNK_SIZE_frames. lia. Qed.

(** The loop with one round to go or none. *)
Lemma drain_eq fuel (audioBuffer : list Byte.byte) :
  drain fuel audioBuffer
  = if CHUNK_SIZE <=? length audioBuffer
    then
      match fuel with
      | 0 => None
      | S fuel' =>
          monoChunk ← Buffer.convertStereoToMono (take CHUNK_SIZE audioBuffer);
          rest ← drain fuel' (drop CHUNK_SIZE audioBuffer);
          Some (monoChunk :: rest.1, rest.2)
      end
    else Some ([], audioBuffer).
Proof. destruct fuel; reflexivity. Qed.

(** A whole chunk is converted, to half its length. *)
Lemma convert_chunk (stream : list Byte.byte) i :
  (i + 1) * CHUNK_SIZE ≤ length stream →
  ∃ mono,
    Buffer.convertStereoToMono (chunk i stream) = Some mono
    ∧ length mono = CHUNK_SIZE / 2.
Proof.
  intros Hlen.
  assert (length (chunk i stream) = 2400 * 4) as Hchunk.
  { unfold chunk. rewrite length_take, length_drop.
    rewrite <- CHUNK_SIZE_frames. lia. }
  destruct (MonoFacts.convert_frames _ _ Hchunk) as (mono & Hrun & Hl & _).
  exists mono. split; [exact Hrun|]. rewrite Hl, CHUNK_SIZE_frames.
  apply Nat.div_unique with 0; lia.
Qed.

(** With a round for every whole chunk the loop comes to its end: it has
    converted the chunks in their order and is left with what follows the
    last of them. *)
Lemma drain_spec fuel :
  ∀ audioBuffer : list Byte.byte,
  length audioBuffer / CHUNK_SIZE ≤ fuel →
  ∃ sent,
    drain fuel audioBuffer
    = Some (sent,
            drop (length audioBuffer / CHUNK_SIZE * CHUNK_SIZE) audioBuffer)
    ∧ length sent = length audioBuffer / CHUNK_SIZE
    ∧ ∀ i, i < length audioBuffer / CHUNK_SIZE →
        ∃ mono, sent !! i = Some mono
                ∧ Buffer.convertStereoToMono (chunk i audioBuffer)
                  = Some mono.
Proof.
  pose proof CHUNK_SIZE_pos as Hpos.
  induction fuel as [|fuel IH]; intros audioBuffer Hfuel;
    rewrite drain_eq;
    destruct (Nat.leb_spec CHUNK_SIZE (length audioBuffer)) as [Hge|Hlt].
  - assert (1 ≤ length audioBuffer / CHUNK_SIZE)
      by (apply Nat.div_le_lower_bound; lia).
    lia.
  - rewrite Nat.div_small by lia. exists []. repeat split. intros i Hi. lia.
  - set (rest := drop CHUNK_SIZE audioBuffer).
    assert (length rest = length audioBuffer - CHUNK_SIZE) as Hrest
      by (unfold rest; apply length_drop).
    assert (length audioBuffer / CHUNK_SIZE
            = S (length rest / CHUNK_SIZE)) as Hq.
    { replace (length audioBuffer) with (1 * CHUNK_SIZE + length rest)
        by lia.
      rewrite Nat.div_add_l by lia. lia. }
    destruct (convert_chunk audioBuffer 0 ltac:(lia)) as (mono & Hmono & _).
    unfold chunk in Hmono. rewrite Nat.mul_0_l, drop_0 in Hmono.
    rewrite Hmono. simpl.
    destruct (IH rest ltac:(lia)) as (sent & -> & Hlen & Hsent). simpl.
    exists (mono :: sent). split; [|split].
    + f_equal. f_equal. rewrite Hq. unfold rest. rewrite drop_drop.
      f_equal; lia.
    + simpl. lia.
    + intros [|i] Hi.
      * exists mono. split; [done|]. exact Hmono.
      * destruct (Hsent i ltac:(lia)) as (m & Hm & Hc).
        exists m. split; [exact Hm|]. rewrite <- Hc. unfold chunk, rest.
        rewrite drop_drop. do 2 f_equal; lia.
  - rewrite Nat.div_small by lia. exists []. repeat split. intros i Hi. lia.
Qed.

(** What the listener does with a buffer and the bytes that arrive. *)
Lemma on_data_spec (audioBuffer data : list Byte.byte) :
  let stream := audioBuffer ++ data in
  let n := length stream / CHUNK_SIZE in
  ∃ sent,
    on_data audioBuffer data = Some (sent, drop (n * CHUNK_SIZE) stream)
    ∧ length sent = n
    ∧ length (drop (n * CHUNK_SIZE) stream) = length stream `mod` CHUNK_SIZE
    ∧ ∀ i, i < n →
        ∃ mono, sent !! i = Some mono
                ∧ Buffer.convertStereoToMono (chunk i stream) = Some mono.
Proof.
  intros stream n. pose proof CHUNK_SIZE_pos as Hpos.
  assert (length (drop (n * CHUNK_SIZE) stream)
          = length stream `mod` CHUNK_SIZE) as Hleft.
  { rewrite length_drop. unfold n.
    pose proof (Nat.div_mod_eq (length stream) CHUNK_SIZE). lia. }
  destruct (drain_spec (length stream) stream) as (sent & Hrun & Hlen & Hsent).
  { apply Nat.Div0.div_le_upper_bound; nia. }
  exists sent. split; [|split; [exact Hlen|split; [exact Hleft|exact Hsent]]].
  unfold on_data. fold stream. rewrite Hrun. simpl. fold n.
  rewrite (proj2 (Nat.ltb_ge _ _)); [done|].
  rewrite Hleft, maxBufferSize_chunks.
  pose proof (Nat.mod_upper_bound (length stream) CHUNK_SIZE). lia.
Qed.

End CaptureFacts.

#[local] Opaque LegacyCapture.CHUNK_SIZE LegacyCapture.maxBufferSize.

(** X4. Each time bytes arrive from the capture process, the listener
    hands on every whole chunk of a tenth of a second that the bytes it had
    kept and the new ones make up, in their order, each converted to mono at
    half its length; it keeps the bytes that follow the last whole chunk,
    fewer than a chunk, so that no byte is dropped or sent twice (the bound
    of one second on the kept bytes never cuts anything). *)
Theorem capture_sends_whole_chunks (audioBuffer data : list Byte.byte) :
  let stream := audioBuffer ++ data in
  let n := length stream / LegacyCapture.CHUNK_SIZE in
  ∃ sent kept,
    LegacyCapture.on_data audioBuffer data = Some (sent, kept)
    ∧ length sent = n
    ∧ kept = drop (n * LegacyCapture.CHUNK_SIZE) stream
    ∧ length kept < LegacyCapture.CHUNK_SIZE
    ∧ ∀ i, i < n →
        ∃ mono,
          sent !! i = Some mono
          ∧ Buffer.convertStereoToMono (LegacyCapture.chunk i stream)
            = Some mono
          ∧ length mono = LegacyCapture.CHUNK_SIZE / 2.
Proof.
  intros stream n.
  destruct (CaptureFacts.on_data_spec audioBuffer data)
    as (sent & Hrun & Hlen & Hleft & Hsent).
  exists sent, (drop (n * LegacyCapture.CHUNK_SIZE) stream).
  split; [exact Hrun|]. split; [exact Hlen|]. split; [done|]. split.
  - fold stream n in Hleft. rewrite Hleft.
    apply Nat.mod_upper_bound. pose proof CaptureFacts.CHUNK_SIZE_pos. lia.
  - intros i Hi. destruct (Hsent i Hi) as (mono & Hm & Hc).
    exists mono. split; [exact Hm|]. split; [exact Hc|].
    destruct (CaptureFacts.convert_chunk stream i) as (mono' & Hc' & Hl').
    { assert ((i + 1) * LegacyCapture.CHUNK_SIZE
              ≤ n * LegacyCapture.CHUNK_SIZE) by nia.
      pose proof (Nat.div_mod_eq (length stream) LegacyCapture.CHUNK_SIZE).
      fold n in H0. lia. }
    assert (Some mono = Some mono') as [= ->]
      by (rewrite <- Hc, <- Hc'; reflexivity).
    exact Hl'.
Qed.

(** X5. How the stream of the capture process is cut into deliveries is
    of no consequence: two deliveries one after the other hand on the same
    mono chunks, and keep the same bytes, as one delivery of the bytes of
    both. *)
Theorem capture_independent_of_delivery
    (audioBuffer data more : list Byte.byte) :
  ∃ sent kept sent' kept',
    LegacyCapture.on_data audioBuffer data = Some (sent, kept)
    ∧ LegacyCapture.on_data kept more = Some (sent', kept')
    ∧ LegacyCapture.on_data audioBuffer (data ++ more)
      = Some (sent ++ sent', kept').
Proof.
  pose proof CaptureFacts.CHUNK_SIZE_pos as Hpos.
  destruct (CaptureFacts.on_data_spec audioBuffer data)
    as (sent & Hrun & Hlen & Hleft & Hsent).
  set (stream := audioBuffer ++ data) in *.
  set (n := length stream / LegacyCapture.CHUNK_SIZE) in *.
  set (kept := drop (n * LegacyCapture.CHUNK_SIZE) stream) in *.
  destruct (CaptureFacts.on_data_spec kept more)
    as (sent' & Hrun' & Hlen' & Hleft' & Hsent').
  set (stream' := kept ++ more) in *.
  set (n' := length stream' / LegacyCapture.CHUNK_SIZE) in *.
  pose proof (CaptureFacts.on_data_spec audioBuffer (data ++ more)) as Hboth.
  cbv zeta in Hboth. rewrite app_assoc in Hboth.
  change (audioBuffer ++ data) with stream in Hboth.
  destruct Hboth as (all & Hrun2 & Hlen2 & Hleft2 & Hall).
  exists sent, kept, sent', (drop (n' * LegacyCapture.CHUNK_SIZE) stream').
  split; [exact Hrun|]. split; [exact Hrun'|]. rewrite Hrun2.
  assert (n * LegacyCapture.CHUNK_SIZE ≤ length stream) as Hn.
  { pose proof (Nat.div_mod_eq (length stream) LegacyCapture.CHUNK_SIZE).
    fold n in H. lia. }
  assert (drop (n * LegacyCapture.CHUNK_SIZE) (stream ++ more) = stream')
    as Hdrop.
  { unfold stream', kept. rewrite drop_app_le by lia. done. }
  assert (length (stream ++ more) / LegacyCapture.CHUNK_SIZE = n + n')
    as Hsum.
  { replace (length (stream ++ more))
      with (n * LegacyCapture.CHUNK_SIZE + length stream').
    - rewrite Nat.div_add_l by lia. done.
    - rewrite <- Hdrop, length_drop. rewrite !length_app in *. lia. }
  rewrite Hsum in *.
  f_equal. f_equal.
  - apply list_eq. intros i.
    destruct (decide (i < n)) as [Hi|Hi].
    + destruct (Hall i ltac:(lia)) as (mono & -> & Hc).
      destruct (Hsent i Hi) as (mono1 & Hm1 & Hc1).
      rewrite lookup_app_l by lia. rewrite Hm1. rewrite <- Hc, <- Hc1.
      unfold LegacyCapture.chunk. rewrite drop_app_le by nia.
      rewrite take_app_le; [done|]. rewrite length_drop. nia.
    + rewrite lookup_app_r by lia. rewrite Hlen.
      destruct (decide (i - n < n')) as [Hi'|Hi'].
      * destruct (Hall i ltac:(lia)) as (mono & -> & Hc).
        destruct (Hsent' (i - n) Hi') as (mono1 & -> & Hc1).
        rewrite <- Hc, <- Hc1. unfold LegacyCapture.chunk.
        rewrite <- Hdrop, drop_drop. do 3 f_equal; nia.
      * rewrite !lookup_ge_None_2 by lia. done.
  - rewrite <- Hdrop, drop_drop. f_equal; lia.
Qed.

(** ** What the handlers check first *)

(** A payload that is missing or is no string is falsy or fails the test of
    its type. *)
Lemma invalid_payload (v : Js.value) :
  Js.truthy v = false ∨ Js.is_string v = false →
  negb (Js.truthy v) || negb (Js.is_string v) = true.
Proof. intros [-> | ->]; [done|]. by rewrite orb_true_r. Qed.

(** X6. [send-text-message] turns away a text that is missing, is no
    string, or is blank once trimmed, and [send-image-content] a payload
    that is missing, empty or no string, before the provider is read:
    whatever the provider and the sessions, the answer is
    [{success: false}] with the message of the handler, and the state, the
    trace of effects included, is as it was. *)
Theorem senders_reject_invalid_payload
    (base64ByteLength : string → nat) (payload : Js.value) (w : World)
    (s : Sys) :
  (Js.truthy payload = false ∨ Js.is_string payload = false
   ∨ Js.trim (Js.str payload) = "" →
   send_text_message payload w s
   = (Returns (IpcFailure "Invalid text message"), s))
  ∧ (Js.truthy payload = false ∨ Js.is_string payload = false →
     send_image_content base64ByteLength payload w s
     = (Returns (IpcFailure "Invalid image data"), s)).
Proof.
  split.
  - intros Hbad.
    assert (negb (Js.truthy payload) || negb (Js.is_string payload)
            || (String.length (Js.trim (Js.str payload)) =? 0) = true)
      as Hguard.
    { destruct Hbad as [Hbad | [Hbad | Hbad]].
      - by rewrite Hbad.
      - rewrite Hbad. simpl. by rewrite orb_true_r.
      - rewrite Hbad. by rewrite orb_true_r. }
    unfold send_text_message, handler, try_catch. by rewrite Hguard.
  - intros Hbad. unfold send_image_content, handler, try_catch.
    by rewrite (invalid_payload payload Hbad).
Qed.

Lemma senders_reject_invalid_payload_witness :
  send_text_message (Js.VStr "  ")
    (world_of (Some "openrouter") (AxiosOk (Some "hi"))) one_session
  = (Returns (IpcFailure "Invalid text message"), one_session)
  ∧ send_image_content demo_base64ByteLength (Js.VNum 7)
      (world_of (Some "openrouter") (AxiosOk (Some "hi"))) one_session
    = (Returns (IpcFailure "Invalid image data"), one_session).
Proof.
  split.
  - apply (senders_reject_invalid_payload demo_base64ByteLength
             (Js.VStr "  ")
             (world_of (Some "openrouter") (AxiosOk (Some "hi")))
             one_session).
    right. right. reflexivity.
  - apply (senders_reject_invalid_payload demo_base64ByteLength (Js.VNum 7)
             (world_of (Some "openrouter") (AxiosOk (Some "hi")))
             one_session).
    right. reflexivity.
Defined.

(** ** Audio *)

(** X7. While the provider is openrouter, the two other audio handlers do
    as [send-audio-content] does: [send-mic-audio-content] and
    [start-macos-audio] answer [{success: false}] with a message that names
    OpenRouter, whatever the payload, the platform and the sessions; the
    capture is not started, and the state, the trace of effects included, is
    as it was. *)
Theorem audio_handlers_refuse_openrouter
    (data : Js.value) (mimeType platform : string)
    (startMacOSAudioCapture : Outcome bool) (w : World) (s : Sys) :
  provider w s = Returns "openrouter" →
  send_mic_audio_content data mimeType w s
  = (Returns (IpcFailure "Audio input not supported with OpenRouter model."),
     s)
  ∧ start_macos_audio platform startMacOSAudioCapture w s
    = (Returns (CaptureRefused
                  "Audio capture not supported with OpenRouter model."), s).
Proof.
  intros Hp. apply provider_run in Hp.
  unfold send_mic_audio_content, start_macos_audio, handler, try_catch,
    mbind, M_bind.
  rewrite Hp. split; reflexivity.
Qed.

Lemma audio_handlers_refuse_openrouter_witness :
  send_mic_audio_content (Js.VStr "AAAA") "audio/pcm;rate=24000"
    (world_of (Some "OpenRouter") (AxiosOk None)) one_session
  = (Returns (IpcFailure "Audio input not supported with OpenRouter model."),
     one_session)
  ∧ start_macos_audio "darwin" (Returns true)
      (world_of (Some "OpenRouter") (AxiosOk None)) one_session
    = (Returns (CaptureRefused
                  "Audio capture not supported with OpenRouter model."),
       one_session).
Proof.
  apply (audio_handlers_refuse_openrouter (Js.VStr "AAAA")
           "audio/pcm;rate=24000" "darwin" (Returns true)
           (world_of (Some "OpenRouter") (AxiosOk None)) one_session).
  reflexivity.
Defined.

(** X8. With any other provider, [send-audio-content] and
    [send-mic-audio-content] look at the Gemini session before they look at
    the payload: without a session they answer 'No active Gemini session'
    whatever the payload, with a session they turn away a payload that is
    missing or no string, both without any effect; a payload that is a
    string goes to the session in the slot, as audio of the given type or of
    'audio/pcm;rate=24000' when none is given, and the answer is the
    SDK's. *)
Theorem audio_goes_to_gemini_session
    (data : Js.value) (mimeType p : string) (w : World) (s : Sys) :
  provider w s = Returns p → p ≠ "openrouter" →
  match geminiSessionRef s with
  | None =>
      send_audio_content data mimeType w s
      = (Returns (IpcFailure "No active Gemini session"), s)
      ∧ send_mic_audio_content data mimeType w s
        = (Returns (IpcFailure "No active Gemini session"), s)
  | Some g =>
      if negb (Js.truthy data) || negb (Js.is_string data)
      then
        send_audio_content data mimeType w s
        = (Returns (IpcFailure "Invalid audio data"), s)
        ∧ send_mic_audio_content data mimeType w s
          = (Returns (IpcFailure "Invalid microphone audio data"), s)
      else
        let sent :=
          set_trace
            (trace s
             ++ [GeminiSendRealtimeInput g
                   (InAudio (Js.str data)
                      (if Js.nonempty mimeType then mimeType
                       else "audio/pcm;rate=24000"))]) s in
        send_audio_content data mimeType w s
        = (Returns (sdk_answer (gemini_sendRealtimeInput w)), sent)
        ∧ send_mic_audio_content data mimeType w s
          = (Returns (sdk_answer (gemini_sendRealtimeInput w)), sent)
  end.
Proof.
  intros Hp Hne. apply provider_run in Hp.
  apply String.eqb_neq in Hne.
  unfold send_audio_content, send_mic_audio_content, handler, try_catch,
    mbind, M_bind.
  rewrite Hp, Hne. unfold gets.
  destruct (geminiSessionRef s) as [g|]; [|split; reflexivity].
  destruct (negb (Js.truthy data) || negb (Js.is_string data));
    [split; reflexivity|].
  unfold geminiSend, emit, modify, settle, mbind, M_bind, Js.or_else.
  destruct (gemini_sendRealtimeInput w) as [[]|e]; split; reflexivity.
Qed.

Lemma audio_goes_to_gemini_session_witness :
  let w := world_of (Some "gemini") (AxiosOk None) in
  let s := set_geminiSessionRef (Some (GeminiHandle 0)) one_session in
  let sent :=
    set_trace
      (trace s
       ++ [GeminiSendRealtimeInput (GeminiHandle 0)
             (InAudio "AAAA" "audio/pcm;rate=24000")]) s in
  send_audio_content (Js.VStr "AAAA") "" w s
  = (Returns (IpcSuccess NoData), sent)
  ∧ send_mic_audio_content (Js.VStr "AAAA") "" w s
    = (Returns (IpcSuccess NoData), sent).
Proof.
  apply (audio_goes_to_gemini_session (Js.VStr "AAAA") "" "gemini"
           (world_of (Some "gemini") (AxiosOk None))
           (set_geminiSessionRef (Some (GeminiHandle 0)) one_session)).
  - vm_compute. reflexivity.
  - discriminate.
Defined.

(** ** The OpenRouter path of the unified handlers *)

(** The provider is read as something else than gemini only from a window
    whose script has run. *)
Lemma provider_script w s p :
  provider w s = Returns p → p ≠ "gemini" →
  executeJavaScript_rejects w = None.
Proof.
  intros Hp Hne. destruct (executeJavaScript_rejects w) as [e|] eqn:He;
    [|done].
  exfalso. apply Hne. revert Hp.
  unfold provider, outcome_of, getCurrentModelType, try_catch, settle,
    storage_item, gets, ret, mbind, M_bind.
  rewrite He. destruct (0 <? windows s); simpl; congruence.
Qed.

(** The model a session is given: the one the renderer has stored, or the
    default; never the empty string. *)
Lemma stored_model w :
  executeJavaScript_rejects w = None →
  ∃ mdl,
    storage_item w "openRouterModel" "anthropic/claude-3.5-sonnet"
    = Returns mdl
    ∧ Js.nonempty mdl = true
    ∧ mdl = match localStorage w "openRouterModel" with
            | Returns (Some v) =>
                if Js.nonempty v then v else "anthropic/claude-3.5-sonnet"
            | _ => "anthropic/claude-3.5-sonnet"
            end.
Proof.
  intros Hrun. unfold storage_item. rewrite Hrun.
  destruct (localStorage w "openRouterModel") as [[v|]|e];
    eexists; (split; [reflexivity|]); (split; [|reflexivity]);
    try reflexivity.
  unfold Js.or_else. by destruct (Js.nonempty v) eqn:Hv.
Qed.

(** A fresh initialisation that is let in: what it returns and every
    variable it leaves. *)
Lemma initializeOpenRouterSession_fresh
    (getSystemPrompt : string → string → bool → string)
    (key mdl customPrompt prof lang : string) (s : Sys) :
  isInitializingSession s = false →
  let r := initializeOpenRouterSession getSystemPrompt key mdl customPrompt
             prof lang false s in
  r.1 = Returns (Some (length (heap s)))
  ∧ heap r.2
    = heap s ++ [ {| apiKey := key; model := mdl;
                     systemPrompt := getSystemPrompt prof customPrompt true;
                     profile := prof; language := lang; active := true |} ]
  ∧ isInitializingSession r.2 = false
  ∧ conversationHistory r.2 = []
  ∧ currentSessionId r.2 = Some (toString (clock s (clockReads s)))
  ∧ lastSessionParams r.2
    = Some {| p_apiKey := key; p_model := mdl;
              p_customPrompt := customPrompt; p_profile := prof;
              p_language := lang |}
  ∧ reconnectionAttempts r.2 = 0
  ∧ openRouterSessionRef r.2 = openRouterSessionRef s
  ∧ geminiSessionRef r.2 = geminiSessionRef s
  ∧ windows r.2 = windows s
  ∧ clock r.2 = clock s
  ∧ clockReads r.2 = S (clockReads s).
Proof. intros Hfree. exec s; vm_compute; repeat split. Qed.

(** [initialize-model] under the openrouter provider with a key it
    accepts: the session of the adapter goes into the slot. *)
Lemma initialize_model_openrouter
    (getSystemPrompt : string → string → bool → string)
    (key customPrompt prof lang : string) (w : World) (s : Sys) mdl :
  provider w s = Returns "openrouter" → Js.trim key ≠ "" →
  storage_item w "openRouterModel" "anthropic/claude-3.5-sonnet"
  = Returns mdl →
  isInitializingSession s = false →
  initialize_model getSystemPrompt (Js.VStr key) customPrompt prof lang w s
  = (Returns (IpcSuccess NoData),
     set_openRouterSessionRef (Some (length (heap s)))
       (state_after
          (initializeOpenRouterSession getSystemPrompt (Js.trim key) mdl
             customPrompt prof lang false) s)).
Proof.
  intros Hp Hkey Hmdl Hfree. apply provider_run in Hp.
  destruct (initializeOpenRouterSession_fresh getSystemPrompt (Js.trim key)
              mdl customPrompt prof lang s Hfree) as (Hret & _).
  unfold initialize_model, handler, try_catch, mbind, M_bind. simpl.
  rewrite (trim_nonempty key Hkey), (length_nonzero _ Hkey). simpl.
  rewrite Hp. simpl. unfold settle. rewrite Hmdl. unfold state_after.
  destruct (initializeOpenRouterSession _ _ _ _ _ _ _ s) as [o s1].
  simpl in Hret. subst o. reflexivity.
Qed.

(** X9. Under the openrouter provider, [initialize-model] with a key that
    is not blank, called while no other initialisation is in flight,
    succeeds and leaves in the OpenRouter slot a new session that the
    senders accept: it is active, its key is the trimmed key, and its model
    is the one the renderer has stored or, when none is stored,
    'anthropic/claude-3.5-sonnet', never the empty string.  The log starts
    anew, the parameters are remembered, and the objects of earlier sessions
    and the Gemini slot are as they were. *)
Theorem initialize_model_opens_usable_session
    (getSystemPrompt : string → string → bool → string)
    (key customPrompt prof lang : string) (w : World) (s : Sys) :
  provider w s = Returns "openrouter" → Js.trim key ≠ "" →
  isInitializingSession s = false →
  let mdl :=
    match localStorage w "openRouterModel" with
    | Returns (Some v) =>
        if Js.nonempty v then v else "anthropic/claude-3.5-sonnet"
    | _ => "anthropic/claude-3.5-sonnet"
    end in
  let session :=
    {| apiKey := Js.trim key; model := mdl;
       systemPrompt := getSystemPrompt prof customPrompt true;
       profile := prof; language := lang; active := true |} in
  let call :=
    initialize_model getSystemPrompt (Js.VStr key) customPrompt prof lang w in
  outcome_of call s = Returns (IpcSuccess NoData)
  ∧ heap (state_after call s) = heap s ++ [session]
  ∧ deref (openRouterSessionRef (state_after call s)) (state_after call s)
    = Some session
  ∧ unusable (Some session) = false
  ∧ conversationHistory (state_after call s) = []
  ∧ currentSessionId (state_after call s)
    = Some (toString (clock s (clockReads s)))
  ∧ lastSessionParams (state_after call s)
    = Some {| p_apiKey := Js.trim key; p_model := mdl;
              p_customPrompt := customPrompt; p_profile := prof;
              p_language := lang |}
  ∧ geminiSessionRef (state_after call s) = geminiSessionRef s
  ∧ isInitializingSession (state_after call s) = false.
Proof.
  intros Hp Hkey Hfree mdl session call.
  destruct (stored_model w) as (mdl' & Hmdl & Hfull & Heq).
  { apply (provider_script w s "openrouter"); [exact Hp | discriminate]. }
  fold mdl in Heq. subst mdl'.
  destruct (initializeOpenRouterSession_fresh getSystemPrompt (Js.trim key)
              mdl customPrompt prof lang s Hfree)
    as (_ & Hheap & Hidle & Hhist & Hid & Hparams & _ & _ & Hgem & _).
  unfold call, outcome_of, state_after.
  rewrite (initialize_model_openrouter getSystemPrompt key customPrompt prof
             lang w s mdl Hp Hkey Hmdl Hfree).
  unfold state_after. simpl.
  split; [reflexivity|]. split; [exact Hheap|]. split.
  { change (heap (initializeOpenRouterSession getSystemPrompt (Js.trim key)
                    mdl customPrompt prof lang false s).2
            !! length (heap s) = Some session).
    rewrite Hheap. rewrite lookup_app_r by lia.
    by rewrite Nat.sub_diag. }
  split.
  { simpl. rewrite Hfull. by destruct (Js.trim key). }
  rewrite Hhist, Hid, Hparams, Hgem, Hidle. repeat split.
Qed.

Lemma initialize_model_opens_usable_session_witness :
  let w := world_of (Some "openrouter") (AxiosOk None) in
  let s := initial 1 (ticking 1700000000000) in
  let session :=
    {| apiKey := "sk-key"; model := "anthropic/claude-3.5-sonnet";
       systemPrompt := "interview: "; profile := "interview";
       language := "en-US"; active := true |} in
  let call :=
    initialize_model demo_prompt (Js.VStr " sk-key ") "" "interview" "en-US"
      w in
  outcome_of call s = Returns (IpcSuccess NoData)
  ∧ heap (state_after call s) = heap s ++ [session]
  ∧ deref (openRouterSessionRef (state_after call s)) (state_after call s)
    = Some session
  ∧ unusable (Some session) = false
  ∧ conversationHistory (state_after call s) = []
  ∧ currentSessionId (state_after call s)
    = Some (toString (clock s (clockReads s)))
  ∧ lastSessionParams (state_after call s)
    = Some {| p_apiKey := "sk-key";
              p_model := "anthropic/claude-3.5-sonnet";
              p_customPrompt := ""; p_profile := "interview";
              p_language := "en-US" |}
  ∧ geminiSessionRef (state_after call s) = geminiSessionRef s
  ∧ isInitializingSession (state_after call s) = false.
Proof.
  apply (initialize_model_opens_usable_session demo_prompt " sk-key " ""
           "interview" "en-US" (world_of (Some "openrouter") (AxiosOk None))
           (initial 1 (ticking 1700000000000))).
  - vm_compute. reflexivity.
  - vm_compute. discriminate.
  - reflexivity.
Defined.

(** A send under the openrouter provider with a usable session in the
    slot: the request is handed to the HTTP client, and what it settles to
    is dealt with. *)
Lemma send_text_message_openrouter text w s obj :
  provider w s = Returns "openrouter" → Js.trim text ≠ "" →
  deref (openRouterSessionRef s) s = Some obj →
  unusable (Some obj) = false →
  send_text_message (Js.VStr text) w s
  = handler
      (sendText_response (Js.trim text) (axios_post w);;
       ret (IpcSuccess NoData))
      (after_effect (text_request obj (Js.trim text)) s).
Proof.
  intros Hp Htext Hobj Huse. apply provider_run in Hp.
  assert (active obj = true) as Hactive.
  { simpl in Huse. destruct (active obj); [done|].
    by rewrite orb_true_r in Huse. }
  unfold send_text_message, handler, try_catch, mbind, M_bind. simpl.
  rewrite (trim_nonempty text Htext), (length_nonzero _ Htext). simpl.
  rewrite Hp. simpl. unfold gets. rewrite Hobj. simpl. rewrite Hactive.
  simpl.
  unfold sendTextToOpenRouter, sendText_request, gets, mbind, M_bind.
  rewrite Hobj, Huse. reflexivity.
Qed.

Lemma send_image_content_openrouter base64ByteLength data w s obj :
  provider w s = Returns "openrouter" → data ≠ "" →
  deref (openRouterSessionRef s) s = Some obj →
  unusable (Some obj) = false →
  send_image_content base64ByteLength (Js.VStr data) w s
  = handler
      (sendImage_response (axios_post w);; ret (IpcSuccess NoData))
      (after_effect (image_request obj data) s).
Proof.
  intros Hp Hdata Hobj Huse. apply provider_run in Hp.
  assert (active obj = true) as Hactive.
  { simpl in Huse. destruct (active obj); [done|].
    by rewrite orb_true_r in Huse. }
  unfold send_image_content, handler, try_catch, mbind, M_bind.
  destruct data as [|a data]; [done|]. simpl.
  rewrite Hp. simpl. unfold gets. rewrite Hobj. simpl. rewrite Hactive.
  simpl.
  unfold sendImageToOpenRouter, sendImage_request, gets, mbind, M_bind.
  rewrite Hobj, Huse. reflexivity.
Qed.

(** The message of a failure is never empty. *)
Lemma error_message_nonempty response_error message :
  Js.nonempty (error_message response_error message) = true.
Proof.
  unfold error_message, Js.or_else.
  destruct (Js.nonempty (default "" response_error)) eqn:H1; [exact H1|].
  destruct (Js.nonempty message) eqn:H2; [exact H2 | reflexivity].
Qed.

(** X10. When the request of a send fails (the provider is openrouter, the
    payload is accepted and the session in the slot is usable),
    [send-text-message] and [send-image-content] answer [{success: false}]
    with the message of the response body if it has one, else the message
    of the error, else 'Unknown error', never an empty message.  The state
    differs from the one before by two effects only: the request and, if a
    window is open, the status 'Error: ...' sent to the renderer; no turn is
    recorded and the session stays as it was. *)
Theorem failed_send_is_reported
    (base64ByteLength : string → nat) (text data : string) (w : World)
    (s : Sys) (obj : SessionObj) (response_error : option string)
    (message : string) :
  provider w s = Returns "openrouter" →
  deref (openRouterSessionRef s) s = Some obj →
  unusable (Some obj) = false →
  axios_post w = AxiosErr response_error message →
  Js.trim text ≠ "" → data ≠ "" →
  let error :=
    match response_error with
    | Some e => if Js.nonempty e then e
                else if Js.nonempty message then message
                     else "Unknown error"
    | None => if Js.nonempty message then message else "Unknown error"
    end in
  Js.nonempty error = true
  ∧ send_text_message (Js.VStr text) w s
    = (Returns (IpcFailure error),
       notified "update-status" (PText ("Error: " +:+ error))
         (after_effect (text_request obj (Js.trim text)) s))
  ∧ send_image_content base64ByteLength (Js.VStr data) w s
    = (Returns (IpcFailure error),
       notified "update-status" (PText ("Error: " +:+ error))
         (after_effect (image_request obj data) s)).
Proof.
  intros Hp Hobj Huse Hr Htext Hdata error.
  assert (error = error_message response_error message) as ->.
  { unfold error, error_message, Js.or_else.
    destruct response_error as [e|]; reflexivity. }
  split; [apply error_message_nonempty|]. split.
  - rewrite (send_text_message_openrouter text w s obj Hp Htext Hobj Huse).
    unfold handler, try_catch, sendText_response, mbind, M_bind.
    rewrite Hr, sendToRenderer_run. reflexivity.
  - rewrite (send_image_content_openrouter base64ByteLength data w s obj Hp
               Hdata Hobj Huse).
    unfold handler, try_catch, sendImage_response, mbind, M_bind.
    rewrite Hr, sendToRenderer_run. reflexivity.
Qed.

Lemma failed_send_is_reported_witness :
  let w := world_of (Some "openrouter") (AxiosErr None "timeout") in
  let obj :=
    {| apiKey := "sk-key"; model := "m1"; systemPrompt := "interview: ";
       profile := "interview"; language := "en-US"; active := true |} in
  Js.nonempty "timeout" = true
  ∧ send_text_message (Js.VStr "hello") w one_session
    = (Returns (IpcFailure "timeout"),
       notified "update-status" (PText "Error: timeout")
         (after_effect (text_request obj (Js.trim "hello")) one_session))
  ∧ send_image_content demo_base64ByteLength (Js.VStr "AAAA") w one_session
    = (Returns (IpcFailure "timeout"),
       notified "update-status" (PText "Error: timeout")
         (after_effect (image_request obj "AAAA") one_session)).
Proof.
  apply (failed_send_is_reported demo_base64ByteLength "hello" "AAAA"
           (world_of (Some "openrouter") (AxiosErr None "timeout"))
           one_session
           {| apiKey := "sk-key"; model := "m1"; systemPrompt := "interview: ";
              profile := "interview"; language := "en-US"; active := true |}
           None "timeout").
  - vm_compute. reflexivity.
  - vm_compute. reflexivity.
  - reflexivity.
  - reflexivity.
  - vm_compute. discriminate.
  - discriminate.
Defined.


(** ** A session from its start to its log *)

(** The provider that is read depends on the windows and on the renderer
    only. *)
Lemma provider_windows w s s' :
  windows s' = windows s → provider w s' = provider w s.
Proof.
  intros Hw.
  unfold provider, outcome_of, getCurrentModelType, try_catch, gets, settle,
    mbind, M_bind.
  cbv beta iota. rewrite Hw. destruct (0 <? windows s); [|done].
  by destruct (storage_item w "modelType" "gemini").
Qed.

Lemma notified_frame channel data s :
  windows (notified channel data s) = windows s
  ∧ clock (notified channel data s) = clock s
  ∧ clockReads (notified channel data s) = clockReads s
  ∧ heap (notified channel data s) = heap s
  ∧ openRouterSessionRef (notified channel data s) = openRouterSessionRef s.
Proof. unfold notified. destruct (0 <? windows s); repeat split. Qed.

Lemma saveConversationTurn_windows tr ai :
  preserves (fixes windows) (saveConversationTurn tr ai).
Proof. frame. Qed.

(** A send that is answered: the reply is shown and the turn recorded. *)
Lemma send_text_message_answered text reply w s obj :
  provider w s = Returns "openrouter" → Js.trim text ≠ "" →
  deref (openRouterSessionRef s) s = Some obj →
  unusable (Some obj) = false →
  axios_post w = AxiosOk (Some reply) → reply ≠ "" →
  send_text_message (Js.VStr text) w s
  = (Returns (IpcSuccess NoData),
     state_after (saveConversationTurn (Js.trim text) reply)
       (notified "update-response" (PText reply)
          (after_effect (text_request obj (Js.trim text)) s))).
Proof.
  intros Hp Htext Hobj Huse Hr Hreply.
  rewrite (send_text_message_openrouter text w s obj Hp Htext Hobj Huse).
  unfold handler, try_catch, sendText_response, mbind, M_bind.
  rewrite Hr. simpl default.
  assert (Js.or_else reply "" = reply) as ->
    by (unfold Js.or_else; by destruct reply).
  rewrite sendToRenderer_run.
  assert (Js.nonempty (Js.trim text) && Js.nonempty reply = true) as ->.
  { destruct (Js.trim text); [done|]. by destruct reply. }
  unfold when, state_after.
  pose proof (saveConversationTurn_returns (Js.trim text) reply
                (notified "update-response" (PText reply)
                   (after_effect (text_request obj (Js.trim text)) s)))
    as Hret.
  unfold outcome_of in Hret.
  destruct (saveConversationTurn _ _ _) as [[[]|e] s2]; simpl in *;
    [reflexivity | discriminate].
Qed.

(** X11. A session from its start to its log.  Under the openrouter
    provider, with no other initialisation in flight: [initialize-model]
    with a key that is not blank, then [send-text-message] with a text that
    is not blank whose request is answered by a reply that is not empty,
    both succeed; [get-current-session] then answers the id minted at the
    initialisation and a log of exactly one turn, which holds the reply,
    trimmed, the text as it was sent (trimmed by the handler, and once more,
    to no effect, when the turn is recorded) and the reading of the clock
    that followed the one of the id. *)
Theorem session_is_logged
    (getSystemPrompt : string → string → bool → string)
    (key customPrompt prof lang text reply : string) (w : World) (s : Sys) :
  provider w s = Returns "openrouter" →
  isInitializingSession s = false →
  Js.trim key ≠ "" → Js.trim text ≠ "" →
  axios_post w = AxiosOk (Some reply) → reply ≠ "" →
  let initialize :=
    initialize_model getSystemPrompt (Js.VStr key) customPrompt prof lang w in
  let send := send_text_message (Js.VStr text) w in
  let started := state_after initialize s in
  let sent := state_after send started in
  outcome_of initialize s = Returns (IpcSuccess NoData)
  ∧ outcome_of send started = Returns (IpcSuccess NoData)
  ∧ get_current_session w sent
    = (Returns
         (IpcSuccess
            (SessionData (Some (toString (clock s (clockReads s))))
               [ {| timestamp := clock s (S (clockReads s));
                    transcription := Js.trim text;
                    ai_response := Js.trim reply |} ])),
       sent).
Proof.
  intros Hp Hfree Hkey Htext Hr Hreply initialize send started sent.
  destruct (stored_model w) as (mdl & Hmdl & Hfull & _).
  { apply (provider_script w s "openrouter"); [exact Hp | discriminate]. }
  pose proof (initialize_model_openrouter getSystemPrompt key customPrompt
                prof lang w s mdl Hp Hkey Hmdl Hfree) as Hinit.
  destruct (initializeOpenRouterSession_fresh getSystemPrompt (Js.trim key)
              mdl customPrompt prof lang s Hfree)
    as (_ & Hheap & _ & Hhist & Hid & _ & _ & _ & _ & Hwin & Hclock & Hreads).
  set (obj := {| apiKey := Js.trim key; model := mdl;
                 systemPrompt := getSystemPrompt prof customPrompt true;
                 profile := prof; language := lang; active := true |}) in *.
  assert (started
          = set_openRouterSessionRef (Some (length (heap s)))
              (state_after
                 (initializeOpenRouterSession getSystemPrompt (Js.trim key)
                    mdl customPrompt prof lang false) s)) as Hstarted.
  { unfold started, initialize, state_after. by rewrite Hinit. }
  unfold state_after in Hstarted.
  assert (provider w started = Returns "openrouter") as Hp1.
  { rewrite <- Hp. apply provider_windows. rewrite Hstarted. exact Hwin. }
  assert (deref (openRouterSessionRef started) started = Some obj) as Hobj.
  { rewrite Hstarted.
    change (heap (initializeOpenRouterSession getSystemPrompt (Js.trim key)
                    mdl customPrompt prof lang false s).2
            !! length (heap s) = Some obj).
    rewrite Hheap, lookup_app_r by lia. by rewrite Nat.sub_diag. }
  assert (unusable (Some obj) = false) as Huse.
  { simpl. rewrite Hfull. by destruct (Js.trim key). }
  pose proof (send_text_message_answered text reply w started obj Hp1 Htext
                Hobj Huse Hr Hreply) as Hsend.
  set (shown := notified "update-response" (PText reply)
                  (after_effect (text_request obj (Js.trim text)) started))
    in *.
  destruct (notified_log "update-response" (PText reply)
              (after_effect (text_request obj (Js.trim text)) started))
    as [Hh Hi].
  destruct (notified_frame "update-response" (PText reply)
              (after_effect (text_request obj (Js.trim text)) started))
    as (Hw & Hc & Hn & _ & _).
  fold shown in Hh, Hi, Hw, Hc, Hn. simpl in Hh, Hi, Hw, Hc, Hn.
  assert (currentSessionId started
          = Some (toString (clock s (clockReads s)))) as Hid1
    by (rewrite Hstarted; exact Hid).
  assert (conversationHistory started = []) as Hhist1
    by (rewrite Hstarted; exact Hhist).
  assert (no_session_id (currentSessionId shown) = false) as Hsome.
  { rewrite Hi, Hid1. simpl. by rewrite toString_nonempty. }
  assert (sent = state_after (saveConversationTurn (Js.trim text) reply) shown)
    as Hsent.
  { unfold sent, send, state_after. by rewrite Hsend. }
  split; [unfold outcome_of, initialize; by rewrite Hinit|].
  split; [unfold outcome_of, send; by rewrite Hsend|].
  assert (provider w sent = Returns "openrouter") as Hp2.
  { rewrite <- Hp1. apply provider_windows. rewrite Hsent.
    pose proof (saveConversationTurn_windows (Js.trim text) reply shown)
      as Hsw.
    unfold fixes in Hsw. unfold state_after. rewrite Hsw. exact Hw. }
  apply provider_run in Hp2.
  unfold get_current_session, handler, try_catch, getCurrentSessionData,
    mbind, M_bind.
  rewrite Hp2. simpl. unfold gets, ret. simpl.
  rewrite Hsent, saveConversationTurn_id, saveConversationTurn_history.
  rewrite Hsome, Hi, Hh, Hid1, Hhist1, Hc, Hn. simpl.
  rewrite Hstarted. simpl. rewrite Hclock, Hreads.
  rewrite TrimFacts.trim_idempotent. reflexivity.
Qed.

Lemma session_is_logged_witness :
  let w := world_of (Some "openrouter") (AxiosOk (Some "hi ")) in
  let s := initial 1 (ticking 1700000000000) in
  let initialize :=
    initialize_model demo_prompt (Js.VStr "sk-key") "" "interview" "en-US" w in
  let send := send_text_message (Js.VStr " hello") w in
  let started := state_after initialize s in
  let sent := state_after send started in
  outcome_of initialize s = Returns (IpcSuccess NoData)
  ∧ outcome_of send started = Returns (IpcSuccess NoData)
  ∧ get_current_session w sent
    = (Returns
         (IpcSuccess
            (SessionData (Some "1700000000000")
               [ {| timestamp := 1700000000001;
                    transcription := "hello";
                    ai_response := "hi" |} ])),
       sent).
Proof.
  apply (session_is_logged demo_prompt "sk-key" "" "interview" "en-US"
           " hello" "hi "
           (world_of (Some "openrouter") (AxiosOk (Some "hi ")))
           (initial 1 (ticking 1700000000000))).
  - vm_compute. reflexivity.
  - reflexivity.
  - vm_compute. discriminate.
  - vm_compute. discriminate.
  - reflexivity.
  - discriminate.
Defined.

(** ** One provider at a time *)

Global Instance adds_only_preorder kind : PreOrder (adds_only kind).
Proof.
  split; unfold adds_only.
  - intros s. exists []. split; [by rewrite app_nil_r | constructor].
  - intros s1 s2 s3 (r1 & H1 & F1) (r2 & H2 & F2). exists (r1 ++ r2).
    split; [by rewrite H2, H1, app_assoc | by apply Forall_app].
Qed.

Global Instance both_preorder R1 R2 `{!PreOrder R1, !PreOrder R2} :
  PreOrder (both R1 R2).
Proof.
  split.
  - intros s. split; reflexivity.
  - intros s1 s2 s3 [H1 H2] [H3 H4]. split; etransitivity; eassumption.
Qed.

(** A handler that reads the provider first goes on as the provider
    says. *)
Lemma under_provider {A} (R : relation Sys) (k : string → M A) w s p :
  provider w s = Returns p →
  preserves R (k p) → R s ((getCurrentModelType w ≫= k) s).2.
Proof.
  intros Hp Hk. apply provider_run in Hp.
  unfold mbind, M_bind. rewrite Hp. apply Hk.
Qed.

(** For a part of the state and a kind of effect: a write elsewhere, or an
    effect of the kind. *)
Ltac kept_leaf :=
  first [ apply preserves_modify; intros ?; split;
          [ reflexivity
          | first [ eexists [_]; split; [reflexivity | by repeat constructor]
                  | exists []; split;
                    [symmetry; apply app_nil_r | constructor] ] ]
        | intros ?; split;
          [ reflexivity
          | exists []; split; [symmetry; apply app_nil_r | constructor] ] ].

Ltac routed_call Hp :=
  unfold state_after, sendImageMessage;
  repeat first
    [ rewrite handler_state
    | progress unfold initialize_model, send_text_message,
        send_image_content, send_audio_content, get_current_session,
        start_new_session
    | match goal with
      | |- _ _ ((if ?g then _ else _) _).2 => destruct g; [reflexivity|]
      end ];
  match goal with
  | |- ?R _ _ => apply (under_provider R _ _ _ _ Hp)
  end;
  cbv beta.

(** X12. A handler that finds a provider other than openrouter leaves the
    OpenRouter side alone: the session objects, the OpenRouter slot, the
    log with its id, the stored parameters and the flags are as they were,
    and no request goes to OpenRouter.  This holds for [initialize-model],
    the three senders, [get-current-session], [start-new-session] and the
    renderer's image sender, in every state and for every argument. *)
Theorem other_provider_leaves_openrouter
    (getSystemPrompt : string → string → bool → string)
    (base64ByteLength : string → nat)
    (c : Call) (w : World) (s : Sys) (p : string) :
  routed c = Some w → provider w s = Returns p → p ≠ "openrouter" →
  let s' := perform getSystemPrompt base64ByteLength c s in
  openrouter_part s' = openrouter_part s
  ∧ adds_only (λ e, negb (is_openrouter_call e)) s s'.
Proof.
  intros Hc Hp Hne s'. subst s'. apply String.eqb_neq in Hne.
  change (both (fixes openrouter_part)
            (adds_only (λ e, negb (is_openrouter_call e)))
            s (perform getSystemPrompt base64ByteLength c s)).
  destruct c; try discriminate; injection Hc as ->; cbv delta [perform];
    cbv beta iota; routed_call Hp; rewrite Hne;
    preserve_with kept_leaf ltac:(autounfold with ops).
Qed.

(** X13. A handler that finds the openrouter provider leaves the Gemini
    side alone: the Gemini slot is as it was and nothing is asked of the
    Gemini SDK, for the same handlers, in every state and for every
    argument. *)
Theorem openrouter_provider_leaves_gemini
    (getSystemPrompt : string → string → bool → string)
    (base64ByteLength : string → nat)
    (c : Call) (w : World) (s : Sys) :
  routed c = Some w → provider w s = Returns "openrouter" →
  let s' := perform getSystemPrompt base64ByteLength c s in
  geminiSessionRef s' = geminiSessionRef s
  ∧ adds_only (λ e, negb (is_gemini_call e)) s s'.
Proof.
  intros Hc Hp s'. subst s'.
  change (both (fixes geminiSessionRef)
            (adds_only (λ e, negb (is_gemini_call e)))
            s (perform getSystemPrompt base64ByteLength c s)).
  destruct c; try discriminate; injection Hc as ->; cbv delta [perform];
    cbv beta iota; routed_call Hp; rewrite String.eqb_refl;
    preserve_with kept_leaf open_calls.
Qed.

Lemma other_provider_leaves_openrouter_witness :
  let w := world_of (Some "gemini") (AxiosOk (Some "hi")) in
  let s := set_geminiSessionRef (Some (GeminiHandle 0)) one_session in
  let s' :=
    perform demo_prompt demo_base64ByteLength
      (SendTextMessage (Js.VStr "hello") w) s in
  openrouter_part s' = openrouter_part s
  ∧ adds_only (λ e, negb (is_openrouter_call e)) s s'.
Proof.
  apply (other_provider_leaves_openrouter demo_prompt demo_base64ByteLength
           (SendTextMessage (Js.VStr "hello")
              (world_of (Some "gemini") (AxiosOk (Some "hi"))))
           (world_of (Some "gemini") (AxiosOk (Some "hi")))
           (set_geminiSessionRef (Some (GeminiHandle 0)) one_session)
           "gemini").
  - reflexivity.
  - vm_compute. reflexivity.
  - discriminate.
Defined.

Lemma openrouter_provider_leaves_gemini_witness :
  let w := world_of (Some "openrouter") (AxiosOk (Some "hi")) in
  let s := set_geminiSessionRef (Some (GeminiHandle 0)) one_session in
  let s' :=
    perform demo_prompt demo_base64ByteLength
      (SendTextMessage (Js.VStr "hello") w) s in
  geminiSessionRef s' = geminiSessionRef s
  ∧ adds_only (λ e, negb (is_gemini_call e)) s s'.
Proof.
  apply (openrouter_provider_leaves_gemini demo_prompt demo_base64ByteLength
           (SendTextMessage (Js.VStr "hello")
              (world_of (Some "openrouter") (AxiosOk (Some "hi"))))
           (world_of (Some "openrouter") (AxiosOk (Some "hi")))
           (set_geminiSessionRef (Some (GeminiHandle 0)) one_session)).
  - reflexivity.
  - vm_compute. reflexivity.
Defined.

(** ** Closing, in every way *)

(** X14. [close-session] closes the two sessions apart from each other.
    Its answer lists the Gemini session first, if there is one, then the
    OpenRouter session, if there is one.  If closing the Gemini session
    fails, the failure is listed with its message, the Gemini session stays
    in its slot, the OpenRouter session is closed all the same and the
    answer is still [{success: true}].  The log, its id, the stored
    parameters and the flags are left as they were. *)
Theorem close_session_closes_each_apart (w : World) (s : Sys) :
  let closed := state_after (close_session w) s in
  let gemini :=
    match geminiSessionRef s, gemini_close w with
    | None, _ => []
    | Some _, Returns _ => [CloseOk "gemini"]
    | Some _, Throws e => [CloseError "gemini" e]
    end in
  let openrouter :=
    match openRouterSessionRef s with
    | None => []
    | Some _ => [CloseOk "openrouter"]
    end in
  outcome_of (close_session w) s
  = Returns (IpcSuccess (Results (gemini ++ openrouter)))
  ∧ geminiSessionRef closed
    = match gemini_close w with
      | Returns _ => None
      | Throws _ => geminiSessionRef s
      end
  ∧ openRouterSessionRef closed = None
  ∧ heap closed
    = match openRouterSessionRef s with
      | Some l => alter deactivate l (heap s)
      | None => heap s
      end
  ∧ trace closed
    = match geminiSessionRef s with
      | Some g => trace s ++ [GeminiClose g]
      | None => trace s
      end
  ∧ (currentSessionId closed, conversationHistory closed,
     lastSessionParams closed, reconnectionAttempts closed,
     isInitializingSession closed)
    = (currentSessionId s, conversationHistory s, lastSessionParams s,
       reconnectionAttempts s, isInitializingSession s).
Proof.
  destruct w as [? ? ? ? ? closing].
  exec s;
    repeat match goal with
           | o : option _ |- _ => destruct o
           | o : Outcome unit |- _ => destruct o as [[]|?]
           end; vm_compute; repeat split.
Qed.

(** X15. [openrouter-close-session], the handler [openrouter.js] registers
    under its own prefix, closes as [close-session] does and forgets the
    stored parameters as well: it always answers [{success: true}], marks
    the session of the slot inactive, empties the slot, sets
    [lastSessionParams] to [null], and leaves the log and the Gemini slot as
    they were.  Closing twice is closing once. *)
Theorem prefixed_close_session_forgets_parameters (s : Sys) :
  let closed := state_after OpenRouterIpc.close_session s in
  outcome_of OpenRouterIpc.close_session s = Returns (IpcSuccess NoData)
  ∧ openRouterSessionRef closed = None
  ∧ lastSessionParams closed = None
  ∧ heap closed
    = match openRouterSessionRef s with
      | Some l => alter deactivate l (heap s)
      | None => heap s
      end
  ∧ (currentSessionId closed, conversationHistory closed,
     geminiSessionRef closed, trace closed)
    = (currentSessionId s, conversationHistory s, geminiSessionRef s,
       trace s)
  ∧ OpenRouterIpc.close_session closed = (Returns (IpcSuccess NoData), closed).
Proof.
  exec s;
    repeat match goal with
           | o : option _ |- _ => destruct o
           end; vm_compute; repeat split.
Qed.


(** A close that is rejected is not seen: the slot is emptied, where
    [close-session], which waits for it, keeps the session. *)
Example cleanupAllSessions_misses_rejection :
  let w :=
    {| localStorage := λ _, Returns None;
       executeJavaScript_rejects := None;
       axios_post := AxiosOk None;
       gemini_initialize := Returns None;
       gemini_sendRealtimeInput := Returns tt;
       gemini_close := Throws "closed" |} in
  let s := set_geminiSessionRef (Some (GeminiHandle 0)) one_session in
  geminiSessionRef (state_after (cleanupAllSessions Rejected w) s) = None
  ∧ geminiSessionRef (state_after (cleanupAllSessions Thrown w) s)
    = Some (GeminiHandle 0)
  ∧ geminiSessionRef (state_after (close_session w) s)
    = Some (GeminiHandle 0).
Proof. vm_compute. repeat split. Qed.

(** ** Recording a turn *)

(** X17. [saveConversationTurn] always returns and adds exactly one turn,
    which holds the two texts trimmed, at the end of the log; when no
    session id is there it first starts a session, which empties the log.
    If a window is open the renderer is sent, on
    'save-conversation-turn', the id, the turn and the whole log as it is
    after the turn was added; if none is open nothing is sent. *)
Theorem saveConversationTurn_tells_renderer
    (said aiResponse : string) (s : Sys) :
  let saved := state_after (saveConversationTurn said aiResponse) s in
  let fresh := no_session_id (currentSessionId s) in
  ∃ turn,
    outcome_of (saveConversationTurn said aiResponse) s = Returns tt
    ∧ transcription turn = Js.trim said
    ∧ ai_response turn = Js.trim aiResponse
    ∧ conversationHistory saved
      = (if fresh then [] else conversationHistory s) ++ [turn]
    ∧ currentSessionId saved
      = (if fresh then Some (toString (clock s (clockReads s)))
         else currentSessionId s)
    ∧ trace saved
      = (if 0 <? windows s
         then trace s
              ++ [RendererSend "save-conversation-turn"
                    (PTurn (currentSessionId saved) turn
                       (conversationHistory saved))]
         else trace s).
Proof.
  intros saved fresh. subst saved fresh.
  exists {| timestamp :=
              clock s ((if no_session_id (currentSessionId s) then 1 else 0)
                       + clockReads s);
            transcription := Js.trim said;
            ai_response := Js.trim aiResponse |}.
  exec s;
    match goal with
    | id : option string |- _ => destruct id as [[|a id]|]
    end; evaluate; repeat split.
Qed.

(** ** Reading the provider *)

(** X18. [getCurrentModelType] never throws and never changes the state.
    Its answer is 'gemini' whenever the provider cannot be read: no window
    is open, the script is rejected, the storage throws, or the item is
    missing or empty; otherwise it is the stored item in lower case. *)
Theorem getCurrentModelType_defaults_to_gemini (w : World) (s : Sys) :
  ∃ modelType,
    getCurrentModelType w s = (Returns modelType, s)
    ∧ (windows s = 0 → modelType = "gemini")
    ∧ (is_Some (executeJavaScript_rejects w) → modelType = "gemini")
    ∧ (∀ e, localStorage w "modelType" = Throws e → modelType = "gemini")
    ∧ (localStorage w "modelType" = Returns None → modelType = "gemini")
    ∧ (localStorage w "modelType" = Returns (Some "") → modelType = "gemini")
    ∧ (∀ item, 0 < windows s → executeJavaScript_rejects w = None →
               localStorage w "modelType" = Returns (Some item) →
               item ≠ "" → modelType = Js.toLowerCase item).
Proof.
  destruct w as [storage rejects ? ? ? ?]. simpl.
  unfold getCurrentModelType, try_catch, settle, storage_item, gets, ret,
    mbind, M_bind. simpl.
  destruct (windows s) as [|n] eqn:Hw; simpl;
    [|destruct rejects as [e|]; simpl;
      [|destruct (storage "modelType") as [[[|a item]|]|e] eqn:Hs; simpl]];
    (eexists; split; [reflexivity|]); repeat split; intros;
    try done; try lia; try congruence;
    first [ by simplify_eq
          | match goal with
            | H : is_Some None |- _ => by destruct H
            end ].
Qed.

(** ** What holds in every state that is reached *)

(** A new object leaves the slot and the objects that are there alone. *)
Lemma alloc_live o : preserves (holds slot_live) (alloc o).
Proof.
  intros s Hlive l Hl. destruct (Hlive l Hl) as (obj & Hobj & Hon).
  exists obj. split; [|exact Hon].
  simpl. rewrite lookup_app_l; [exact Hobj|].
  by apply lookup_lt_Some in Hobj.
Qed.

(** The session the adapter returns is active when it is put into the
    slot. *)
Lemma initialize_then_store_live
    (getSystemPrompt : string → string → bool → string)
    (key mdl customPrompt prof lang : string) (yes no : IpcResult) :
  preserves (holds slot_live)
    (session ← initializeOpenRouterSession getSystemPrompt key mdl
                 customPrompt prof lang false;
     match session with
     | Some l => modify (set_openRouterSessionRef (Some l));; ret yes
     | None => ret no
     end).
Proof.
  intros s Hlive. unfold mbind, M_bind.
  destruct (isInitializingSession s) eqn:Hbusy.
  - assert (initializeOpenRouterSession getSystemPrompt key mdl customPrompt
              prof lang false s = (Returns None, s)) as ->
      by (exec s; reflexivity).
    exact Hlive.
  - destruct (initialize_returns_active_session getSystemPrompt key mdl
                customPrompt prof lang false s Hbusy) as (Hret & _ & Hheap).
    destruct (initializeOpenRouterSession _ _ _ _ _ _ _ s) as [o s1].
    simpl in Hret, Hheap. subst o. simpl.
    intros l [= <-].
    exists {| apiKey := key; model := mdl;
              systemPrompt := getSystemPrompt prof customPrompt true;
              profile := prof; language := lang; active := true |}.
    split; [|reflexivity].
    change (heap s1 !! length (heap s) = Some
              {| apiKey := key; model := mdl;
                 systemPrompt := getSystemPrompt prof customPrompt true;
                 profile := prof; language := lang; active := true |}).
    rewrite Hheap, lookup_app_r by lia. by rewrite Nat.sub_diag.
Qed.

(** Whatever empties the slot leaves nothing to ask of it. *)
Lemma emptied_live {A} (m : M A) :
  (∀ s, openRouterSessionRef (m s).2 = None) → preserves (holds slot_live) m.
Proof. intros Hm s _ l Hl. rewrite Hm in Hl. discriminate. Qed.

Lemma cleanupAllSessions_ref how w s :
  openRouterSessionRef (cleanupAllSessions how w s).2 = None.
Proof.
  destruct w as [? ? ? ? ? closing].
  exec s;
    repeat match goal with
           | o : option _ |- _ => destruct o
           | o : Outcome unit |- _ => destruct o
           | how : Failure |- _ => destruct how
           end; reflexivity.
Qed.

Lemma prefixed_close_ref s :
  openRouterSessionRef (OpenRouterIpc.close_session s).2 = None.
Proof.
  exec s;
    repeat match goal with
           | o : option _ |- _ => destruct o
           end; reflexivity.
Qed.

Ltac live_leaf :=
  first [ apply initialize_then_store_live
        | apply alloc_live
        | apply emptied_live; first [ apply close_session_ref
                                    | apply cleanupAllSessions_ref
                                    | apply prefixed_close_ref ]
        | apply preserves_modify; intros ? H; exact H
        | intros ? H; exact H ].

Section Reached.

Variable getSystemPrompt : string → string → bool → string.
Variable base64ByteLength : string → nat.

Lemma perform_slot_live c s :
  slot_live s → slot_live (perform getSystemPrompt base64ByteLength c s).
Proof.
  revert s.
  change (∀ s, holds slot_live s
                 (perform getSystemPrompt base64ByteLength c s)).
  destruct c; simpl; unfold state_after;
    match goal with
    | |- ∀ s, holds ?P s (?m s).2 => change (preserves (holds P) m)
    end;
    preserve_with live_leaf
      ltac:(autounfold with ops;
            unfold initializeNewSession, saveConversationTurn).
Qed.

Lemma later_slot_live s s' :
  later getSystemPrompt base64ByteLength s s' → slot_live s → slot_live s'.
Proof.
  induction 1 as [|s1 s2 s3 [c ->] _ IH]; [done|].
  intros Hlive. apply IH. by apply perform_slot_live.
Qed.

Lemma later_idle s s' :
  later getSystemPrompt base64ByteLength s s' → idle s → idle s'.
Proof.
  induction 1 as [|s1 s2 s3 [c ->] _ IH]; [done|].
  intros Hidle. apply IH. by apply perform_idle.
Qed.

End Reached.

(** The run of [answered_session] starts where a process starts. *)
Lemma answered_session_reached :
  later demo_prompt demo_base64ByteLength (initial 1 (ticking 1700000000000))
    answered_session.
Proof.
  apply rtc_l with started_session.
  - eexists. reflexivity.
  - apply rtc_once. eexists. reflexivity.
Qed.

(** X19. From the start of the process on, whatever handlers and adapter
    calls have run (each to its end, or up to its request and from its
    reply on for a send), no initialisation is in flight between two calls:
    [isInitializingSession] is down, and [initializeOpenRouterSession] is
    never turned away as busy, it returns a new session. *)
Theorem initialisation_is_never_busy
    (getSystemPrompt : string → string → bool → string)
    (base64ByteLength : string → nat) (nwindows : nat) (clk : nat → N)
    (s : Sys) :
  later getSystemPrompt base64ByteLength (initial nwindows clk) s →
  isInitializingSession s = false
  ∧ ∀ key mdl customPrompt prof lang isReconnection,
      outcome_of
        (initializeOpenRouterSession getSystemPrompt key mdl customPrompt
           prof lang isReconnection) s
      = Returns (Some (length (heap s))).
Proof.
  intros Hlater.
  assert (idle s) as Hidle
    by (by apply (later_idle getSystemPrompt base64ByteLength
                    (initial nwindows clk))).
  split; [exact Hidle|]. intros key mdl customPrompt prof lang isReconnection.
  by destruct (initialize_returns_active_session getSystemPrompt key mdl
                 customPrompt prof lang isReconnection s Hidle) as (Hret & _).
Qed.

Lemma initialisation_is_never_busy_witness :
  isInitializingSession answered_session = false
  ∧ ∀ key mdl customPrompt prof lang isReconnection,
      outcome_of
        (initializeOpenRouterSession demo_prompt key mdl customPrompt
           prof lang isReconnection) answered_session
      = Returns (Some (length (heap answered_session))).
Proof.
  apply (initialisation_is_never_busy demo_prompt demo_base64ByteLength 1
           (ticking 1700000000000) answered_session).
  apply answered_session_reached.
Defined.

(** X20. From the start of the process on, every turn in the log belongs
    to a session with an id: whenever the log is not empty,
    [currentSessionId] is a string that is not empty. *)
Theorem logged_turns_have_session_id
    (getSystemPrompt : string → string → bool → string)
    (base64ByteLength : string → nat) (nwindows : nat) (clk : nat → N)
    (s : Sys) :
  later getSystemPrompt base64ByteLength (initial nwindows clk) s →
  conversationHistory s = []
  ∨ ∃ id, currentSessionId s = Some id ∧ Js.nonempty id = true.
Proof.
  intros Hlater.
  assert (log_consistent s) as Hlog.
  { apply (later_log_consistent getSystemPrompt base64ByteLength
             (initial nwindows clk)); [exact Hlater|].
    apply initial_log_consistent. }
  unfold log_consistent in Hlog.
  destruct (currentSessionId s) as [id|]; [|left; by apply Hlog].
  destruct (Js.nonempty id) eqn:Hid; [right; eauto|].
  left. apply Hlog. simpl. by rewrite Hid.
Qed.

Lemma logged_turns_have_session_id_witness :
  conversationHistory answered_session = []
  ∨ ∃ id, currentSessionId answered_session = Some id
          ∧ Js.nonempty id = true.
Proof.
  apply (logged_turns_have_session_id demo_prompt demo_base64ByteLength 1
           (ticking 1700000000000) answered_session).
  apply answered_session_reached.
Defined.

(** X21. From the start of the process on, the OpenRouter slot never holds
    a session that was closed: whenever the slot is not empty, it refers to
    a session object that is there and is active.  So the handlers' test
    [!current || !current.active] fails only on an empty slot. *)
Theorem slot_holds_active_session
    (getSystemPrompt : string → string → bool → string)
    (base64ByteLength : string → nat) (nwindows : nat) (clk : nat → N)
    (s : Sys) :
  later getSystemPrompt base64ByteLength (initial nwindows clk) s →
  (∀ l, openRouterSessionRef s = Some l →
        ∃ obj, heap s !! l = Some obj ∧ active obj = true)
  ∧ (no_active_session (deref (openRouterSessionRef s) s) = true
     ↔ openRouterSessionRef s = None).
Proof.
  intros Hlater.
  assert (slot_live s) as Hlive.
  { apply (later_slot_live getSystemPrompt base64ByteLength
             (initial nwindows clk)); [exact Hlater|].
    intros l Hl. discriminate. }
  split; [exact Hlive|]. split.
  - destruct (openRouterSessionRef s) as [l|] eqn:Hl; [|done].
    destruct (Hlive l Hl) as (obj & Hobj & Hon). simpl.
    rewrite Hobj. simpl. by rewrite Hon.
  - by intros ->.
Qed.

Lemma slot_holds_active_session_witness :
  (∀ l, openRouterSessionRef answered_session = Some l →
        ∃ obj, heap answered_session !! l = Some obj ∧ active obj = true)
  ∧ (no_active_session
       (deref (openRouterSessionRef answered_session) answered_session)
     = true
     ↔ openRouterSessionRef answered_session = None).
Proof.
  apply (slot_holds_active_session demo_prompt demo_base64ByteLength 1
           (ticking 1700000000000) answered_session).
  apply answered_session_reached.
Defined.

(** The run has one session in the slot and one turn in the log. *)
Example answered_session_run :
  openRouterSessionRef answered_session = Some 0
  ∧ conversationHistory answered_session
    = [ {| timestamp := 1700000000001; transcription := "hello";
           ai_response := "hi" |} ]
  ∧ currentSessionId answered_session = Some "1700000000000".
Proof. vm_compute. repeat split. Qed.

(** ** The renderer: token counts *)

Module RendererFacts.
Import Renderer.

Local Open Scope N_scope.

(** [nearest_even n d] is within a half of [n / d]. *)
Lemma nearest_even_near n d :
  0 < d →
  2 * d * nearest_even n d ≤ 2 * n + d
  ∧ 2 * n ≤ 2 * d * nearest_even n d + d.
Proof.
  intros Hd. unfold nearest_even.
  pose proof (N.Div0.div_mod n d) as Hdm.
  pose proof (N.mod_upper_bound n d ltac:(lia)) as Hub.
  set (q := n / d) in *. set (r := n mod d) in *.
  destruct (N.compare_spec (2 * r) d) as [Heq | Hlt | Hgt];
    [destruct (N.even q)|..]; nia.
Qed.

Lemma nearest_even_whole n : nearest_even n 1 = n.
Proof.
  unfold nearest_even. rewrite N.mod_1_r, N.div_1_r. reflexivity.
Qed.

Lemma pow2_53_lt_1024 : 2 ^ 53 < 2 ^ 1024.
Proof. apply N.pow_lt_mono_r; lia. Qed.

(** Up to [2 ^ 53] every whole number is a double. *)
Lemma double_exact n : n ≤ 2 ^ 53 → double n = Int n.
Proof.
  intros Hn. unfold double.
  assert (nearest_even n (2 ^ (N.log2 n - 52)) * 2 ^ (N.log2 n - 52) = n)
    as ->.
  { destruct (N.eq_dec n (2 ^ 53)) as [-> | Hne].
    - rewrite N.log2_pow2 by lia. vm_compute. reflexivity.
    - assert (N.log2 n - 52 = 0) as ->.
      { destruct (N.eq_dec n 0) as [-> | Hpos]; [reflexivity|].
        assert (N.log2 n < 53); [|lia].
        apply N.log2_lt_pow2; lia. }
      rewrite N.pow_0_r, nearest_even_whole. lia. }
  pose proof pow2_53_lt_1024.
  destruct (N.leb_spec (2 ^ 1024) n); [lia | reflexivity].
Qed.

Lemma add_exact (x y : N) :
  x + y ≤ 2 ^ 53 → add (Int x) (Int y) = Int (x + y).
Proof. apply double_exact. Qed.

Lemma log2_quotient_le n d :
  (log2_quotient n d ≤ Z.of_N (N.log2 n) - Z.of_N (N.log2 d))%Z.
Proof. unfold log2_quotient. case_match; lia. Qed.

(** Below [2 ^ 53] the quotient by 750 is rounded by less than it is away
    from the next whole number, so that [Math.ceil] gives the exact
    ceiling. *)
Lemma ceil_quotient_exact n :
  n < 2 ^ 53 → ceil_quotient n 750 = ceil_div n 750.
Proof.
  intros Hn. unfold ceil_quotient.
  destruct (N.eqb_spec n 0) as [-> | Hpos]; [reflexivity|].
  set (e := Z.max (log2_quotient n 750 - 52) (-1074)).
  assert (e ≤ -9)%Z as He.
  { pose proof (log2_quotient_le n 750) as Hle.
    change (N.log2 750) with 9 in Hle.
    assert (N.log2 n < 53) by (apply N.log2_lt_pow2; lia). lia. }
  destruct (Z.leb_spec 0 e) as [|_]; [lia|].
  set (s := 2 ^ Z.to_N (- e)).
  assert (512 ≤ s) as Hs.
  { change 512 with (2 ^ 9). apply N.pow_le_mono_r; lia. }
  pose proof (nearest_even_near (n * s) 750 ltac:(lia)) as [Hup Hdown].
  set (m := nearest_even (n * s) 750) in *.
  pose proof (N.Div0.div_mod n 750) as Hdm.
  pose proof (N.mod_upper_bound n 750 ltac:(lia)) as Hub.
  unfold ceil_div.
  set (k := n / 750) in *. set (r := n mod 750) in *.
  assert ((n + (750 - 1)) / 750 = if r =? 0 then k else k + 1) as ->.
  { destruct (N.eqb_spec r 0).
    - symmetry. apply (N.div_unique _ _ _ 749); lia.
    - symmetry. apply (N.div_unique _ _ _ (r - 1)); lia. }
  destruct (N.eqb_spec r 0) as [Hr | Hr].
  - symmetry. apply (N.div_unique _ _ _ (s - 1)); nia.
  - assert (s ≤ r * s) by nia. assert (r * s ≤ 749 * s) by nia.
    assert (k * s + 1 ≤ m) by nia.
    assert (m ≤ k * s + s) by nia.
    symmetry. apply (N.div_unique _ _ _ (m - (k * s + 1))); nia.
Qed.

(** Counts that stay at [2 ^ 53] at most are added exactly. *)
Lemma addTokens_exact (count : N) type (total image text : N) :
  total + count ≤ 2 ^ 53 → image ≤ total → text ≤ total →
  addTokens (Int count) type
    {| totalTokens := Int total; imageTokens := Int image;
       textTokens := Int text |}
  = {| totalTokens := Int (total + count);
       imageTokens :=
         Int (if (type =? "image")%string then image + count else image);
       textTokens :=
         Int (if (type =? "image")%string then text else text + count) |}.
Proof.
  intros Htotal Himage Htext. unfold addTokens.
  cbn [totalTokens imageTokens textTokens].
  rewrite add_exact by done.
  destruct (type =? "image")%string; rewrite add_exact by lia; reflexivity.
Qed.

End RendererFacts.

(** X22. The three counts of the token tracker are doubles.  As long as the
    counts that were added sum to [2 ^ 53] at most, nothing is rounded and
    the three stay in step: after any such sequence of [addTokens],
    [totalTokens] is the sum of the counts that were added, [imageTokens]
    the sum of those added for the type 'image' and [textTokens] the sum of
    those added for any other type, so that [totalTokens] is the sum of the
    other two. *)
Theorem token_counts_add_up (added : list (N * string)) :
  let tracker :=
    foldl (λ t (a : N * string), Renderer.addTokens a.1 a.2 t)
      Renderer.no_tokens added in
  let images := fst <$> filter (λ a, a.2 = "image") added in
  let texts := fst <$> filter (λ a, a.2 ≠ "image") added in
  (foldr N.add 0 (fst <$> added) ≤ 2 ^ 53)%N →
  Renderer.totalTokens tracker
  = Renderer.Int (foldr N.add 0%N (fst <$> added))
  ∧ Renderer.imageTokens tracker = Renderer.Int (foldr N.add 0%N images)
  ∧ Renderer.textTokens tracker = Renderer.Int (foldr N.add 0%N texts)
  ∧ foldr N.add 0%N (fst <$> added)
    = (foldr N.add 0 images + foldr N.add 0 texts)%N.
Proof.
  intros tracker images texts. subst tracker images texts.
  assert (∀ l k, foldr N.add 0%N (l ++ k)
                 = (foldr N.add 0%N l + foldr N.add 0%N k)%N) as Hsum.
  { intros l k. induction l as [|x l IHl]; simpl; [done|].
    rewrite IHl. lia. }
  induction added as [|[count type] added IH] using rev_ind; [done|].
  rewrite foldl_snoc, !filter_app, !fmap_app, !Hsum.
  intros Hbound. simpl in Hbound.
  destruct IH as (IH1 & IH2 & IH3 & IH4); [lia|].
  destruct (foldl _ _ added) as [total image text].
  simpl in IH1, IH2, IH3. subst total image text. cbn [fst snd].
  rewrite RendererFacts.addTokens_exact by lia.
  cbn [Renderer.totalTokens Renderer.imageTokens Renderer.textTokens].
  destruct (String.eqb_spec type "image") as [->|Hne].
  - rewrite filter_cons_True, filter_cons_False by (simpl; congruence).
    simpl. repeat split; first [lia | f_equal; lia].
  - rewrite filter_cons_False, filter_cons_True by (simpl; congruence).
    simpl. repeat split; first [lia | f_equal; lia].
Qed.

Lemma token_counts_add_up_witness :
  let tracker :=
    Renderer.addTokens 5%N "text"
      (Renderer.addTokens 1229%N "image" Renderer.no_tokens) in
  Renderer.totalTokens tracker = Renderer.Int 1234
  ∧ Renderer.imageTokens tracker = Renderer.Int 1229
  ∧ Renderer.textTokens tracker = Renderer.Int 5
  ∧ 1234%N = (1229 + 5)%N.
Proof.
  apply (token_counts_add_up [(1229%N, "image"); (5%N, "text")]).
  vm_compute. discriminate.
Defined.

(** Above [2 ^ 53] the counts drift apart: a token added to [2 ^ 53] is
    lost. *)
Example token_counts_drift_apart :
  let tracker :=
    Renderer.addTokens 1%N "text"
      (Renderer.addTokens 1%N "text"
         (Renderer.addTokens (2 ^ 53)%N "image" Renderer.no_tokens)) in
  Renderer.totalTokens tracker = Renderer.Int (2 ^ 53)
  ∧ Renderer.imageTokens tracker = Renderer.Int (2 ^ 53)
  ∧ Renderer.textTokens tracker = Renderer.Int 2.
Proof. vm_compute. repeat split. Qed.

(** X23. For an image of fewer than [2 ^ 53] pixels the image count,
    [calculateImageTokens], is the least number of tokens of 750 pixels
    that covers the image: none for an empty image, and otherwise the one
    number [n] with [750 * (n - 1) < width * height <= 750 * n].  The
    product and the quotient are computed in doubles; below [2 ^ 53] the
    rounding of the quotient never reaches a whole number. *)
Theorem calculateImageTokens_covers (width height : N) :
  (width * height < 2 ^ 53)%N →
  ∃ n : N,
    Renderer.calculateImageTokens width height = Renderer.Int n
    ∧ (width * height ≤ 750 * n)%N
    ∧ (∀ m, (width * height ≤ 750 * m)%N → (n ≤ m)%N)
    ∧ ((width * height = 0)%N ↔ n = 0%N).
Proof.
  intros Hsmall. exists (Renderer.ceil_div (width * height) 750).
  unfold Renderer.calculateImageTokens.
  rewrite RendererFacts.double_exact by lia.
  rewrite RendererFacts.ceil_quotient_exact by done.
  split; [done|]. unfold Renderer.ceil_div.
  set (pixels := (width * height)%N) in *.
  pose proof (N.Div0.div_mod (pixels + (750 - 1)) 750) as Hdm.
  pose proof (N.mod_upper_bound (pixels + (750 - 1)) 750 ltac:(lia)) as Hub.
  set (q := ((pixels + (750 - 1)) / 750)%N) in *.
  set (r := ((pixels + (750 - 1)) mod 750)%N) in *.
  split; [lia|]. split; [intros m Hm; lia|]. lia.
Qed.

Lemma calculateImageTokens_covers_witness :
  ∃ n : N,
    Renderer.calculateImageTokens 1280 720 = Renderer.Int n
    ∧ (1280 * 720 ≤ 750 * n)%N
    ∧ (∀ m, (1280 * 720 ≤ 750 * m)%N → (n ≤ m)%N)
    ∧ ((1280 * 720 = 0)%N ↔ n = 0%N).
Proof.
  apply (calculateImageTokens_covers 1280 720).
  vm_compute. reflexivity.
Defined.

(** Above [2 ^ 53] the product is rounded, and the count can fall one
    short. *)
Example calculateImageTokens_falls_short :
  Renderer.calculateImageTokens 94906267 94906603
  = Renderer.Int 12009641872508
  ∧ (750 * 12009641872508 < 94906267 * 94906603)%N.
Proof. vm_compute. split; reflexivity. Qed.

(** ** The renderer: the senders in front of the handlers *)

(** A handler answers; it never throws. *)
Lemma handler_returns body s : ∃ result, (handler body s).1 = Returns result.
Proof.
  unfold handler, try_catch. destruct (body s) as [[r|e] s']; eauto.
Qed.

(** A second [try] around a handler catches nothing. *)
Lemma handler_twice body s : handler (handler body) s = handler body s.
Proof.
  unfold handler, try_catch. by destruct (body s) as [[r|e] s'].
Qed.

Lemma send_text_message_returns text w s :
  ∃ result, (send_text_message text w s).1 = Returns result.
Proof. apply handler_returns. Qed.

(** X24. The renderer's [sendTextMessage] answers 'Empty message' to a
    text that is empty or blank, without invoking the handler.  Any other
    text goes to [send-text-message], whose answer is handed back as it is;
    the text is counted, as a quarter of its length rounded up (at least one
    token), exactly when that answer is a success, and the counts are left
    alone otherwise. *)
Theorem sendTextMessage_counts_what_was_sent
    (text : string) (w : World) (t : Renderer.TokenTracker) (s : Sys) :
  let r := Renderer.sendTextMessage text w t s in
  let estimatedTokens :=
    Renderer.ceil_div (N.of_nat (String.length text)) 4 in
  (Js.trim text = "" → r = (Returns (IpcFailure "Empty message"), t, s))
  ∧ (Js.trim text ≠ "" →
     (0 < estimatedTokens)%N
     ∧ r.2 = state_after (send_text_message (Js.VStr text) w) s
     ∧ r.1.1 = outcome_of (send_text_message (Js.VStr text) w) s
     ∧ ∃ result,
         r.1.1 = Returns result
         ∧ r.1.2 = if success result
                   then Renderer.addTokens estimatedTokens "text" t
                   else t).
Proof.
  intros r estimatedTokens. subst r. unfold Renderer.sendTextMessage.
  split.
  - intros Hblank. rewrite Hblank. simpl. by rewrite orb_true_r.
  - intros Htext.
    rewrite (trim_nonempty text Htext), (length_nonzero _ Htext). simpl.
    split.
    { subst estimatedTokens. unfold Renderer.ceil_div.
      destruct text as [|a text]; [by destruct Htext|]. simpl String.length.
      apply N.div_str_pos. lia. }
    unfold state_after, outcome_of.
    destruct (send_text_message_returns (Js.VStr text) w s) as [result Hres].
    destruct (send_text_message (Js.VStr text) w s) as [[res|e] s'];
      simpl in Hres; [|discriminate].
    injection Hres as ->.
    destruct (success result) eqn:Hok; simpl; repeat split;
      exists result; rewrite Hok; done.
Qed.

(** The main process reads the provider the renderer reads, or, when it
    cannot read it, gemini. *)
Lemma renderer_reads_same_provider w s p :
  Renderer.getCurrentModelType w = Returns p →
  provider w s = Returns p ∨ provider w s = Returns "gemini".
Proof.
  intros Hr.
  unfold provider, outcome_of, getCurrentModelType, try_catch, settle,
    storage_item, gets, ret, mbind, M_bind.
  unfold Renderer.getCurrentModelType in Hr.
  destruct (0 <? windows s); [|by right].
  destruct (executeJavaScript_rejects w); [by right|].
  destruct (localStorage w "modelType") as [[v|]|e]; simpl in *;
    [left; congruence.. | discriminate].
Qed.

(** X25. The renderer's [sendAudioMessage] answers 'Invalid audio data' to
    a payload that is missing or shorter than 100 characters, and 'Audio
    not supported for OpenRouter.' to any other payload when the provider
    it reads is openrouter; in both cases [send-audio-content] is not
    invoked and nothing changes.  If reading the provider throws, the call
    throws: nothing catches it.  Otherwise the answer is the handler's,
    which then finds the same provider, so that its own refusal for
    OpenRouter is never reached from here. *)
Theorem sendAudioMessage_stops_openrouter
    (base64data : Js.value) (w : World) (s : Sys) :
  (Js.truthy base64data = false ∨ Js.length_lt base64data 100 = true →
   Renderer.sendAudioMessage base64data w s
   = (Returns (IpcFailure "Invalid audio data"), s))
  ∧ (Js.truthy base64data = true → Js.length_lt base64data 100 = false →
     match Renderer.getCurrentModelType w with
     | Throws e => Renderer.sendAudioMessage base64data w s = (Throws e, s)
     | Returns p =>
         if (p =? "openrouter")%string
         then Renderer.sendAudioMessage base64data w s
              = (Returns (IpcFailure "Audio not supported for OpenRouter."),
                 s)
         else Renderer.sendAudioMessage base64data w s
              = send_audio_content base64data "audio/pcm;rate=24000" w s
              ∧ provider w s ≠ Returns "openrouter"
     end).
Proof.
  unfold Renderer.sendAudioMessage. split.
  - intros [Hbad | Hbad]; rewrite Hbad; [done|]. by rewrite orb_true_r.
  - intros Hsome Hlong. rewrite Hsome, Hlong. simpl.
    unfold settle, mbind, M_bind.
    destruct (Renderer.getCurrentModelType w) as [p|e] eqn:Hp; [|done].
    destruct (String.eqb_spec p "openrouter") as [->|Hne]; [done|]. split.
    + unfold send_audio_content. apply handler_twice.
    + destruct (renderer_reads_same_provider w s p Hp) as [-> | ->];
        congruence.
Qed.

Lemma sendAudioMessage_stops_openrouter_witness :
  let w := world_of (Some "openrouter") (AxiosOk None) in
  let base64data :=
    Js.VStr
      ("AAAAAAAAAAAAAAAAAAAAAAAAAAAAAAAAAAAAAAAAAAAAAAAAAA"
       +:+ "AAAAAAAAAAAAAAAAAAAAAAAAAAAAAAAAAAAAAAAAAAAAAAAAAA") in
  Js.length_lt base64data 100 = false
  ∧ Renderer.getCurrentModelType w = Returns "openrouter"
  ∧ Renderer.sendAudioMessage base64data w one_session
    = (Returns (IpcFailure "Audio not supported for OpenRouter."),
       one_session)
  ∧ Renderer.sendAudioMessage (Js.VStr "AAAA") w one_session
    = (Returns (IpcFailure "Invalid audio data"), one_session).
Proof.
  intros w base64data.
  split; [reflexivity|]. split; [reflexivity|]. split.
  - exact (proj2 (sendAudioMessage_stops_openrouter base64data w one_session)
             eq_refl eq_refl).
  - apply (sendAudioMessage_stops_openrouter (Js.VStr "AAAA") w one_session).
    right. reflexivity.
Defined.

(** ** The renderer: asking for a session *)

(** X26. The renderer asks for no session without credentials: when the
    stored OpenRouter key or the stored OpenRouter model is missing or
    blank, [initializeOpenRouter] returns false with the status 'Missing
    OpenRouter credentials', and when the stored Gemini key is missing or
    blank, [initializeGemini] returns false with the status 'No Gemini API
    key'; in both cases [initialize-model] is not invoked and nothing
    changes. *)
Theorem renderer_needs_credentials
    (getSystemPrompt : string → string → bool → string)
    (prof lang : string) (w : World) (s : Sys)
    (key mdl customPrompt : option string) :
  (localStorage w "openRouterApiKey" = Returns key →
   localStorage w "openRouterModel" = Returns mdl →
   localStorage w "openRouterCustomPrompt" = Returns customPrompt →
   Js.trim (default "" key) = "" ∨ Js.trim (default "" mdl) = "" →
   Renderer.initializeOpenRouter getSystemPrompt prof lang w s
   = (Returns ("Missing OpenRouter credentials", false), s))
  ∧ (localStorage w "geminiApiKey" = Returns key →
     localStorage w "geminiCustomPrompt" = Returns customPrompt →
     Js.trim (default "" key) = "" →
     Renderer.initializeGemini getSystemPrompt prof lang w s
     = (Returns ("No Gemini API key", false), s)).
Proof.
  assert (∀ item : option string,
            default "" (Js.trim <$> item) = Js.trim (default "" item))
    as Htrim by (by intros [v|]).
  split.
  - intros Hkey Hmdl Hprompt Hblank.
    unfold Renderer.initializeOpenRouter, Renderer.trimmed_item,
      Renderer.item_or_empty, settle, ret, mbind, M_bind.
    rewrite Hkey, Hmdl, Hprompt, !Htrim.
    destruct Hblank as [-> | ->]; [done|]. by rewrite andb_false_r.
  - intros Hkey Hprompt Hblank.
    unfold Renderer.initializeGemini, Renderer.trimmed_item,
      Renderer.item_or_empty, settle, ret, mbind, M_bind.
    by rewrite Hkey, Hprompt, Htrim, Hblank.
Qed.

(** X27. From the renderer to the session.  When a key and a model are
    stored that are not blank, the provider is openrouter and no
    initialisation is in flight, [initializeOpenRouter] returns true with
    the status 'Live (OpenRouter)', and the OpenRouter slot holds a new,
    active session: its key is the stored key, trimmed; its model is the
    stored model as it is stored (it is the trimmed model that the renderer
    has checked, but the handler reads the model anew); its prompt is built
    from the stored custom prompt, or from the empty string when none is
    stored. *)
Theorem renderer_opens_openrouter_session
    (getSystemPrompt : string → string → bool → string)
    (prof lang key mdl : string) (customPrompt : option string)
    (w : World) (s : Sys) :
  localStorage w "openRouterApiKey" = Returns (Some key) →
  localStorage w "openRouterModel" = Returns (Some mdl) →
  localStorage w "openRouterCustomPrompt" = Returns customPrompt →
  Js.trim key ≠ "" → Js.trim mdl ≠ "" →
  provider w s = Returns "openrouter" →
  isInitializingSession s = false →
  let r := Renderer.initializeOpenRouter getSystemPrompt prof lang w s in
  r.1 = Returns ("Live (OpenRouter)", true)
  ∧ deref (openRouterSessionRef r.2) r.2
    = Some {| apiKey := Js.trim key; model := mdl;
              systemPrompt :=
                getSystemPrompt prof (default "" customPrompt) true;
              profile := prof; language := lang; active := true |}.
Proof.
  intros Hkey Hmdl Hprompt Hk Hm Hp Hfree r. subst r.
  assert (Js.trim (Js.trim key) ≠ "") as Hk2
    by (by rewrite TrimFacts.trim_idempotent).
  assert (storage_item w "openRouterModel" "anthropic/claude-3.5-sonnet"
          = Returns mdl) as Hstored.
  { unfold storage_item.
    rewrite (provider_script w s "openrouter" Hp ltac:(discriminate)), Hmdl.
    unfold Js.or_else. by rewrite (trim_nonempty mdl Hm). }
  assert (Js.or_else (default "" customPrompt) "" = default "" customPrompt)
    as Hc by (unfold Js.or_else; by destruct (default "" customPrompt)).
  destruct (initializeOpenRouterSession_fresh getSystemPrompt
              (Js.trim (Js.trim key)) mdl (default "" customPrompt) prof lang
              s Hfree) as (_ & Hheap & _).
  unfold Renderer.initializeOpenRouter, Renderer.trimmed_item,
    Renderer.item_or_empty, settle, ret, mbind, M_bind.
  rewrite Hkey, Hmdl, Hprompt, Hc. simpl.
  rewrite (trim_nonempty (Js.trim key) Hk2), (trim_nonempty (Js.trim mdl)).
  2:{ by rewrite TrimFacts.trim_idempotent. }
  simpl.
  rewrite (initialize_model_openrouter getSystemPrompt (Js.trim key)
             (default "" customPrompt) prof lang w s mdl Hp Hk2 Hstored
             Hfree).
  simpl. split; [reflexivity|].
  match goal with
  | |- _ = ?session =>
      change (heap (initializeOpenRouterSession getSystemPrompt
                      (Js.trim (Js.trim key)) mdl (default "" customPrompt)
                      prof lang false s).2 !! length (heap s) = session)
  end.
  rewrite Hheap, lookup_app_r by lia.
  rewrite Nat.sub_diag, TrimFacts.trim_idempotent. reflexivity.
Qed.

Lemma renderer_opens_openrouter_session_witness :
  let w :=
    {| localStorage := λ key,
         if (key =? "modelType")%string then Returns (Some "OpenRouter")
         else if (key =? "openRouterApiKey")%string
         then Returns (Some " sk-key ")
         else if (key =? "openRouterModel")%string
         then Returns (Some "m1 ")
         else Returns None;
       executeJavaScript_rejects := None;
       axios_post := AxiosOk None;
       gemini_initialize := Returns None;
       gemini_sendRealtimeInput := Returns tt;
       gemini_close := Returns tt |} in
  let r :=
    Renderer.initializeOpenRouter demo_prompt "interview" "en-US" w
      (initial 1 (ticking 1700000000000)) in
  r.1 = Returns ("Live (OpenRouter)", true)
  ∧ deref (openRouterSessionRef r.2) r.2
    = Some {| apiKey := "sk-key"; model := "m1 ";
              systemPrompt := "interview: ";
              profile := "interview"; language := "en-US"; active := true |}.
Proof.
  apply (renderer_opens_openrouter_session demo_prompt "interview" "en-US"
           " sk-key " "m1 " None
           {| localStorage := λ key,
                if (key =? "modelType")%string then Returns (Some "OpenRouter")
                else if (key =? "openRouterApiKey")%string
                then Returns (Some " sk-key ")
                else if (key =? "openRouterModel")%string
                then Returns (Some "m1 ")
                else Returns None;
              executeJavaScript_rejects := None;
              axios_post := AxiosOk None;
              gemini_initialize := Returns None;
              gemini_sendRealtimeInput := Returns tt;
              gemini_close := Returns tt |}
           (initial 1 (ticking 1700000000000))).
  - reflexivity.
  - reflexivity.
  - reflexivity.
  - vm_compute. discriminate.
  - vm_compute. discriminate.
  - vm_compute. reflexivity.
  - reflexivity.
Defined.

(** ** The renderer: samples *)

Module SampleFacts.
Import Renderer.

(** The order of two fractions, as the order of two integers. *)
Lemma le_bool_spec (x y : QArith_base.Q) :
  QArith_base.Qle_bool x y
  = (QArith_base.Qnum x * Zpos (QArith_base.Qden y)
     <=? QArith_base.Qnum y * Zpos (QArith_base.Qden x))%Z.
Proof. reflexivity. Qed.

(** A clamped sample is between -1 and 1. *)
Lemma clamp_range x c :
  clamp x = Some c →
  (- Zpos (QArith_base.Qden c) ≤ QArith_base.Qnum c
   ≤ Zpos (QArith_base.Qden c))%Z.
Proof.
  destruct x as [q| | |]; simpl; [|by intros [= <-]..|done].
  intros [= <-]. rewrite !le_bool_spec. simpl.
  destruct (Z.leb_spec (QArith_base.Qnum q * 1)
              (1 * Zpos (QArith_base.Qden q))) as [H1|H1]; simpl.
  - destruct (Z.leb_spec (-1 * Zpos (QArith_base.Qden q))
                (QArith_base.Qnum q * 1)) as [H2|H2]; simpl; lia.
  - lia.
Qed.

(** The integer part of a multiple of a fraction. *)
Lemma truncate_scaled c k :
  truncate (QArith_base.Qmult c (QArith_base.inject_Z k))
  = (QArith_base.Qnum c * k ÷ Zpos (QArith_base.Qden c))%Z.
Proof.
  unfold truncate. simpl. by rewrite Pos.mul_1_r.
Qed.

Lemma negative_spec c :
  negative c = true ↔ (QArith_base.Qnum c < 0)%Z.
Proof.
  unfold negative. rewrite negb_true_iff, le_bool_spec. simpl.
  rewrite Z.leb_gt. lia.
Qed.

(** What is stored of a clamped sample. *)
Lemma stored_range c :
  (- Zpos (QArith_base.Qden c) ≤ QArith_base.Qnum c
   ≤ Zpos (QArith_base.Qden c))%Z →
  let v :=
    if negative c
    then truncate (QArith_base.Qmult c (QArith_base.inject_Z 32768))
    else truncate (QArith_base.Qmult c (QArith_base.inject_Z 32767)) in
  (-32768 ≤ v ≤ 32767)%Z
  ∧ (negative c = true → v ≤ 0)%Z
  ∧ (negative c = false → 0 ≤ v)%Z.
Proof.
  intros Hc v. subst v. rewrite !truncate_scaled.
  set (n := QArith_base.Qnum c) in *.
  set (d := Zpos (QArith_base.Qden c)) in *.
  assert (0 < d)%Z as Hd by (unfold d; lia).
  destruct (negative c) eqn:Hneg.
  - apply negative_spec in Hneg. fold n in Hneg.
    replace (n * 32768)%Z with (- (- n * 32768))%Z by lia.
    rewrite Z.quot_opp_l by lia.
    rewrite Z.quot_div_nonneg by lia.
    assert (0 ≤ (- n * 32768) `div` d ≤ 32768)%Z.
    { split; [apply Z.div_pos; lia|].
      apply Z.div_le_upper_bound; [lia|]. nia. }
    repeat split; intros; try lia; done.
  - assert (0 ≤ n)%Z as Hn.
    { destruct (Z.lt_ge_cases n 0) as [Hlt|]; [|done].
      apply negative_spec in Hlt. congruence. }
    rewrite Z.quot_div_nonneg by lia.
    assert (0 ≤ (n * 32767) `div` d ≤ 32767)%Z.
    { split; [apply Z.div_pos; lia|].
      apply Z.div_le_upper_bound; [lia|]. nia. }
    repeat split; intros; try lia; done.
Qed.

Lemma sample_range x :
  (-32768 ≤ sample_to_int16 x ≤ 32767)%Z.
Proof.
  unfold sample_to_int16. destruct (clamp x) as [c|] eqn:Hc; [|lia].
  apply (stored_range c (clamp_range x c Hc)).
Qed.

(** The three cases of a sample that is a number. *)
Lemma clamp_finite q :
  let n := QArith_base.Qnum q in
  let d := Zpos (QArith_base.Qden q) in
  ((d < n)%Z ∧ clamp (Finite q) = Some (QArith_base.inject_Z 1))
  ∨ ((n < - d)%Z ∧ clamp (Finite q) = Some (QArith_base.inject_Z (-1)))
  ∨ ((- d ≤ n ≤ d)%Z ∧ clamp (Finite q) = Some q).
Proof.
  intros n d. unfold clamp. cbv zeta.
  rewrite (le_bool_spec q).
  change (QArith_base.Qnum (QArith_base.inject_Z 1)) with 1%Z.
  change (Zpos (QArith_base.Qden (QArith_base.inject_Z 1))) with 1%Z.
  fold n d.
  destruct (Z.leb_spec (n * 1) (1 * d)) as [H1|H1].
  - rewrite le_bool_spec.
    change (QArith_base.Qnum (QArith_base.inject_Z (-1))) with (-1)%Z.
    change (Zpos (QArith_base.Qden (QArith_base.inject_Z (-1)))) with 1%Z.
    fold n d.
    destruct (Z.leb_spec (-1 * d) (n * 1)) as [H2|H2].
    + right. right. split; [lia | reflexivity].
    + right. left. split; [lia | reflexivity].
  - left. split; [lia | reflexivity].
Qed.

(** A sample that is a number: its sign is kept, and what is beyond 1 or
    -1 is stored as the largest or the least 16-bit number. *)
Lemma finite_sample q :
  let n := QArith_base.Qnum q in
  let d := Zpos (QArith_base.Qden q) in
  let v := sample_to_int16 (Finite q) in
  ((0 ≤ n)%Z → (0 ≤ v)%Z)
  ∧ ((n < 0)%Z → (v ≤ 0)%Z)
  ∧ ((d ≤ n)%Z → v = 32767%Z)
  ∧ ((n ≤ - d)%Z → v = (-32768)%Z).
Proof.
  intros n d v. subst v. unfold sample_to_int16.
  assert (0 < d)%Z as Hd by (unfold d; lia).
  destruct (clamp_finite q) as [[Hq ->] | [[Hq ->] | [Hq ->]]];
    fold n d in Hq.
  - repeat match goal with
           | |- context [if negative ?c then ?a else ?b] =>
               change (if negative c then a else b) with 32767%Z
           end.
    repeat split; intros; lia.
  - repeat match goal with
           | |- context [if negative ?c then ?a else ?b] =>
               change (if negative c then a else b) with (-32768)%Z
           end.
    repeat split; intros; lia.
  - pose proof (stored_range q ltac:(fold n d; lia)) as Hv.
    cbv zeta in Hv. destruct Hv as (_ & Hneg & Hpos).
    destruct (negative q) eqn:Hs.
    + pose proof (proj1 (negative_spec q) Hs) as Hlt. fold n in Hlt.
      specialize (Hneg eq_refl).
      split; [lia|]. split; [done|]. split; [lia|]. intros Hn.
      rewrite truncate_scaled. fold d.
      replace (QArith_base.Qnum q) with (- d)%Z by (fold n; lia).
      replace (- d * 32768)%Z with (-32768 * d)%Z by lia.
      apply Z.quot_mul. lia.
    + specialize (Hpos eq_refl).
      assert (0 ≤ n)%Z as Hn.
      { destruct (Z.lt_ge_cases n 0) as [Hlt|]; [|done].
        apply negative_spec in Hlt. congruence. }
      split; [done|]. split; [lia|]. split; [|lia]. intros Hn'.
      rewrite truncate_scaled. fold d.
      replace (QArith_base.Qnum q) with d by (fold n; lia).
      replace (d * 32767)%Z with (32767 * d)%Z by lia.
      apply Z.quot_mul. lia.
Qed.

End SampleFacts.

(** X28. [convertFloat32ToInt16] gives one 16-bit sample for each sample it
    is given, and none of them wraps around: every output is between -32768
    and 32767, whatever the input (a number of any size, an infinity or
    [NaN], which is stored as 0).  A sample that is not negative gives an
    output that is not negative, a negative sample one that is not
    positive; 1 and all above give 32767, -1 and all below -32768. *)
Theorem convertFloat32ToInt16_in_range (float32Array : list Renderer.Float32) :
  let int16Array := Renderer.convertFloat32ToInt16 float32Array in
  length int16Array = length float32Array
  ∧ Forall (λ v, (-32768 ≤ v ≤ 32767)%Z) int16Array
  ∧ ∀ i q v,
      float32Array !! i = Some (Renderer.Finite q) →
      int16Array !! i = Some v →
      (QArith_base.Qle (QArith_base.inject_Z 0) q → (0 ≤ v)%Z)
      ∧ (QArith_base.Qlt q (QArith_base.inject_Z 0) → (v ≤ 0)%Z)
      ∧ (QArith_base.Qle (QArith_base.inject_Z 1) q → v = 32767%Z)
      ∧ (QArith_base.Qle q (QArith_base.inject_Z (-1)) → v = (-32768)%Z).
Proof.
  intros int16Array. subst int16Array. unfold Renderer.convertFloat32ToInt16.
  split; [apply length_fmap|]. split.
  { apply Forall_fmap, Forall_true. intros x. apply SampleFacts.sample_range. }
  intros i q v Hq Hv. rewrite list_lookup_fmap, Hq in Hv.
  injection Hv as <-.
  pose proof (SampleFacts.finite_sample q) as Hv. cbv zeta in Hv.
  destruct Hv as (Hpos & Hneg & Hhigh & Hlow).
  unfold QArith_base.Qle, QArith_base.Qlt. simpl.
  repeat split; intros;
    [apply Hpos | apply Hneg | apply Hhigh | apply Hlow]; lia.
Qed.

(** ** The Grok module *)

(** Names the components of a state of the Grok module. *)
Ltac grok_exec s :=
  destruct s as [? ? ? ? ? ? ? [|?] ? ? ?]; simpl in *; subst.

(** X29. The Grok handlers answer for the slot, not for the request.  With
    no session id in the slot, [send-text-message], [send-audio-content]
    and [send-image-content] answer 'No active Grok session' and do
    nothing.  With one, they answer [{success: true}] whatever becomes of
    the request: also when it fails, when the text is no string, and when
    no parameters are stored to take the key from (then no request is made
    at all).  They never throw, make at most one request, and leave the log,
    the slot and every other variable as they were. *)
Theorem grok_senders_answer_for_the_slot
    (text : Js.value) (data : string) (r : Outcome unit) (s : Grok.State)
    (send : Grok.G IpcResult) :
  send ∈ [Grok.send_text_message text r; Grok.send_audio_content data r;
          Grok.send_image_content data r] →
  if Grok.no_session (Grok.grokSessionRef s)
  then send s = (Returns (IpcFailure "No active Grok session"), s)
  else
    (send s).1 = Returns (IpcSuccess NoData)
    ∧ ((send s).2 = s
       ∨ ∃ url body authorization,
           (send s).2
           = Grok.set_trace
               (Grok.trace s ++ [Grok.AxiosPost url body authorization]) s)
    ∧ (Grok.lastSessionParams s = None → (send s).2 = s).
Proof.
  intros Hsend.
  repeat (apply elem_of_cons in Hsend as [-> | Hsend]);
    [| | |by apply elem_of_nil in Hsend];
    grok_exec s;
    repeat match goal with
           | o : option string |- _ => destruct o as [[|? ?]|]
           | o : option Grok.Params |- _ => destruct o
           | o : Outcome unit |- _ => destruct o as [[]|?]
           | v : Js.value |- _ => destruct v
           end;
    try reflexivity;
    (split; [reflexivity|]); (split; [|try done; reflexivity]);
    first [ left; reflexivity | right; do 3 eexists; reflexivity ].
Qed.

Lemma grok_senders_answer_for_the_slot_witness :
  let s :=
    {| Grok.currentSessionId := None; Grok.currentTranscription := "";
       Grok.conversationHistory := []; Grok.isInitializingSession := false;
       Grok.reconnectionAttempts := 0; Grok.lastSessionParams := None;
       Grok.grokSessionRef := Some "g1"; Grok.windows := 1;
       Grok.clock := ticking 1700000000000; Grok.clockReads := 0;
       Grok.trace := [] |} in
  let send := Grok.send_text_message (Js.VStr "hello") (Throws "timeout") in
  (send s).1 = Returns (IpcSuccess NoData)
  ∧ ((send s).2 = s
     ∨ ∃ url body authorization,
         (send s).2
         = Grok.set_trace
             (Grok.trace s ++ [Grok.AxiosPost url body authorization]) s)
  ∧ (Grok.lastSessionParams s = None → (send s).2 = s).
Proof.
  apply (grok_senders_answer_for_the_slot (Js.VStr "hello") "AAAA"
           (Throws "timeout")
           {| Grok.currentSessionId := None; Grok.currentTranscription := "";
              Grok.conversationHistory := [];
              Grok.isInitializingSession := false;
              Grok.reconnectionAttempts := 0;
              Grok.lastSessionParams := None;
              Grok.grokSessionRef := Some "g1"; Grok.windows := 1;
              Grok.clock := ticking 1700000000000; Grok.clockReads := 0;
              Grok.trace := [] |}
           (Grok.send_text_message (Js.VStr "hello") (Throws "timeout"))).
  constructor.
Defined.

(** X30. An initialisation of the Grok module keeps others out while its
    request is out, and lets them in again whatever becomes of it.  Between
    the request and its answer [isInitializingSession] is up, and any other
    call of [initializeGrokSession] returns false at once and changes
    nothing.  When the request has settled the flag is down, whether it has
    succeeded or failed.  [initialize-grok] answers true, and puts the
    session id into the slot, exactly when the response carries an id that
    is not empty; the parameters are stored before the request and stay
    stored when it fails; the log is started anew whenever there is a
    response, also one without an id, and is left as it was when the
    request fails. *)
Theorem grok_initialisation_keeps_others_out
    (getSystemPrompt : string → string → bool → string)
    (key custom prof lang : string) (r : Grok.SessionsOutcome)
    (s : Grok.State) :
  Grok.isInitializingSession s = false →
  let waiting :=
    (Grok.initialize_request getSystemPrompt key custom prof lang false s).2 in
  let settled :=
    Grok.initialize_grok getSystemPrompt key custom prof lang r s in
  let accepted :=
    match r with
    | Grok.SessionsOk (Some id) => Js.nonempty id
    | _ => false
    end in
  Grok.isInitializingSession waiting = true
  ∧ (∀ key' custom' prof' lang' isReconnection r',
       Grok.initializeGrokSession getSystemPrompt key' custom' prof' lang'
         isReconnection r' waiting
       = (Returns Grok.Busy, waiting))
  ∧ settled.1 = Returns accepted
  ∧ Grok.isInitializingSession settled.2 = false
  ∧ Grok.lastSessionParams settled.2
    = Some {| Grok.apiKey := key; Grok.customPrompt := custom;
              Grok.profile := prof; Grok.language := lang |}
  ∧ Grok.grokSessionRef settled.2
    = match r with
      | Grok.SessionsOk (Some id) =>
          if Js.nonempty id then Some id else Grok.grokSessionRef s
      | _ => Grok.grokSessionRef s
      end
  ∧ (Grok.currentSessionId settled.2, Grok.conversationHistory settled.2)
    = match r with
      | Grok.SessionsOk _ =>
          (Some (toString (Grok.clock s (Grok.clockReads s))), [])
      | Grok.SessionsErr =>
          (Grok.currentSessionId s, Grok.conversationHistory s)
      end.
Proof.
  intros Hfree.
  grok_exec s; destruct r as [[[|a id]|]|]; vm_compute; repeat split.
Qed.

Lemma grok_initialisation_keeps_others_out_witness :
  let s :=
    {| Grok.currentSessionId := None; Grok.currentTranscription := "";
       Grok.conversationHistory := []; Grok.isInitializingSession := false;
       Grok.reconnectionAttempts := 0; Grok.lastSessionParams := None;
       Grok.grokSessionRef := None; Grok.windows := 1;
       Grok.clock := ticking 1700000000000; Grok.clockReads := 0;
       Grok.trace := [] |} in
  let waiting :=
    (Grok.initialize_request demo_prompt "xai-key" "" "interview" "en-US"
       false s).2 in
  let settled :=
    Grok.initialize_grok demo_prompt "xai-key" "" "interview" "en-US"
      Grok.SessionsErr s in
  Grok.isInitializingSession waiting = true
  ∧ (∀ key' custom' prof' lang' isReconnection r',
       Grok.initializeGrokSession demo_prompt key' custom' prof' lang'
         isReconnection r' waiting
       = (Returns Grok.Busy, waiting))
  ∧ settled.1 = Returns false
  ∧ Grok.isInitializingSession settled.2 = false
  ∧ Grok.lastSessionParams settled.2
    = Some {| Grok.apiKey := "xai-key"; Grok.customPrompt := "";
              Grok.profile := "interview"; Grok.language := "en-US" |}
  ∧ Grok.grokSessionRef settled.2 = Grok.grokSessionRef s
  ∧ (Grok.currentSessionId settled.2, Grok.conversationHistory settled.2)
    = (Grok.currentSessionId s, Grok.conversationHistory s).
Proof.
  apply (grok_initialisation_keeps_others_out demo_prompt "xai-key" ""
           "interview" "en-US" Grok.SessionsErr
           {| Grok.currentSessionId := None; Grok.currentTranscription := "";
              Grok.conversationHistory := [];
              Grok.isInitializingSession := false;
              Grok.reconnectionAttempts := 0;
              Grok.lastSessionParams := None;
              Grok.grokSessionRef := None; Grok.windows := 1;
              Grok.clock := ticking 1700000000000; Grok.clockReads := 0;
              Grok.trace := [] |}).
  reflexivity.
Defined.
